(** * ring-mqtt bridge: device mapping, publish lifecycle and supervisors

    A shallow embedding of the parts of the bridge that its specification
    talks about:

    - [Mapper]     : [DeviceMapper] and [RingMqtt.processDevices] / [getDeviceId]
                     (src/lib/state.js);
    - [Republish]  : the republish counter, [publishDevices], [publishLocations]
                     and [handleHomeAssistantRestart] (src/lib/state.js);
    - [Intercom]   : the intercom wrapper with its lock and ding entities
                     (src/devices/intercom.js);
    - [Topics]     : the topic construction of the Beam and ContactSensor
                     wrappers (src/devices/beam.js, src/devices/contact-sensor.js);
    - [MediaMTX]   : the media bridge supervisor (src/lib/mediamtx.js);
    - [State]      : the saved-state file, class [State] with [init],
                     [loadStateData] and [updateToken] (src/lib/state.js).

    JavaScript values are modelled as far as the code inspects them: property
    absence versus [undefined], strict equality, truthiness, exceptions as an
    explicit completion type, and [async] functions as tasks that run from one
    [await] to the next on a single control flow. *)

From Stdlib Require Import String List ZArith Bool Lia.
From stdpp Require Import base gmap strings list pretty.
Import ListNotations.

Local Open Scope string_scope.
Local Open Scope Z_scope.
Local Open Scope list_scope.

(** ** JavaScript values and completions *)

(** The primitive values the code compares with [===]. *)
Inductive jsval :=
| JUndef
| JStr (s : string)
| JNum (n : Z).

#[global] Instance jsval_eq_dec : EqDecision jsval.
Proof. solve_decision. Defined.

(** [a === b] on primitives. *)
Definition strictEq (a b : jsval) : bool := bool_decide (a = b).

Inductive jsError :=
| TypeError (msg : string)
| ReferenceError (msg : string).

(** The outcome of evaluating a function body: a value or a thrown error
    (for an [async] function: a fulfilled or a rejected promise). *)
Inductive completion (A : Type) :=
| Normal (a : A)
| Throw (e : jsError).
Arguments Normal {A} a.
Arguments Throw {A} e.

Definition bindC {A B} (c : completion A) (k : A -> completion B) : completion B :=
  match c with
  | Normal a => k a
  | Throw e => Throw e
  end.

Notation "'let*' x ':=' c 'in' k" := (bindC c (fun x => k))
  (at level 10, x name, c at level 100, k at level 200).

(** [v.toString()]: a [TypeError] on [undefined]; a number prints in
    decimal (the numbers at hand are integer device ids). *)
Definition toString (v : jsval) : completion string :=
  match v with
  | JUndef => Throw (TypeError "Cannot read properties of undefined (reading 'toString')")
  | JStr s => Normal s
  | JNum n => Normal (pretty n)
  end.

(** [s.startsWith(p)] *)
Definition startsWith (s p : string) : bool := String.prefix p s.

(** The members every object literal inherits from [Object.prototype]; a
    property read [obj[k]] finds them when [obj] has no own property [k]. *)
Definition objectPrototypeMembers : list string :=
  [ "constructor"; "toString"; "toLocaleString"; "valueOf"; "hasOwnProperty";
    "isPrototypeOf"; "propertyIsEnumerable"; "__proto__";
    "__defineGetter__"; "__defineSetter__"; "__lookupGetter__"; "__lookupSetter__" ].

Definition inObjectPrototype (k : string) : bool :=
  existsb (String.eqb k) objectPrototypeMembers.

(** ** Device mapping (src/lib/state.js, [DeviceMapper] and [processDevices]) *)

Module Mapper.

(** The [RingDeviceType] enum is imported from the vendor client library and
    is not part of the bridge: the mapper is modelled for an arbitrary
    assignment [T] of type tags to the members it mentions. *)
Module RingDeviceType.
Record t := {
  SecurityPanel : string; ContactSensor : string; RetrofitZone : string;
  TiltSensor : string; GlassbreakSensor : string; MotionSensor : string;
  Sensor : string;
  FloodFreezeSensor : string; SmokeAlarm : string; CoAlarm : string;
  SmokeCoListener : string; TemperatureSensor : string;
  BeamsMotionSensor : string; BeamsDevice : string;
  BeamsMultiLevelSwitch : string; BeamsTransformerSwitch : string;
  BeamsLightGroupSwitch : string;
  Switch : string; MultiLevelSwitch : string; Thermostat : string;
  WaterValve : string;
  BaseStation : string; RangeExtender : string; RingNetAdapter : string;
  Keypad : string;
  BeamsSwitch : string }.
End RingDeviceType.

(** The tags of the vendor library's enum as the examples below take them.
    The general statements hold for every assignment. *)
Definition ringClientApi : RingDeviceType.t := {|
  RingDeviceType.SecurityPanel := "security-panel";
  RingDeviceType.ContactSensor := "sensor.contact";
  RingDeviceType.RetrofitZone := "sensor.zone";
  RingDeviceType.TiltSensor := "sensor.tilt";
  RingDeviceType.GlassbreakSensor := "sensor.glassbreak";
  RingDeviceType.MotionSensor := "sensor.motion";
  RingDeviceType.Sensor := "sensor";
  RingDeviceType.FloodFreezeSensor := "sensor.flood-freeze";
  RingDeviceType.SmokeAlarm := "alarm.smoke";
  RingDeviceType.CoAlarm := "alarm.co";
  RingDeviceType.SmokeCoListener := "listener.smoke-co";
  RingDeviceType.TemperatureSensor := "sensor.temperature";
  RingDeviceType.BeamsMotionSensor := "motion-sensor.beams";
  RingDeviceType.BeamsDevice := "device.beams";
  RingDeviceType.BeamsMultiLevelSwitch := "switch.multilevel.beams";
  RingDeviceType.BeamsTransformerSwitch := "switch.transformer.beams";
  RingDeviceType.BeamsLightGroupSwitch := "group.light-group.beams";
  RingDeviceType.Switch := "switch";
  RingDeviceType.MultiLevelSwitch := "switch.multilevel";
  RingDeviceType.Thermostat := "temperature-control.thermostat";
  RingDeviceType.WaterValve := "valve.water";
  RingDeviceType.BaseStation := "hub.redsky";
  RingDeviceType.RangeExtender := "range-extender.zwave";
  RingDeviceType.RingNetAdapter := "adapter.ringnet";
  RingDeviceType.Keypad := "security-keypad";
  RingDeviceType.BeamsSwitch := "switch.beams" |}.

(** What [device instanceof ...] can tell apart. [RingDevice] stands for
    every other descriptor: an alarm-hub device of the vendor library or the
    ad-hoc ['location.mode'] object built by [processDevices]. *)
Inductive vendorClass := RingCamera | RingChime | RingIntercom | RingDevice.

#[global] Instance vendorClass_eq_dec : EqDecision vendorClass.
Proof. solve_decision. Defined.

(** [device.data]. Every descriptor the bridge handles carries a data
    object; [parentZid] is [None] when the object has no such key. *)
Record deviceData := {
  parentZid : option jsval;
  device_id : jsval }.

Record ringDevice := {
  dev_class : vendorClass;
  dev_id : jsval;
  dev_deviceType : string;
  dev_data : deviceData;
  dev_categoryId : jsval;
  dev_tags : option (list string) }.

(** Reading [d.data.parentZid]: [undefined] when the key is absent. *)
Definition get_parentZid (d : ringDevice) : jsval :=
  match parentZid (dev_data d) with
  | Some z => z
  | None => JUndef
  end.

Record event := { source_id : jsval }.

(** The [deviceInfo] object handed to the wrapper constructors. A field is
    [None] when the object has no such key; [di_parentDevice = Some None] is
    the key being present with the value [undefined]. *)
Record deviceInfo := {
  di_device : ringDevice;
  di_childDevices : option (list ringDevice);
  di_parentDevice : option (option ringDevice);
  di_bypassCapableDevices : option (list ringDevice);
  di_securityPanel : option (option ringDevice) }.

Definition set_bypassCapableDevices (i : deviceInfo) (l : list ringDevice) : deviceInfo :=
  {| di_device := di_device i; di_childDevices := di_childDevices i;
     di_parentDevice := di_parentDevice i;
     di_bypassCapableDevices := Some l;
     di_securityPanel := di_securityPanel i |}.

Definition set_securityPanel (i : deviceInfo) (p : option ringDevice) : deviceInfo :=
  {| di_device := di_device i; di_childDevices := di_childDevices i;
     di_parentDevice := di_parentDevice i;
     di_bypassCapableDevices := di_bypassCapableDevices i;
     di_securityPanel := Some p |}.

(** The wrapper classes imported at the top of the file. Their constructors
    live in other files; [new C(deviceInfo)] is recorded as [Instance C]
    applied to the arguments it was given. *)
Inductive wrapperClass :=
| BaseStation | Beam | BeamOutdoorPlug | BinarySensor | Bridge | Camera
| CoAlarm | Chime | Fan | FloodFreezeSensor | Intercom | Keypad | Lock
| ModesPanel | MultiLevelSwitch | PanicButton | RangeExtender | SecurityPanel
| Siren | SmokeAlarm | SmokeCoListener | Switch | TemperatureSensor
| Thermostat | Valve.

(** The values [mapDevice] can resolve to: a wrapper instance, a string
    (['ignore'], ["not-supported"], ...), or what calling an inherited
    [Object.prototype] member can leave behind. *)
Inductive mapped :=
| Instance (c : wrapperClass) (info : deviceInfo) (events : option (list event))
| Str (s : string)
| EmptyObject
| JsFalse.

Definition Ignore : mapped := Str "ignore".
Definition NotSupported : mapped := Str "not-supported".

Definition isInstance (m : mapped) : bool :=
  match m with Instance _ _ _ => true | _ => false end.

Definition truthy (m : mapped) : bool :=
  match m with
  | Instance _ _ _ => true
  | Str s => negb (String.eqb s "")
  | EmptyObject => true
  | JsFalse => false
  end.

Section DeviceMapper.

Variable T : RingDeviceType.t.

(** [allDevices.some(d => d.data.parentZid === device.id)] *)
Definition hasChildDevices (device : ringDevice) (allDevices : list ringDevice) : bool :=
  existsb (fun d => strictEq (get_parentZid d) (dev_id device)) allDevices.

Definition buildDeviceInfo (device : ringDevice) (allDevices : list ringDevice) : deviceInfo :=
  {| di_device := device;
     di_childDevices :=
       if hasChildDevices device allDevices
       then Some (List.filter (fun d => strictEq (get_parentZid d) (dev_id device)) allDevices)
       else None;
     di_parentDevice :=
       match parentZid (dev_data device) with
       | Some z => Some (List.find (fun d => strictEq (dev_id d) z) allDevices)
       | None => None
       end;
     di_bypassCapableDevices := None;
     di_securityPanel := None |}.

(** [events.filter(event => event.source_id === device.id.toString())] *)
Definition filterDeviceEvents (device : ringDevice) (events : list event)
  : completion (list event) :=
  match events with
  | [] => Normal []
  | _ :: _ =>
      let* s := toString (dev_id device) in
      Normal (List.filter (fun e => strictEq (source_id e) (JStr s)) events)
  end.

Definition getBypassCapableDevices (allDevices : list ringDevice) : list ringDevice :=
  let bypassableTypes :=
    [ RingDeviceType.ContactSensor T; RingDeviceType.RetrofitZone T;
      RingDeviceType.MotionSensor T; RingDeviceType.TiltSensor T;
      RingDeviceType.GlassbreakSensor T ] in
  List.filter (fun device => existsb (String.eqb (dev_deviceType device)) bypassableTypes)
              allDevices.

Definition createSecurityDevice (info : deviceInfo) (allDevices : list ringDevice) : mapped :=
  let info' :=
    set_securityPanel info
      (List.find (fun device => String.eqb (dev_deviceType device) (RingDeviceType.SecurityPanel T))
                 allDevices) in
  Instance BinarySensor info' None.

(** [deviceInfo.parentDevice.deviceType] is read whenever the key is there,
    also when its value is [undefined]. *)
Definition handleTemperatureSensor (info : deviceInfo) : completion mapped :=
  match di_parentDevice info with
  | Some (Some parent) =>
      if String.eqb (dev_deviceType parent) (RingDeviceType.Thermostat T)
      then Normal Ignore
      else Normal (Instance TemperatureSensor info None)
  | Some None =>
      Throw (TypeError "Cannot read properties of undefined (reading 'deviceType')")
  | None => Normal (Instance TemperatureSensor info None)
  end.

(** The closures stored in the [creators] table. *)
Inductive creator :=
| NewSecurityPanel
| CreateSecurityDevice
| New (c : wrapperClass)
| HandleTemperatureSensor
| FanOrMultiLevelSwitch
| HiddenOrBridge
| ReturnIgnore.

(** A property of the table: a closure, or the accessor [get lock()]. *)
Inductive property :=
| Value (f : creator)
| LockGetter.

(** The [creators] object literal, in source order. *)
Definition creators : list (string * property) :=
  [ (RingDeviceType.SecurityPanel T, Value NewSecurityPanel);
    (RingDeviceType.ContactSensor T, Value CreateSecurityDevice);
    (RingDeviceType.RetrofitZone T, Value CreateSecurityDevice);
    (RingDeviceType.TiltSensor T, Value CreateSecurityDevice);
    (RingDeviceType.GlassbreakSensor T, Value CreateSecurityDevice);
    (RingDeviceType.MotionSensor T, Value CreateSecurityDevice);
    (RingDeviceType.Sensor T, Value CreateSecurityDevice);
    (RingDeviceType.FloodFreezeSensor T, Value (New FloodFreezeSensor));
    (RingDeviceType.SmokeAlarm T, Value (New SmokeAlarm));
    (RingDeviceType.CoAlarm T, Value (New CoAlarm));
    (RingDeviceType.SmokeCoListener T, Value (New SmokeCoListener));
    (RingDeviceType.TemperatureSensor T, Value HandleTemperatureSensor);
    (RingDeviceType.BeamsMotionSensor T, Value (New Beam));
    (RingDeviceType.BeamsDevice T, Value (New BeamOutdoorPlug));
    (RingDeviceType.BeamsMultiLevelSwitch T, Value (New Beam));
    (RingDeviceType.BeamsTransformerSwitch T, Value (New Beam));
    (RingDeviceType.BeamsLightGroupSwitch T, Value (New Beam));
    (RingDeviceType.Switch T, Value (New Switch));
    (RingDeviceType.MultiLevelSwitch T, Value FanOrMultiLevelSwitch);
    (RingDeviceType.Thermostat T, Value (New Thermostat));
    (RingDeviceType.WaterValve T, Value (New Valve));
    (RingDeviceType.BaseStation T, Value (New BaseStation));
    (RingDeviceType.RangeExtender T, Value (New RangeExtender));
    (RingDeviceType.RingNetAdapter T, Value HiddenOrBridge);
    (RingDeviceType.Keypad T, Value (New Keypad));
    ("security-remote", Value (New PanicButton));
    ("lock", LockGetter);
    ("location.mode", Value (New ModesPanel));
    ("siren", Value (New Siren));
    ("siren.outdoor-strobe", Value (New Siren));
    (RingDeviceType.BeamsSwitch T, Value ReturnIgnore);
    ("access-code", Value ReturnIgnore);
    ("access-code.vault", Value ReturnIgnore);
    ("adapter.sidewalk", Value ReturnIgnore);
    ("adapter.shadow", Value ReturnIgnore);
    ("adapter.zigbee", Value ReturnIgnore);
    ("adapter.zwave", Value ReturnIgnore);
    ("thermostat-operating-status", Value ReturnIgnore) ].

(** Own property lookup in an object literal: when a key is written more
    than once, the last definition is the one that stays. *)
Fixpoint ownProperty (tbl : list (string * property)) (k : string) : option property :=
  match tbl with
  | [] => None
  | (k', p) :: rest =>
      match ownProperty rest k with
      | Some q => Some q
      | None => if String.eqb k' k then Some p else None
      end
  end.

(** [k in creators]: an own key or a member inherited from [Object.prototype]. *)
Definition hasProperty (k : string) : bool :=
  match ownProperty creators k with
  | Some _ => true
  | None => inObjectPrototype k
  end.

(** What a property read [creators[k]] evaluates to. *)
Inductive propertyValue :=
| Closure (f : creator)
| Inherited (name : string)
| Undefined.

Definition getProperty (device : ringDevice) (k : string) : propertyValue :=
  match ownProperty creators k with
  | Some (Value f) => Closure f
  | Some LockGetter =>
      if startsWith (dev_deviceType device) "lock." || String.eqb (dev_deviceType device) "lock"
      then Closure (New Lock)
      else Undefined
  | None => if inObjectPrototype k then Inherited k else Undefined
  end.

(** Calling a table closure. *)
Definition callCreator (f : creator) (device : ringDevice) (info : deviceInfo)
           (allDevices : list ringDevice) : completion mapped :=
  match f with
  | NewSecurityPanel =>
      Normal (Instance SecurityPanel
                (set_bypassCapableDevices info (getBypassCapableDevices allDevices)) None)
  | CreateSecurityDevice => Normal (createSecurityDevice info allDevices)
  | New c => Normal (Instance c info None)
  | HandleTemperatureSensor => handleTemperatureSensor info
  | FanOrMultiLevelSwitch =>
      if strictEq (dev_categoryId device) (JNum 17)
      then Normal (Instance Fan info None)
      else Normal (Instance MultiLevelSwitch info None)
  | HiddenOrBridge =>
      match dev_tags device with
      | Some tags =>
          if existsb (String.eqb "hidden") tags then Normal Ignore
          else Normal (Instance Bridge info None)
      | None => Normal (Instance Bridge info None)
      end
  | ReturnIgnore => Normal Ignore
  end.

(** Calling an inherited [Object.prototype] member as a plain function, with
    no receiver and no argument (module code is strict). *)
Definition callInherited (name : string) : completion mapped :=
  if String.eqb name "constructor" then Normal EmptyObject
  else if String.eqb name "toString" then Normal (Str "[object Undefined]")
  else if String.eqb name "isPrototypeOf" then Normal JsFalse
  else if String.eqb name "__proto__" then Throw (TypeError "deviceCreator is not a function")
  else if String.eqb name "toLocaleString"
  then Throw (TypeError "Object.prototype.toLocaleString called on null or undefined")
  else Throw (TypeError "Cannot convert undefined or null to object").

Definition mapByDeviceType (device : ringDevice) (info : deviceInfo)
           (allDevices : list ringDevice) : completion mapped :=
  let deviceCreator :=
    match getProperty device (dev_deviceType device) with
    | Undefined => getProperty device "lock"
    | v => v
    end in
  match deviceCreator with
  | Closure f => callCreator f device info allDevices
  | Inherited name => callInherited name
  | Undefined => Normal NotSupported
  end.

Definition mapDevice (device : ringDevice) (allDevices : list ringDevice)
           (events : list event) : completion mapped :=
  let deviceInfo := buildDeviceInfo device allDevices in
  match dev_class device with
  | RingCamera =>
      let* evs := filterDeviceEvents device events in
      Normal (Instance Camera deviceInfo (Some evs))
  | RingChime => Normal (Instance Chime deviceInfo None)
  | RingIntercom => Normal (Instance Intercom deviceInfo None)
  | RingDevice => mapByDeviceType device deviceInfo allDevices
  end.

(** *** [RingMqtt.processDevices] and [getDeviceId] *)

Definition getDeviceId (device : ringDevice) : jsval :=
  match dev_class device with
  | RingCamera | RingChime | RingIntercom => device_id (dev_data device)
  | RingDevice => dev_id device
  end.

(** Modelled from the spec: the wrapper base classes that assign
    [this.deviceId] are not among the sources. Per the data model (a wrapper
    exists once per vendor device identifier) a wrapper built for a device
    carries that device's identifier, the one [getDeviceId] computes. The
    other values a registry entry can be have no [deviceId] property. *)
Definition deviceId (m : mapped) : jsval :=
  match m with
  | Instance _ info _ => getDeviceId (di_device info)
  | _ => JUndef
  end.

Record location := {
  locationId : string;
  supportsLocationModeSwitching : bool }.

(** The descriptor pushed for a location that supports mode switching. *)
Definition modeDevice (loc : location) : ringDevice :=
  {| dev_class := RingDevice;
     dev_id := JStr (locationId loc +:+ "_mode");
     dev_deviceType := "location.mode";
     dev_data := {| parentZid := None; device_id := JStr (locationId loc +:+ "_mode") |};
     dev_categoryId := JUndef;
     dev_tags := None |}.

(** What one run of the discovery loop does besides updating the registry:
    calls of the mapper and lines written to the debug log. *)
Inductive logEntry :=
| MapDeviceCall (device : ringDevice)
| NewDevice (m : mapped)
| ExistingDevice (m : mapped)
| UnsupportedDevice (deviceType : string).

Record discovery := {
  devices : list mapped;              (* this.devices$.value *)
  unsupportedDevices : list string;   (* the local array of one run *)
  log : list logEntry }.

Definition isStr (m : mapped) (s : string) : bool :=
  match m with Str s' => String.eqb s' s | _ => false end.

(** The body of the [for (const device of allDevices)] loop. The second
    component is the error that left the loop, if any. [logNewDevice] and
    [logExistingDevice] are taken to return, as they do on a wrapper; on a
    registry entry that is no wrapper they throw after the registry was
    updated. *)
Definition processDevice (allDevices : list ringDevice) (events : list event)
           (st : discovery) (device : ringDevice) : discovery * option jsError :=
  let id := getDeviceId device in
  match List.find (fun d => strictEq (deviceId d) id) (devices st) with
  | None =>
      let st1 := {| devices := devices st;
                    unsupportedDevices := unsupportedDevices st;
                    log := log st ++ [MapDeviceCall device] |} in
      match mapDevice device allDevices events with
      | Throw e => (st1, Some e)
      | Normal mappedDevice =>
          if isStr mappedDevice "not-supported" then
            ({| devices := devices st1;
                unsupportedDevices := unsupportedDevices st1 ++ [dev_deviceType device];
                log := log st1 |}, None)
          else if truthy mappedDevice && negb (isStr mappedDevice "ignore") then
            ({| devices := devices st1 ++ [mappedDevice];
                unsupportedDevices := unsupportedDevices st1;
                log := log st1 ++ [NewDevice mappedDevice] |}, None)
          else (st1, None)
      end
  | Some existingDevice =>
      ({| devices := devices st;
          unsupportedDevices := unsupportedDevices st;
          log := log st ++ [ExistingDevice existingDevice] |}, None)
  end.

Fixpoint processLoop (allDevices : list ringDevice) (events : list event)
         (pending : list ringDevice) (st : discovery) : discovery * option jsError :=
  match pending with
  | [] => (st, None)
  | device :: rest =>
      match processDevice allDevices events st device with
      | (st', None) => processLoop allDevices events rest st'
      | (st', Some e) => (st', Some e)
      end
  end.

(** [processDevices(location, { devices, cameras, chimes, intercoms, events })]
    run on the registry [registry]; [enable_modes] is the configuration flag. *)
Definition processDevices (enable_modes : bool) (loc : location)
           (devs cameras chimes intercoms : list ringDevice) (events : list event)
           (registry : list mapped) : discovery * option jsError :=
  let allDevices :=
    (devs ++ cameras ++ chimes ++ intercoms) ++
    (if enable_modes && supportsLocationModeSwitching loc then [modeDevice loc] else []) in
  match processLoop allDevices events allDevices
          {| devices := registry; unsupportedDevices := []; log := [] |} with
  | (st, None) =>
      ({| devices := devices st;
          unsupportedDevices := unsupportedDevices st;
          log := log st ++ List.map UnsupportedDevice (unsupportedDevices st) |}, None)
  | (st, Some e) => (st, Some e)
  end.

(** *** Vocabulary of the specification *)

(** The device types of the explicit ignore set. *)
Definition ignoreSet : list string :=
  [ RingDeviceType.BeamsSwitch T; "access-code"; "access-code.vault";
    "adapter.sidewalk"; "adapter.shadow"; "adapter.zigbee"; "adapter.zwave";
    "thermostat-operating-status" ].

(** Whether a device type takes the lock fallback. *)
Definition lockType (deviceType : string) : bool :=
  startsWith deviceType "lock." || String.eqb deviceType "lock".

(** The keys of the constructor lookup table: the own keys of [creators]
    that hold a closure. The accessor [lock] holds none; it is the fallback
    itself. *)
Definition constructorKey (k : string) : bool :=
  match ownProperty creators k with
  | Some (Value _) => true
  | _ => false
  end.

(** The identifiers of the wrapper instances in a registry. *)
Definition instanceIds (registry : list mapped) : list jsval :=
  List.map deviceId (List.filter isInstance registry).

(** The devices whose parent reference is the identifier of [parent]. *)
Definition childrenOf (parent : ringDevice) (allDevices : list ringDevice) : list ringDevice :=
  List.filter (fun d => strictEq (get_parentZid d) (dev_id parent)) allDevices.

End DeviceMapper.

End Mapper.

(** ** The republish cycle (src/lib/state.js, [RingMqtt]) *)

Module Republish.

(** A location object: the flags the controller reads and writes, and the
    current value of its [onConnected] subject. *)
Record location := {
  locationId : string;
  hasHubs : bool;
  isSubscribed : bool;
  isConnected : bool;
  onConnected : bool }.

(** A registered wrapper, as far as the controller looks at it. *)
Record wrapper := {
  deviceId : string;
  deviceLocation : string;
  camera : bool }.

(** An [async] activation suspended at an [await]. *)
Inductive task :=
| InitRingData
    (* handleMqttConnection, waiting for initRingData *)
| PublishDevicesSleep (loc : string) (rest : list string)
    (* publishDevices(loc) at [await utils.sleep(30)]; [rest]: the locations
       its caller publishLocations has still to visit (none when the caller
       is the websocket callback) *)
| RestartSleep
    (* handleHomeAssistantRestart at [await utils.sleep(15)] *)
| DisconnectSleep (loc : string).
    (* the websocket callback at [await utils.sleep(30)] *)

(** Calls on the wrappers. *)
Inductive output :=
| DevicePublish (device : string) (connected : bool)
| DeviceOffline (device : string).

Record ringMqtt := {
  republishCount : Z;
  mqttConnected : bool;
  locations : list location;
  devices : list wrapper;
  tasks : list task;
  out : list output }.

(** The state the constructor leaves. *)
Definition initial : ringMqtt :=
  {| republishCount := 6; mqttConnected := false; locations := [];
     devices := []; tasks := []; out := [] |}.

Definition set_republishCount (st : ringMqtt) (n : Z) : ringMqtt :=
  {| republishCount := n; mqttConnected := mqttConnected st;
     locations := locations st; devices := devices st;
     tasks := tasks st; out := out st |}.

Definition set_mqttConnected (st : ringMqtt) (b : bool) : ringMqtt :=
  {| republishCount := republishCount st; mqttConnected := b;
     locations := locations st; devices := devices st;
     tasks := tasks st; out := out st |}.

Definition set_locations (st : ringMqtt) (l : list location) : ringMqtt :=
  {| republishCount := republishCount st; mqttConnected := mqttConnected st;
     locations := l; devices := devices st;
     tasks := tasks st; out := out st |}.

Definition set_devices (st : ringMqtt) (l : list wrapper) : ringMqtt :=
  {| republishCount := republishCount st; mqttConnected := mqttConnected st;
     locations := locations st; devices := l;
     tasks := tasks st; out := out st |}.

Definition set_tasks (st : ringMqtt) (l : list task) : ringMqtt :=
  {| republishCount := republishCount st; mqttConnected := mqttConnected st;
     locations := locations st; devices := devices st;
     tasks := l; out := out st |}.

Definition emit (st : ringMqtt) (o : list output) : ringMqtt :=
  {| republishCount := republishCount st; mqttConnected := mqttConnected st;
     locations := locations st; devices := devices st;
     tasks := tasks st; out := out st ++ o |}.

Definition suspend (t : task) (st : ringMqtt) : ringMqtt :=
  set_tasks st (tasks st ++ [t]).

Definition getLocation (st : ringMqtt) (loc : string) : option location :=
  List.find (fun l => String.eqb (locationId l) loc) (locations st).

(** In-place update of the location object [loc]. *)
Definition updateLocation (st : ringMqtt) (loc : string) (f : location -> location) : ringMqtt :=
  set_locations st
    (List.map (fun l => if String.eqb (locationId l) loc then f l else l) (locations st)).

Definition locationDevices (st : ringMqtt) (loc : string) : list wrapper :=
  List.filter (fun d => String.eqb (deviceLocation d) loc) (devices st).

Definition onConnectedValue (st : ringMqtt) (loc : string) : bool :=
  match getLocation st loc with
  | Some l => onConnected l
  | None => false
  end.

(** One pass through the body of the [while] loop of [publishDevices], up
    to its [await utils.sleep(30)]; [None] when the loop condition fails and
    [publishDevices] returns. *)
Definition publishDevices (st : ringMqtt) (loc : string) (rest : list string)
  : option ringMqtt :=
  if (0 <? republishCount st) && mqttConnected st then
    let publishes :=
      List.map (fun d => DevicePublish (deviceId d) (onConnectedValue st loc))
               (locationDevices st loc) in
    Some (suspend (PublishDevicesSleep loc rest) (emit st publishes))
  else None.

(** The callback given to [location.onConnected.subscribe]. *)
Definition onConnectedCallback (st : ringMqtt) (loc : string) (connected : bool) : ringMqtt :=
  match getLocation st loc with
  | None => st
  | Some l =>
      if connected && negb (isConnected l) then
        let st1 := updateLocation st loc (fun l =>
                     {| locationId := locationId l; hasHubs := hasHubs l;
                        isSubscribed := isSubscribed l; isConnected := true;
                        onConnected := onConnected l |}) in
        match publishDevices st1 loc [] with
        | Some st2 => st2
        | None => st1
        end
      else if negb connected then suspend (DisconnectSleep loc) st
      else st
  end.

(** [onConnected] holds a current value, which a new subscriber receives
    at once. *)
Definition subscribeToLocationWebsocket (st : ringMqtt) (loc : string) : ringMqtt :=
  let st1 := updateLocation st loc (fun l =>
               {| locationId := locationId l; hasHubs := hasHubs l;
                  isSubscribed := true; isConnected := isConnected l;
                  onConnected := onConnected l |}) in
  onConnectedCallback st1 loc (onConnectedValue st1 loc).

(** [publishLocations], from the location it is about to visit: it runs
    until the first [publishDevices] that goes to sleep, or to its end. *)
Fixpoint publishLocations (st : ringMqtt) (pending : list string) : ringMqtt :=
  match pending with
  | [] => st
  | loc :: rest =>
      match getLocation st loc with
      | None => publishLocations st rest
      | Some l =>
          match locationDevices st loc with
          | [] => publishLocations st rest
          | _ :: _ =>
              if hasHubs l && negb (isSubscribed l)
              then publishLocations (subscribeToLocationWebsocket st loc) rest
              else match publishDevices st loc rest with
                   | Some st' => st'
                   | None => publishLocations st rest
                   end
          end
      end
  end.

Definition allLocations (st : ringMqtt) : list string :=
  List.map locationId (locations st).

Definition handleMqttConnection (st : ringMqtt) : ringMqtt :=
  match locations st with
  | _ :: _ => publishLocations st (allLocations st)
  | [] => suspend InitRingData st
  end.

Definition handleHomeAssistantRestart (st : ringMqtt) : ringMqtt :=
  if 0 <? republishCount st
  then set_republishCount st 6
  else suspend RestartSleep st.

Definition handleLocationDisconnect (st : ringMqtt) (loc : string) : ringMqtt :=
  emit st (List.map (fun d => DeviceOffline (deviceId d))
             (List.filter (fun d => String.eqb (deviceLocation d) loc && negb (camera d))
                          (devices st))).

(** What the event loop can deliver. *)
Inductive event :=
| MqttState (state : string)
| HaStatus (message : string)
| WebsocketState (loc : string) (connected : bool)
| RingDataReady (i : nat) (locs : list location) (devs : list wrapper)
| Wake (i : nat).

(** The rest of a suspended activation, run when its sleep is over. *)
Definition resume (t : task) (st : ringMqtt) : ringMqtt :=
  match t with
  | InitRingData => st
  | PublishDevicesSleep loc rest =>
      let st1 := set_republishCount st (republishCount st - 1) in
      match publishDevices st1 loc rest with
      | Some st2 => st2
      | None => publishLocations st1 rest
      end
  | RestartSleep =>
      let st1 := set_republishCount st 6 in
      publishLocations st1 (allLocations st1)
  | DisconnectSleep loc =>
      if negb (onConnectedValue st loc) then
        handleLocationDisconnect
          (updateLocation st loc (fun l =>
             {| locationId := locationId l; hasHubs := hasHubs l;
                isSubscribed := isSubscribed l; isConnected := false;
                onConnected := onConnected l |})) loc
      else st
  end.

Definition step (st : ringMqtt) (e : event) : ringMqtt :=
  match e with
  | MqttState state =>
      let connected := String.eqb state "connected" in
      let st1 := set_mqttConnected st connected in
      if connected && negb (mqttConnected st) then handleMqttConnection st1 else st1
  | HaStatus message =>
      if String.eqb message "online" then handleHomeAssistantRestart st else st
  | WebsocketState loc connected =>
      let st1 := updateLocation st loc (fun l =>
                   {| locationId := locationId l; hasHubs := hasHubs l;
                      isSubscribed := isSubscribed l; isConnected := isConnected l;
                      onConnected := connected |}) in
      match getLocation st1 loc with
      | Some l => if isSubscribed l then onConnectedCallback st1 loc connected else st1
      | None => st1
      end
  | RingDataReady i locs devs =>
      match tasks st !! i with
      | Some InitRingData =>
          (* processLocation clears both flags of a location it has not seen;
             the registry was empty when this discovery began, and no other
             discovery is in flight *)
          let fresh := List.map (fun l =>
                         {| locationId := locationId l; hasHubs := hasHubs l;
                            isSubscribed := false; isConnected := false;
                            onConnected := onConnected l |}) locs in
          let st1 := set_devices (set_locations (set_tasks st (delete i (tasks st))) fresh) devs in
          publishLocations st1 (allLocations st1)
      | _ => st
      end
  | Wake i =>
      match tasks st !! i with
      | Some InitRingData => st
      | Some t => resume t (set_tasks st (delete i (tasks st)))
      | None => st
      end
  end.

Definition run (st : ringMqtt) (es : list event) : ringMqtt :=
  List.fold_left step es st.

(** The argument of the [utils.sleep] a task is suspended at, in seconds. *)
Definition sleepSeconds (t : task) : option Z :=
  match t with
  | InitRingData => None
  | PublishDevicesSleep _ _ => Some 30
  | RestartSleep => Some 15
  | DisconnectSleep _ => Some 30
  end.

(** The republish loops in flight: the suspended [publishDevices] calls. *)
Definition isCycle (t : task) : bool :=
  match t with
  | PublishDevicesSleep _ _ => true
  | _ => false
  end.

Definition cycles (st : ringMqtt) : list task := List.filter isCycle (tasks st).

(** The [device.publish] calls of one cycle for the location [loc]. *)
Definition cyclePublishes (st : ringMqtt) (loc : string) : list output :=
  List.map (fun d => DevicePublish (deviceId d) (onConnectedValue st loc))
           (locationDevices st loc).

(** [sameCounter st st']: counter, connection flag and devices agree. *)
Definition sameCounter (st st' : ringMqtt) : Prop :=
  republishCount st' = republishCount st /\
  mqttConnected st' = mqttConnected st /\
  devices st' = devices st.

(** [quiet st st']: moreover no cycle was started and nothing published. *)
Definition quiet (st st' : ringMqtt) : Prop :=
  sameCounter st st' /\ cycles st' = cycles st /\ out st' = out st.

End Republish.

(** ** The intercom wrapper (src/devices/intercom.js) *)

Module Intercom.

(** [this.data.lock] and [this.data.ding]. [publishedState] is [None] while
    it is [null]; a timeout field is [None] while it is [false] and holds the
    handle returned by [setTimeout] otherwise. *)
Record lockData := {
  lock_state : string;
  lock_publishedState : option string;
  unlockTimeout : option nat }.

Record dingData := {
  ding_state : string;
  ding_publishedState : option string;
  ding_timeout : option nat }.

(** The two closures handed to [setTimeout]. *)
Inductive callback := RevertDing | RevertLock.

#[global] Instance callback_eq_dec : EqDecision callback.
Proof. solve_decision. Defined.

Record timer := {
  delay : Z;            (* milliseconds *)
  action : callback }.

(** What the wrapper reads from the vendor device object. *)
Record intercomDevice := {
  batteryLevel : option Z;          (* None: null *)
  has_firemware_version : bool;     (* data has a key spelled 'firemware_version' *)
  firmware_version : jsval }.

Record attributes := {
  lastUpdate : Z;
  attr_batteryLevel : option Z;
  attr_firmwareVersion : option jsval }.

Inductive payload :=
| Text (s : string)
| Json (a : attributes).

Inductive output :=
| MqttPublish (topic : string) (message : payload) (attr : bool)
| PublishAttributeEntities (a : attributes)
| Debug (line : string).

(** The topics the base class assigns to the three entities. *)
Record entityTopics := {
  ding_state_topic : string;
  lock_state_topic : string;
  info_state_topic : string }.

Record intercom := {
  device : intercomDevice;
  entity : entityTopics;
  lock : lockData;
  ding : dingData;
  timers : gmap nat timer;   (* the pending timeouts of the event loop *)
  nextTimer : nat;           (* the next fresh handle *)
  out : list output }.

(** The state the constructor leaves. *)
Definition create (dev : intercomDevice) (topics : entityTopics) : intercom :=
  {| device := dev; entity := topics;
     lock := {| lock_state := "LOCKED"; lock_publishedState := None; unlockTimeout := None |};
     ding := {| ding_state := "OFF"; ding_publishedState := None; ding_timeout := None |};
     timers := ∅; nextTimer := 0%nat; out := [] |}.

Definition set_lock (w : intercom) (l : lockData) : intercom :=
  {| device := device w; entity := entity w; lock := l; ding := ding w;
     timers := timers w; nextTimer := nextTimer w; out := out w |}.

Definition set_ding (w : intercom) (d : dingData) : intercom :=
  {| device := device w; entity := entity w; lock := lock w; ding := d;
     timers := timers w; nextTimer := nextTimer w; out := out w |}.

Definition emit (w : intercom) (o : output) : intercom :=
  {| device := device w; entity := entity w; lock := lock w; ding := ding w;
     timers := timers w; nextTimer := nextTimer w; out := out w ++ [o] |}.

Definition mqttPublish (w : intercom) (topic : string) (message : payload) (attr : bool)
  : intercom :=
  emit w (MqttPublish topic message attr).

(** [setTimeout(cb, ms)]: a fresh handle, pending from now on. *)
Definition setTimeout (w : intercom) (cb : callback) (ms : Z) : intercom * nat :=
  ({| device := device w; entity := entity w; lock := lock w; ding := ding w;
      timers := <[nextTimer w := {| delay := ms; action := cb |}]> (timers w);
      nextTimer := S (nextTimer w); out := out w |}, nextTimer w).

Definition clearTimeout (w : intercom) (h : nat) : intercom :=
  {| device := device w; entity := entity w; lock := lock w; ding := ding w;
     timers := delete h (timers w);
     nextTimer := nextTimer w; out := out w |}.

(** [state !== publishedState] *)
Definition differs (state : string) (published : option string) : bool :=
  match published with
  | Some p => negb (String.eqb state p)
  | None => true
  end.

Definition publishDingState (w : intercom) (isPublish : bool) : intercom :=
  if differs (ding_state (ding w)) (ding_publishedState (ding w)) || isPublish then
    let w1 := mqttPublish w (ding_state_topic (entity w)) (Text (ding_state (ding w))) false in
    set_ding w1 {| ding_state := ding_state (ding w1);
                   ding_publishedState := Some (ding_state (ding w1));
                   ding_timeout := ding_timeout (ding w1) |}
  else w.

Definition publishLockState (w : intercom) (isPublish : bool) : intercom :=
  if differs (lock_state (lock w)) (lock_publishedState (lock w)) || isPublish then
    let w1 := mqttPublish w (lock_state_topic (entity w)) (Text (lock_state (lock w))) false in
    set_lock w1 {| lock_state := lock_state (lock w1);
                   lock_publishedState := Some (lock_state (lock w1));
                   unlockTimeout := unlockTimeout (lock w1) |}
  else w.

(** [publishAttributes]; [now] is [Date.now()]. *)
Definition publishAttributes (w : intercom) (now : Z) : intercom :=
  let a := {| lastUpdate := now / 1000;
              attr_batteryLevel :=
                match batteryLevel (device w) with
                | Some n => if n =? 0 then None else Some n
                | None => None
                end;
              attr_firmwareVersion :=
                if has_firemware_version (device w)
                then Some (firmware_version (device w)) else None |} in
  emit (mqttPublish w (info_state_topic (entity w)) (Json a) true)
       (PublishAttributeEntities a).

(** [publishState(data)]: a call without argument is the full publish. *)
Definition publishState (w : intercom) (data : option string) (now : Z) : intercom :=
  let isPublish := match data with None => true | Some _ => false end in
  let w1 := publishDingState w isPublish in
  let w2 := publishLockState w1 isPublish in
  if isPublish then publishAttributes w2 now else w2.

Definition processDing (w : intercom) : intercom :=
  let w1 :=
    match ding_timeout (ding w) with
    | Some h =>
        let w' := clearTimeout w h in
        set_ding w' {| ding_state := ding_state (ding w');
                       ding_publishedState := ding_publishedState (ding w');
                       ding_timeout := None |}
    | None => w
    end in
  let w2 := set_ding w1 {| ding_state := "ON";
                           ding_publishedState := ding_publishedState (ding w1);
                           ding_timeout := ding_timeout (ding w1) |} in
  let w3 := publishDingState w2 false in
  let (w4, h) := setTimeout w3 RevertDing 15000 in
  set_ding w4 {| ding_state := ding_state (ding w4);
                 ding_publishedState := ding_publishedState (ding w4);
                 ding_timeout := Some h |}.

Definition setDoorUnlocked (w : intercom) : intercom :=
  let w1 :=
    match unlockTimeout (lock w) with
    | Some h =>
        let w' := clearTimeout w h in
        set_lock w' {| lock_state := lock_state (lock w');
                       lock_publishedState := lock_publishedState (lock w');
                       unlockTimeout := None |}
    | None => w
    end in
  let w2 := set_lock w1 {| lock_state := "UNLOCKED";
                           lock_publishedState := lock_publishedState (lock w1);
                           unlockTimeout := unlockTimeout (lock w1) |} in
  let w3 := publishLockState w2 false in
  let (w4, h) := setTimeout w3 RevertLock 5000 in
  set_lock w4 {| lock_state := lock_state (lock w4);
                 lock_publishedState := lock_publishedState (lock w4);
                 unlockTimeout := Some h |}.

(** The body of a timeout closure. *)
Definition runCallback (w : intercom) (cb : callback) : intercom :=
  match cb with
  | RevertDing =>
      let w1 := set_ding w {| ding_state := "OFF";
                              ding_publishedState := ding_publishedState (ding w);
                              ding_timeout := ding_timeout (ding w) |} in
      let w2 := publishDingState w1 false in
      set_ding w2 {| ding_state := ding_state (ding w2);
                     ding_publishedState := ding_publishedState (ding w2);
                     ding_timeout := None |}
  | RevertLock =>
      let w1 := set_lock w {| lock_state := "LOCKED";
                              lock_publishedState := lock_publishedState (lock w);
                              unlockTimeout := unlockTimeout (lock w) |} in
      let w2 := publishLockState w1 false in
      set_lock w2 {| lock_state := lock_state (lock w2);
                     lock_publishedState := lock_publishedState (lock w2);
                     unlockTimeout := None |}
  end.

(** A pending timeout expires: it leaves the timer table and its closure runs. *)
Definition fire (w : intercom) (h : nat) : intercom :=
  match timers w !! h with
  | Some t => runCallback (clearTimeout w h) (action t)
  | None => w
  end.

Section Commands.

(** [String.prototype.toLowerCase] is the engine's; the wrapper is modelled
    for any such function. *)
Variable toLowerCase : string -> string.

(** [setLockState(message)]; [unlocked] tells whether the vendor call
    [device.unlock()] succeeds. In the [lock] branch the source compares the
    state with ['LOCKED'] and drops the result, so the state stays as it is.
    Of the two debug lines of a failed unlock the first, [this.debug(error)],
    prints the vendor's error and is left out. *)
Definition setLockState (w : intercom) (message : string) (unlocked : bool) : intercom :=
  let command := toLowerCase message in
  if String.eqb command "lock" then
    if String.eqb (lock_state (lock w)) "UNLOCKED" then
      publishLockState (emit w (Debug "Received lock door command, setting locked state")) false
    else emit w (Debug "Received lock door command, but door is already locked")
  else if String.eqb command "unlock" then
    let w1 := emit w (Debug "Received unlock door command, sending unlock command to intercom") in
    if unlocked then
      setDoorUnlocked (emit w1 (Debug "Request to unlock door was successful"))
    else emit w1 (Debug "Request to unlock door failed")
  else emit w (Debug "Received invalid command for lock").

Definition processCommand (w : intercom) (command message : string) (unlocked : bool)
  : intercom :=
  if String.eqb command "lock/command" then setLockState w message unlocked
  else emit w (Debug ("Received message to unknown command topic: " +:+ command)).

(** What can happen to a wrapper. *)
Inductive event :=
| OnUnlocked                                   (* device.onUnlocked fires *)
| OnDing                                       (* device.onDing fires *)
| PublishState (data : option string) (now : Z)
| Command (command message : string) (unlocked : bool)
| Fire (h : nat).                              (* the timeout [h] expires *)

Definition step (w : intercom) (e : event) : intercom :=
  match e with
  | OnUnlocked => setDoorUnlocked w
  | OnDing => processDing w
  | PublishState data now => publishState w data now
  | Command command message unlocked => processCommand w command message unlocked
  | Fire h => fire w h
  end.

Definition run (w : intercom) (es : list event) : intercom :=
  List.fold_left step es w.

End Commands.

(** Lower-casing of the ASCII letters, for the examples. *)
Definition lowerAscii (c : Ascii.ascii) : Ascii.ascii :=
  let n := Ascii.nat_of_ascii c in
  if (65 <=? n)%nat && (n <=? 90)%nat then Ascii.ascii_of_nat (n + 32) else c.

Fixpoint asciiLowerCase (s : string) : string :=
  match s with
  | EmptyString => EmptyString
  | String c rest => String (lowerAscii c) (asciiLowerCase rest)
  end.

(** *** Vocabulary of the specification *)

Definition lockTimer : timer := {| delay := 5000; action := RevertLock |}.
Definition dingTimer : timer := {| delay := 15000; action := RevertDing |}.

(** The handle an entity keeps for its pending auto-revert. *)
Definition handleOf (w : intercom) (cb : callback) : option nat :=
  match cb with
  | RevertLock => unlockTimeout (lock w)
  | RevertDing => ding_timeout (ding w)
  end.

Definition timerOf (cb : callback) : timer :=
  match cb with
  | RevertLock => lockTimer
  | RevertDing => dingTimer
  end.

(** Every pending timeout is the one its entity holds the handle of, and
    every handle an entity holds is of a pending timeout of that entity. *)
Definition timersOwned (w : intercom) : Prop :=
  (forall h t, timers w !! h = Some t ->
               (h < nextTimer w)%nat /\ handleOf w (action t) = Some h) /\
  (forall cb h, handleOf w cb = Some h -> timers w !! h = Some (timerOf cb)).

(** At most one timeout is pending per entity. *)
Definition onePendingPerEntity (w : intercom) : Prop :=
  forall h1 h2 t1 t2,
    timers w !! h1 = Some t1 -> timers w !! h2 = Some t2 ->
    action t1 = action t2 -> h1 = h2.

(** Whether an event leaves the pending unlock [h] alone: it is neither a
    new unlock nor the expiry of [h]. *)
Definition keepsUnlock (toLowerCase : string -> string) (h : nat) (e : event) : bool :=
  match e with
  | OnUnlocked => false
  | OnDing => true
  | PublishState _ _ => true
  | Command command message unlocked =>
      negb (String.eqb command "lock/command" &&
            String.eqb (toLowerCase message) "unlock" && unlocked)
  | Fire h' => negb (Nat.eqb h' h)
  end.

(** [frame w w']: the timer table, the handles and the states agree. *)
Definition frame (w w' : intercom) : Prop :=
  timers w' = timers w /\ nextTimer w' = nextTimer w /\
  unlockTimeout (lock w') = unlockTimeout (lock w) /\
  ding_timeout (ding w') = ding_timeout (ding w) /\
  lock_state (lock w') = lock_state (lock w) /\
  ding_state (ding w') = ding_state (ding w).

(** The door is unlocked and [h] is the pending timeout that will lock it. *)
Definition unlockedPending (h : nat) (w : intercom) : Prop :=
  timersOwned w /\
  unlockTimeout (lock w) = Some h /\
  lock_state (lock w) = "UNLOCKED" /\
  lock_publishedState (lock w) = Some "UNLOCKED".

End Intercom.

(** ** Topic construction (src/devices/beam.js, src/devices/contact-sensor.js) *)

Module Topics.

(** The topic scheme of the external interface, as the specification words
    it: the discovery topic and the three per-entity topics. *)
Definition configTopicScheme (component locationId deviceId : string) : string :=
  "homeassistant/" +:+ component +:+ "/" +:+ locationId +:+ "/" +:+ deviceId +:+ "/config".

Definition deviceTopicScheme (alarmTopicRoot component deviceId : string) : string :=
  alarmTopicRoot +:+ "/" +:+ component +:+ "/" +:+ deviceId.

Definition stateTopicScheme (alarmTopicRoot component deviceId entity : string) : string :=
  deviceTopicScheme alarmTopicRoot component deviceId +:+ "/" +:+ entity +:+ "_state".

Definition attributesTopicScheme (alarmTopicRoot component deviceId : string) : string :=
  deviceTopicScheme alarmTopicRoot component deviceId +:+ "/attributes".

Definition statusTopicScheme (alarmTopicRoot component deviceId : string) : string :=
  deviceTopicScheme alarmTopicRoot component deviceId +:+ "/status".

(** String concatenation with a value that may be [undefined]. *)
Definition str (o : option string) : string :=
  match o with
  | Some s => s
  | None => "undefined"
  end.

(** *** Beam *)

(** The fields of a Beam wrapper: those the base class has set before
    [init] runs, and those [init] assigns ([None]: not assigned). *)
Record beam := {
  alarmTopic : string;
  deviceId : string;
  locationId : string;
  component : option string;
  availabilityTopic : option string;
  data_deviceType : string;          (* this.device.data.deviceType *)
  data_groupId : jsval;              (* this.device.data.groupId *)
  isLightGroup : bool;
  groupId : jsval;
  deviceTopic_motion : option string;
  stateTopic_motion : option string;
  attributesTopic_motion : option string;
  configTopic_motion : option string;
  deviceTopic_light : option string;
  stateTopic_light : option string;
  commandTopic_light : option string;
  attributesTopic_light : option string;
  configTopic_light : option string;
  stateTopic_brightness : option string;
  commandTopic_brightness : option string;
  configTopic : option string }.

(** A wrapper as the base class leaves it. *)
Definition newBeam (alarmTopic deviceId locationId : string) (component : option string)
           (deviceType : string) (groupId : jsval) : beam :=
  {| alarmTopic := alarmTopic; deviceId := deviceId; locationId := locationId;
     component := component; availabilityTopic := None;
     data_deviceType := deviceType; data_groupId := groupId;
     isLightGroup := false; groupId := JUndef;
     deviceTopic_motion := None; stateTopic_motion := None;
     attributesTopic_motion := None; configTopic_motion := None;
     deviceTopic_light := None; stateTopic_light := None;
     commandTopic_light := None; attributesTopic_light := None;
     configTopic_light := None;
     stateTopic_brightness := None; commandTopic_brightness := None;
     configTopic := None |}.

(** The outcome of running [init]: the global object, the wrapper, and the
    error that ended the run, if any. [init] names two variables that are
    declared nowhere, [availabilityTopic] and [deviceType]. A class body is
    strict code: assigning to such a name, or reading it, throws a
    [ReferenceError] unless the global object has a property of that name. *)
Record initResult := {
  globals : gmap string string;
  this : beam;
  error : option jsError }.

(** [Beam.init], its topic-building part: from the first statement to the
    assignment of [this.configTopic]. *)
Definition init (g : gmap string string) (b : beam) : initResult :=
  match g !! "availabilityTopic" with
  | None =>
      {| globals := g; this := b;
         error := Some (ReferenceError "availabilityTopic is not defined") |}
  | Some _ =>
  let g1 := <["availabilityTopic" := alarmTopic b +:+ "/beam/" +:+ deviceId b +:+ "/status"]> g in
  let lightGroup := String.eqb (data_deviceType b) "group.light-group.beams" in
  let isLightGroup1 := if lightGroup then true else isLightGroup b in
  let groupId1 := if lightGroup then data_groupId b else groupId b in
  let result deviceTopic_motion' stateTopic_motion' attributesTopic_motion' configTopic_motion'
             deviceTopic_light' stateTopic_light' commandTopic_light' attributesTopic_light'
             configTopic_light' stateTopic_brightness' commandTopic_brightness' configTopic' :=
    {| alarmTopic := alarmTopic b; deviceId := deviceId b; locationId := locationId b;
       component := component b; availabilityTopic := availabilityTopic b;
       data_deviceType := data_deviceType b; data_groupId := data_groupId b;
       isLightGroup := isLightGroup1; groupId := groupId1;
       deviceTopic_motion := deviceTopic_motion'; stateTopic_motion := stateTopic_motion';
       attributesTopic_motion := attributesTopic_motion';
       configTopic_motion := configTopic_motion';
       deviceTopic_light := deviceTopic_light'; stateTopic_light := stateTopic_light';
       commandTopic_light := commandTopic_light';
       attributesTopic_light := attributesTopic_light';
       configTopic_light := configTopic_light';
       stateTopic_brightness := stateTopic_brightness';
       commandTopic_brightness := commandTopic_brightness';
       configTopic := configTopic' |} in
  match g1 !! "deviceType" with
  | None =>
      {| globals := g1;
         this := result (deviceTopic_motion b) (stateTopic_motion b) (attributesTopic_motion b)
                        (configTopic_motion b) (deviceTopic_light b) (stateTopic_light b)
                        (commandTopic_light b) (attributesTopic_light b) (configTopic_light b)
                        (stateTopic_brightness b) (commandTopic_brightness b) (configTopic b);
         error := Some (ReferenceError "deviceType is not defined") |}
  | Some deviceType =>
      let motion := negb (String.eqb deviceType "switch.transformer.beams") in
      let light := negb (String.eqb deviceType "motion-sensor.beams") in
      let brightness := String.eqb deviceType "switch.multilevel.beams" in
      let deviceTopic_motion1 :=
        if motion then Some (alarmTopic b +:+ "/binary_sensor/" +:+ deviceId b)
        else deviceTopic_motion b in
      let deviceTopic_light1 :=
        if light then Some (alarmTopic b +:+ "/light/" +:+ deviceId b)
        else deviceTopic_light b in
      {| globals := g1;
         this :=
           result
             deviceTopic_motion1
             (if motion then Some (str deviceTopic_motion1 +:+ "/motion_state")
              else stateTopic_motion b)
             (if motion then Some (str deviceTopic_motion1 +:+ "/attributes")
              else attributesTopic_motion b)
             (if motion
              then Some ("homeassistant/binary_sensor/" +:+ locationId b +:+ "/" +:+ deviceId b +:+ "/config")
              else configTopic_motion b)
             deviceTopic_light1
             (if light then Some (str deviceTopic_light1 +:+ "switch_state")
              else stateTopic_light b)
             (if light then Some (str deviceTopic_light1 +:+ "switch_command")
              else commandTopic_light b)
             (if light then Some (str deviceTopic_light1 +:+ "/attributes")
              else attributesTopic_light b)
             (if light
              then Some ("homeassistant/light/" +:+ locationId b +:+ "/" +:+ deviceId b +:+ "/config")
              else configTopic_light b)
             (if brightness then Some (str deviceTopic_light1 +:+ "brightness_state")
              else stateTopic_brightness b)
             (if brightness then Some (str deviceTopic_light1 +:+ "brightness_command")
              else commandTopic_brightness b)
             (Some ("homeassistant/" +:+ str (component b) +:+ "/" +:+ locationId b +:+ "/"
                    +:+ deviceId b +:+ "/config"));
         error := None |}
  end
  end.

(** *** ContactSensor *)

Record contactSensor := {
  cs_alarmTopic : string;
  cs_deviceId : string;
  cs_locationId : string;
  cs_deviceType : string;            (* this.device.deviceType *)
  cs_subCategoryIs2 : bool;          (* this.device.data.subCategoryId == 2 *)
  cs_component : option string;
  className : option string;
  sensorType : option string;
  mdl : option string;               (* this.deviceData.mdl *)
  deviceTopic : option string;
  stateTopic : option string;
  attributesTopic : option string;
  cs_availabilityTopic : option string;
  cs_configTopic : option string }.

(** [ContactSensor.init], up to the assignment of [this.configTopic]. *)
Definition contactSensorInit (c : contactSensor) : contactSensor :=
  let component := "binary_sensor" in
  let zone := String.eqb (cs_deviceType c) "sensor.zone" in
  let className' := if zone then "safety" else if cs_subCategoryIs2 c then "window" else "door" in
  let sensorType' := if zone then "zone" else "contact" in
  let mdl' := if zone then "Retrofit Zone" else "Contact Sensor" in
  let deviceTopic' := cs_alarmTopic c +:+ "/" +:+ component +:+ "/" +:+ cs_deviceId c in
  {| cs_alarmTopic := cs_alarmTopic c; cs_deviceId := cs_deviceId c;
     cs_locationId := cs_locationId c; cs_deviceType := cs_deviceType c;
     cs_subCategoryIs2 := cs_subCategoryIs2 c;
     cs_component := Some component;
     className := Some className';
     sensorType := Some sensorType';
     mdl := Some mdl';
     deviceTopic := Some deviceTopic';
     stateTopic := Some (deviceTopic' +:+ "/" +:+ sensorType' +:+ "_state");
     attributesTopic := Some (deviceTopic' +:+ "/attributes");
     cs_availabilityTopic := Some (deviceTopic' +:+ "/status");
     cs_configTopic :=
       Some ("homeassistant/" +:+ component +:+ "/" +:+ cs_locationId c +:+ "/"
             +:+ cs_deviceId c +:+ "/config") |}.

End Topics.

(** ** The media bridge supervisor (src/lib/mediamtx.js) *)

Module MediaMTX.

(** The values [this.started] takes: [false], [true] and ['shutdown']. *)
Inductive startedFlag := StartedFalse | StartedTrue | StartedShutdown.

#[global] Instance startedFlag_eq_dec : EqDecision startedFlag.
Proof. solve_decision. Defined.

(** A handler or [init] itself, suspended at an [await]. *)
Inductive task :=
| WriteConfig      (* init(cameras) at [await writeFileAtomic(...)] *)
| CloseSleep       (* the close handler at [await utils.sleep(1)] *)
| RestartSleep.    (* the close handler at [await utils.sleep(5)] *)

(** What the supervisor does to the outside, in order. Processes are named
    by the order in which they were spawned. *)
Inductive output :=
| Spawn (p : nat)
| Kill (p : nat) (signal : option Z)      (* kill() or kill(9) *)
| ConfigWritten
| Unexpected                              (* 'exited unexpectedly, will restart' *)
| Uncaught (e : jsError).

Record mediaMTX := {
  started : startedFlag;
  mediamtxProcess : option nat;   (* None: false *)
  spawned : nat;                  (* number of processes spawned so far *)
  listening : gset nat;           (* processes whose close event is still to come *)
  tasks : list task;
  out : list output }.

(** The state the constructor leaves. *)
Definition initial : mediaMTX :=
  {| started := StartedFalse; mediamtxProcess := None; spawned := 0%nat;
     listening := ∅; tasks := []; out := [] |}.

Definition suspend (t : task) (m : mediaMTX) : mediaMTX :=
  {| started := started m; mediamtxProcess := mediamtxProcess m;
     spawned := spawned m; listening := listening m;
     tasks := tasks m ++ [t]; out := out m |}.

Definition emit (o : output) (m : mediaMTX) : mediaMTX :=
  {| started := started m; mediamtxProcess := mediamtxProcess m;
     spawned := spawned m; listening := listening m;
     tasks := tasks m; out := out m ++ [o] |}.

(** [init] from [spawn(...)] on: the new process becomes
    [this.mediamtxProcess] and gets its handlers. *)
Definition spawnProcess (m : mediaMTX) : mediaMTX :=
  {| started := started m;
     mediamtxProcess := Some (spawned m);
     spawned := S (spawned m);
     listening := {[ spawned m ]} ∪ listening m;
     tasks := tasks m;
     out := out m ++ [Spawn (spawned m)] |}.

(** [init(cameras)]; [cameras] tells whether the argument is given. *)
Definition init (m : mediaMTX) (cameras : bool) : mediaMTX :=
  let m1 := {| started := StartedTrue; mediamtxProcess := mediamtxProcess m;
               spawned := spawned m; listening := listening m;
               tasks := tasks m; out := out m |} in
  if cameras then suspend WriteConfig m1 else spawnProcess m1.

Definition shutdown (m : mediaMTX) : mediaMTX :=
  let m1 := {| started := StartedShutdown; mediamtxProcess := mediamtxProcess m;
               spawned := spawned m; listening := listening m;
               tasks := tasks m; out := out m |} in
  match mediamtxProcess m1 with
  | Some p =>
      {| started := started m1; mediamtxProcess := None;
         spawned := spawned m1; listening := listening m1;
         tasks := tasks m1; out := out m1 ++ [Kill p None] |}
  | None => m1
  end.

(** The rest of a suspended activation. *)
Definition resume (t : task) (m : mediaMTX) : mediaMTX :=
  match t with
  | WriteConfig => spawnProcess (emit ConfigWritten m)
  | CloseSleep =>
      if decide (started m = StartedShutdown) then m
      else
        let m1 := emit Unexpected m in
        match mediamtxProcess m1 with
        | Some p => suspend RestartSleep (emit (Kill p (Some 9)) m1)
        | None => emit (Uncaught (TypeError "this.mediamtxProcess.kill is not a function")) m1
        end
  | RestartSleep => init m false
  end.

Inductive event :=
| Init (cameras : bool)     (* a call of init *)
| Shutdown                  (* a call of shutdown *)
| Close (p : nat)           (* the process [p] has exited: its close event *)
| Wake (i : nat).           (* the wait of the [i]-th suspended activation is over *)

Definition step (m : mediaMTX) (e : event) : mediaMTX :=
  match e with
  | Init cameras => init m cameras
  | Shutdown => shutdown m
  | Close p =>
      if decide (p ∈ listening m) then
        suspend CloseSleep
          {| started := started m; mediamtxProcess := mediamtxProcess m;
             spawned := spawned m; listening := listening m ∖ {[ p ]};
             tasks := tasks m; out := out m |}
      else m
  | Wake i =>
      match tasks m !! i with
      | Some t =>
          resume t {| started := started m; mediamtxProcess := mediamtxProcess m;
                      spawned := spawned m; listening := listening m;
                      tasks := delete i (tasks m); out := out m |}
      | None => m
      end
  end.

Definition run (m : mediaMTX) (es : list event) : mediaMTX :=
  List.fold_left step es m.

(** The argument of the [utils.sleep] a task is suspended at, in seconds;
    the wait for [writeFileAtomic] is no sleep. *)
Definition sleepSeconds (t : task) : option Z :=
  match t with
  | WriteConfig => None
  | CloseSleep => Some 1
  | RestartSleep => Some 5
  end.

End MediaMTX.

(** ** The saved-state file (src/lib/state.js, class [State]) *)

Module State.

(** Parsed JSON. An object lists its properties in insertion order; its
    keys are pairwise distinct, and a key is looked up from the front. The
    code computes with no number, so integers stand for all of them. *)
#[warnings="-register-all"]
Inductive json :=
| JNull
| JBool (b : bool)
| JNumber (n : Z)
| JString (s : string)
| JArray (elements : list json)
| JObject (own : list (string * json)).

Definition props := list (string * json).

Fixpoint getOwn (k : string) (p : props) : option json :=
  match p with
  | [] => None
  | (k', v) :: rest => if String.eqb k' k then Some v else getOwn k rest
  end.

(** [obj[k] = v] on own data properties: an existing key keeps its place. *)
Fixpoint setOwn (k : string) (v : json) (p : props) : props :=
  match p with
  | [] => [(k, v)]
  | (k', v') :: rest =>
      if String.eqb k' k then (k', v) :: rest else (k', v') :: setOwn k v rest
  end.

(** The value [this.data] holds. An array can carry named properties next
    to its elements. *)
Inductive value :=
| VNull
| VPrimitive (j : json)                          (* a boolean, number or string *)
| VArray (elements : list json) (named : props)
| VObject (own : props).

(** What [require] makes of the JSON text of [j]. *)
Definition parsed (j : json) : value :=
  match j with
  | JNull => VNull
  | JArray elements => VArray elements []
  | JObject own => VObject own
  | _ => VPrimitive j
  end.

(** [JSON.stringify(v, null, 2)], as the JSON its text stands for: the named
    properties of an array are left out. *)
Definition stringify (v : value) : json :=
  match v with
  | VNull => JNull
  | VPrimitive j => j
  | VArray elements _ => JArray elements
  | VObject own => JObject own
  end.

(** A file on disk: JSON text, or something [require] cannot load. *)
Inductive content :=
| Garbage
| JsonText (j : json).

(** The global binding [err] that the [catch] block of [loadStateData]
    names: the block declares no parameter. *)
Inductive errBinding :=
| Unbound
| BoundUndefined
| BoundNull
| BoundValue (message : jsval).       (* the value of its [message] property *)

Inductive output :=
| Debug (line : string)
| DebugYellow (line : string)         (* through [colors.brightYellow] *)
| DebugValue (v : jsval)
| DebugErrorMessage                   (* [err.message] of a failed write *)
| UpdateConfig.                       (* [this.config.updateConfig()], taken to return *)

(** The [State] object together with what it reaches in its process.
    [alias] is the path of the module whose exports object [this.data] is, and
    [moduleCache] holds the exports of the other modules [require] has loaded. *)
Record process := {
  valid : bool;
  data : value;
  alias : option string;
  config : option string;              (* [this.config.runMode]; None: no config yet *)
  file : option string;                (* None: undefined *)
  files : gmap string content;
  moduleCache : gmap string value;
  errGlobal : errBinding;
  mainDir : string;                    (* dirname(require.main.filename) *)
  out : list output }.

(** A new process after [new State()]. *)
Definition create (disk : gmap string content) (e : errBinding) (dir : string) : process :=
  {| valid := false;
     data := VObject [("ring_token", JString ""); ("systemId", JString "");
                      ("devices", JArray [])];
     alias := None; config := None; file := None;
     files := disk; moduleCache := ∅; errGlobal := e; mainDir := dir; out := [] |}.

Definition emit (o : output) (p : process) : process :=
  {| valid := valid p; data := data p; alias := alias p; config := config p;
     file := file p; files := files p; moduleCache := moduleCache p;
     errGlobal := errGlobal p; mainDir := mainDir p; out := out p ++ [o] |}.

Definition set_data (v : value) (p : process) : process :=
  {| valid := valid p; data := v; alias := alias p; config := config p;
     file := file p; files := files p; moduleCache := moduleCache p;
     errGlobal := errGlobal p; mainDir := mainDir p; out := out p |}.

Definition set_valid (b : bool) (p : process) : process :=
  {| valid := b; data := data p; alias := alias p; config := config p;
     file := file p; files := files p; moduleCache := moduleCache p;
     errGlobal := errGlobal p; mainDir := mainDir p; out := out p |}.

(** [this.data = require(path)]. The exports of a module are loaded once
    and shared from then on; a failed load caches nothing. [None]: [require]
    throws. *)
Definition requireData (path : string) (c : content) (p : process) : option process :=
  let moveTo v :=
    {| valid := valid p; data := v; alias := Some path; config := config p;
       file := file p; files := files p;
       moduleCache :=
         delete path (match alias p with
                      | Some old => <[old := data p]> (moduleCache p)
                      | None => moduleCache p
                      end);
       errGlobal := errGlobal p; mainDir := mainDir p; out := out p |} in
  if bool_decide (alias p = Some path) then Some p
  else match moduleCache p !! path with
       | Some v => Some (moveTo v)
       | None =>
           match c with
           | Garbage => None
           | JsonText j => Some (moveTo (parsed j))
           end
       end.

(** [this.data.hasOwnProperty('systemId')]. [None]: the call throws. *)
Definition hasOwnSystemId (v : value) : option bool :=
  match v with
  | VNull => None
  | VPrimitive _ => Some false
  | VArray _ named => Some (bool_decide (is_Some (getOwn "systemId" named)))
  | VObject own =>
      match getOwn "hasOwnProperty" own with
      | Some _ => None                 (* an own property that is no function *)
      | None => Some (bool_decide (is_Some (getOwn "systemId" own)))
      end
  end.

(** How a primitive shows in the message of the [TypeError] below. *)
Definition describe (j : json) : string :=
  match j with
  | JString s => "string '" +:+ s +:+ "'"
  | JNumber n => "number '" +:+ pretty n +:+ "'"
  | JBool true => "boolean 'true'"
  | JBool false => "boolean 'false'"
  | _ => ""
  end.

(** [v[k] = x] in strict code. *)
Definition assign (k : string) (x : json) (v : value) : completion value :=
  match v with
  | VNull => Throw (TypeError ("Cannot set properties of null (setting '" +:+ k +:+ "')"))
  | VPrimitive j =>
      Throw (TypeError ("Cannot create property '" +:+ k +:+ "' on " +:+ describe j))
  | VArray elements named => Normal (VArray elements (setOwn k x named))
  | VObject own => Normal (VObject (setOwn k x own))
  end.

(** The [try] block of [loadStateData]. [None]: it throws. The assignments
    made before the throw stay. *)
Definition loadTry (path : string) (c : content) (fresh : string) (p : process)
  : process * bool :=
  match requireData path c p with
  | None => (p, false)
  | Some p1 =>
      let p2 := set_valid true p1 in
      match hasOwnSystemId (data p2) with
      | None => (p2, false)
      | Some true => (p2, true)
      | Some false =>
          match assign "systemId" (JString fresh) (data p2) with
          | Normal v => (set_data v p2, true)
          | Throw _ => (p2, false)
          end
      end
  end.

(** The [catch] block: it reads the global [err]. *)
Definition loadCatch (p : process) : process * option jsError :=
  match errGlobal p with
  | Unbound => (p, Some (ReferenceError "err is not defined"))
  | BoundUndefined =>
      (p, Some (TypeError "Cannot read properties of undefined (reading 'message')"))
  | BoundNull =>
      (p, Some (TypeError "Cannot read properties of null (reading 'message')"))
  | BoundValue m =>
      (emit (Debug "Saved state file exist but could not be parsed!")
            (emit (DebugValue m) p), None)
  end.

(** [loadStateData]; [fresh] is the digest drawn for a missing system id.
    The result is the process after the call and the error the call
    rejected with, if any. *)
Definition loadStateData (fresh : string) (p : process) : process * option jsError :=
  match file p with
  | None =>
      (emit (DebugYellow "File undefined not found. No saved state data available.") p, None)
  | Some path =>
      match files p !! path with
      | Some c =>
          let p1 := emit (Debug ("Reading latest data from state file: " +:+ path)) p in
          match loadTry path c fresh p1 with
          | (p2, true) => (p2, None)
          | (p2, false) => loadCatch p2
          end
      | None =>
          (emit (DebugYellow ("File " +:+ path +:+ " not found. No saved state data available.")) p,
           None)
      end
  end.

Definition stateFile (runMode dir : string) : string :=
  if String.eqb runMode "standard" then dir +:+ "/ring-state.json"
  else "/data/ring-state.json".

(** [init(config)] *)
Definition init (runMode fresh : string) (p : process) : process * option jsError :=
  loadStateData fresh
    {| valid := valid p; data := data p; alias := alias p; config := Some runMode;
       file := Some (stateFile runMode (mainDir p)); files := files p;
       moduleCache := moduleCache p; errGlobal := errGlobal p; mainDir := mainDir p;
       out := out p |}.

Definition truthy (v : jsval) : bool :=
  match v with
  | JUndef => false
  | JStr s => negb (String.eqb s "")
  | JNum n => negb (n =? 0)
  end.

(** [writeFileAtomic(this.file, JSON.stringify(this.data, null, 2))] inside
    its [try]; [writeOk] tells whether the write goes through. A path that is
    [undefined] is refused. *)
Definition saveData (writeOk : bool) (p : process) : process :=
  match file p with
  | Some path =>
      if writeOk then
        emit (Debug ("Successfully saved updated refresh token in state file: " +:+ path))
          {| valid := valid p; data := data p; alias := alias p; config := config p;
             file := file p; files := <[path := JsonText (stringify (data p))]> (files p);
             moduleCache := moduleCache p; errGlobal := errGlobal p; mainDir := mainDir p;
             out := out p |}
      else
        emit DebugErrorMessage
          (emit (Debug ("Failed to save updated refresh token in state file: " +:+ path)) p)
  | None =>
      emit DebugErrorMessage
        (emit (Debug "Failed to save updated refresh token in state file: undefined") p)
  end.

(** [updateToken(newRefreshToken, oldRefreshToken)], from the call to the
    end of the promise it returns. *)
Definition updateToken (newRefreshToken : string) (oldRefreshToken : jsval)
           (writeOk : bool) (p : process) : process * option jsError :=
  if truthy oldRefreshToken then
    match assign "ring_token" (JString newRefreshToken) (data p) with
    | Throw e => (p, Some e)
    | Normal v =>
        let p1 := saveData writeOk (set_data v p) in
        match config p1 with
        | None =>
            (p1, Some (TypeError "Cannot read properties of undefined (reading 'runMode')"))
        | Some runMode =>
            if String.eqb runMode "standard" then (emit UpdateConfig p1, None)
            else (p1, None)
        end
    end
  else (p, None).

(** *** Vocabulary *)

(** An object that [loadStateData] accepts as state data. *)
Definition plainObject (own : props) : Prop := getOwn "hasOwnProperty" own = None.

(** The process has loaded nothing from [path] yet. *)
Definition unloaded (path : string) (p : process) : Prop :=
  alias p <> Some path /\ moduleCache p !! path = None.

(** The state data [loadStateData] ends with for the object [own]. *)
Definition withSystemId (fresh : string) (own : props) : props :=
  match getOwn "systemId" own with
  | Some _ => own
  | None => setOwn "systemId" (JString fresh) own
  end.

(** [init] up to the [try] block, when the state file exists. *)
Definition entered (runMode : string) (p : process) : process :=
  emit (Debug ("Reading latest data from state file: " +:+ stateFile runMode (mainDir p)))
    {| valid := valid p; data := data p; alias := alias p; config := Some runMode;
       file := Some (stateFile runMode (mainDir p)); files := files p;
       moduleCache := moduleCache p; errGlobal := errGlobal p; mainDir := mainDir p;
       out := out p |}.

(** Whether [loadStateData] gets through its [try] block on a file. *)
Definition accepted (c : content) : bool :=
  match c with
  | JsonText (JObject own) => bool_decide (getOwn "hasOwnProperty" own = None)
  | JsonText (JArray _) => true
  | _ => false
  end.

(** The same process over another disk. *)
Definition withFiles (disk : gmap string content) (p : process) : process :=
  {| valid := valid p; data := data p; alias := alias p; config := config p;
     file := file p; files := disk; moduleCache := moduleCache p;
     errGlobal := errGlobal p; mainDir := mainDir p; out := out p |}.


(** The own properties a state value shows. *)
Definition named (v : value) : props :=
  match v with
  | VObject own => own
  | VArray _ n => n
  | _ => []
  end.


End State.


(** ** Further vocabulary for the device mapper *)

Module MapperTerms.
Import Mapper.

(** Whether [processDevices] appends a mapping result to the registry. *)
Definition registers (m : mapped) : bool :=
  negb (isStr m "not-supported") && (truthy m && negb (isStr m "ignore")).

(** A device is settled in a registry when discovery has nothing left to do
    for it: its identifier is registered, or the mapper's verdict for it is
    one that is not registered. *)
Definition settled (T : RingDeviceType.t) (allDevices : list ringDevice)
           (events : list event) (registry : list mapped) (d : ringDevice) : Prop :=
  (exists e, List.find (fun r => strictEq (deviceId r) (getDeviceId d)) registry = Some e) \/
  (exists m, mapDevice T d allDevices events = Normal m /\ registers m = false).

(** The device type of a table-mapped device is no member name of
    [Object.prototype]. *)
Definition plainType (d : ringDevice) : Prop :=
  dev_class d = RingDevice -> inObjectPrototype (dev_deviceType d) = false.

(** The three verdicts of the mapper's contract. *)
Definition verdict (m : mapped) : Prop :=
  isInstance m = true \/ m = Ignore \/ m = NotSupported.

(** The tags the security panel lists as bypass capable. *)
Definition bypassableTypes (T : RingDeviceType.t) : list string :=
  [ RingDeviceType.ContactSensor T; RingDeviceType.RetrofitZone T;
    RingDeviceType.MotionSensor T; RingDeviceType.TiltSensor T;
    RingDeviceType.GlassbreakSensor T ].

(** The list [processDevices] iterates over. *)
Definition allDevicesOf (enable_modes : bool) (loc : location)
           (devs cameras chimes intercoms : list ringDevice) : list ringDevice :=
  (devs ++ cameras ++ chimes ++ intercoms) ++
  (if enable_modes && supportsLocationModeSwitching loc then [modeDevice loc] else []).


(** A registry entry without the event history a camera wrapper was given. *)
Definition stripEvents (m : mapped) : mapped :=
  match m with
  | Instance c info _ => Instance c info None
  | _ => m
  end.

(** Two registries that differ in event histories only. *)
Definition alike (st st' : discovery) : Prop :=
  List.map stripEvents (devices st) = List.map stripEvents (devices st') /\
  unsupportedDevices st = unsupportedDevices st'.

(** The cameras of a list have an [id]. *)
Definition camerasHaveId (l : list ringDevice) : Prop :=
  Forall (fun d => dev_class d = RingCamera -> dev_id d <> JUndef) l.

End MapperTerms.

(** ** Further vocabulary for the republish cycle *)

Module RepublishTerms.
Import Republish.

Definition isDevicePublish (o : output) : bool :=
  match o with
  | DevicePublish _ _ => true
  | DeviceOffline _ => false
  end.

(** The [device.publish] calls made so far. *)
Definition devicePublishes (st : ringMqtt) : list output :=
  List.filter isDevicePublish (out st).

(** The counter is used up and no Home Assistant restart is being handled. *)
Definition exhausted (st : ringMqtt) : Prop :=
  republishCount st <= 0 /\ Forall (fun t => t <> RestartSleep) (tasks st).

(** Every event but a Home Assistant "online" message. *)
Definition notOnline (e : event) : bool :=
  match e with
  | HaStatus message => negb (String.eqb message "online")
  | _ => true
  end.

(** [calm st st']: nothing was published, counter, connection and devices
    are as before, and the only activations added are grace-period waits. *)
Definition calm (st st' : ringMqtt) : Prop :=
  republishCount st' = republishCount st /\
  mqttConnected st' = mqttConnected st /\
  devices st' = devices st /\
  out st' = out st /\
  exists waits, tasks st' = tasks st ++ waits /\
                Forall (fun t => exists loc, t = DisconnectSleep loc) waits.

Definition setOnConnected (connected : bool) (l : location) : location :=
  {| locationId := locationId l; hasHubs := hasHubs l;
     isSubscribed := isSubscribed l; isConnected := isConnected l;
     onConnected := connected |}.

(** The [offline()] calls a disconnect of [loc] makes. *)
Definition offlineCalls (st : ringMqtt) (loc : string) : list output :=
  List.map (fun d => DeviceOffline (deviceId d))
    (List.filter (fun d => String.eqb (deviceLocation d) loc && negb (camera d)) (devices st)).

End RepublishTerms.

(** ** Further vocabulary for the intercom wrapper *)

Module IntercomTerms.
Import Intercom.

(** The message of the last [mqttPublish] call on a topic, if there was one. *)
Fixpoint lastOn (topic : string) (o : list output) : option payload :=
  match o with
  | [] => None
  | x :: rest =>
      match lastOn topic rest with
      | Some m => Some m
      | None =>
          match x with
          | MqttPublish t m _ => if String.eqb t topic then Some m else None
          | _ => None
          end
      end
  end.

Definition distinctTopics (t : entityTopics) : Prop :=
  lock_state_topic t <> ding_state_topic t /\
  info_state_topic t <> lock_state_topic t /\
  info_state_topic t <> ding_state_topic t.

(** The lock entity is at rest (LOCKED, no timeout held) or inside an unlock
    (UNLOCKED, published, timeout held). *)
Definition lockSettled (w : intercom) : Prop :=
  match unlockTimeout (lock w) with
  | Some _ => lock_state (lock w) = "UNLOCKED" /\
              lock_publishedState (lock w) = Some "UNLOCKED"
  | None => lock_state (lock w) = "LOCKED" /\
            (lock_publishedState (lock w) = None \/
             lock_publishedState (lock w) = Some "LOCKED")
  end.

Definition dingSettled (w : intercom) : Prop :=
  match ding_timeout (ding w) with
  | Some _ => ding_state (ding w) = "ON" /\
              ding_publishedState (ding w) = Some "ON"
  | None => ding_state (ding w) = "OFF" /\
            (ding_publishedState (ding w) = None \/
             ding_publishedState (ding w) = Some "OFF")
  end.

(** The [publishedState] caches hold what was last handed to [mqttPublish]
    on the state topics. *)
Definition synced (w : intercom) : Prop :=
  lastOn (lock_state_topic (entity w)) (out w) =
    option_map Text (lock_publishedState (lock w)) /\
  lastOn (ding_state_topic (entity w)) (out w) =
    option_map Text (ding_publishedState (ding w)).

Definition tidy (w : intercom) : Prop :=
  distinctTopics (entity w) /\ lockSettled w /\ dingSettled w /\ synced w.

(** [sameView w w']: topics, caches and output agree. *)
Definition sameView (w w' : intercom) : Prop :=
  entity w' = entity w /\
  lock_publishedState (lock w') = lock_publishedState (lock w) /\
  ding_publishedState (ding w') = ding_publishedState (ding w) /\
  out w' = out w.

(** A command that reaches [setDoorUnlocked]. *)
Definition opensDoor (toLowerCase : string -> string)
           (command message : string) (unlocked : bool) : bool :=
  String.eqb command "lock/command" && String.eqb (toLowerCase message) "unlock" && unlocked.

End IntercomTerms.


(** ** Further vocabulary for the media server supervisor *)

Module MediaMTXTerms.
Import MediaMTX.

Definition isInit (e : event) : bool :=
  match e with
  | Init _ => true
  | _ => false
  end.

(** The supervisor is shut down and nothing but close handlers in their
    first wait is in flight. *)
Definition stopped (m : mediaMTX) : Prop :=
  started m = StartedShutdown /\ mediamtxProcess m = None /\
  Forall (fun t => t = CloseSleep) (tasks m).

(** The process [p] runs under supervision: it is the current process, its
    close handler is installed and no activation is in flight. *)
Definition supervised (m : mediaMTX) (p : nat) : Prop :=
  started m = StartedTrue /\ mediamtxProcess m = Some p /\
  p ∈ listening m /\ tasks m = [].

End MediaMTXTerms.


(** ** Concrete inputs used by the examples below *)

Module Examples.
Import Mapper.

Definition plainDevice (id deviceType : string) (parent : option jsval) : ringDevice :=
  {| dev_class := RingDevice; dev_id := JStr id; dev_deviceType := deviceType;
     dev_data := {| parentZid := parent; device_id := JUndef |};
     dev_categoryId := JUndef; dev_tags := None |}.

(** A temperature sensor whose parent is not in the device list. *)
Definition orphanSensor : ringDevice :=
  plainDevice "t1" "sensor.temperature" (Some (JStr "gone")).

(** A thermostat and the temperature sensor it contains. *)
Definition thermostat : ringDevice :=
  plainDevice "th1" "temperature-control.thermostat" None.

Definition thermostatSensor : ringDevice :=
  plainDevice "t2" "sensor.temperature" (Some (JStr "th1")).

(** A lighting bridge and a light attached to it. *)
Definition bridge : ringDevice := plainDevice "br1" "adapter.ringnet" None.

Definition light : ringDevice :=
  plainDevice "l1" "switch.multilevel.beams" (Some (JStr "br1")).

Definition smartLock : ringDevice := plainDevice "k1" "lock.zwave" None.

Definition unknownDevice : ringDevice := plainDevice "u1" "sprinkler" None.

Definition accessCode : ringDevice := plainDevice "a1" "access-code" None.

Definition home : location :=
  {| locationId := "loc1"; supportsLocationModeSwitching := false |}.

(** One location without hub and one device in it. *)
Definition flat : Republish.location :=
  {| Republish.locationId := "loc1"; Republish.hasHubs := false;
     Republish.isSubscribed := false; Republish.isConnected := false;
     Republish.onConnected := false |}.

Definition doorbell : Republish.wrapper :=
  {| Republish.deviceId := "d1"; Republish.deviceLocation := "loc1";
     Republish.camera := true |}.

(** The controller after its first MQTT connection and discovery: the
    first republish cycle has published and is asleep. *)
Definition firstCycle : Republish.ringMqtt :=
  Republish.run Republish.initial
    [ Republish.MqttState "connected"; Republish.RingDataReady 0 [flat] [doorbell] ].

(** A dimmable light of the lighting system, before [init]. *)
Definition dimmer : Topics.beam :=
  Topics.newBeam "ring/loc1/alarm" "dev1" "loc1" None "switch.multilevel.beams" JUndef.

(** The global object with nothing of the bridge in it, and one in which
    the two names [init] relies on happen to be bound, [deviceType] to the
    type of [dimmer]. *)
Definition noGlobals : gmap string string := ∅.

Definition boundGlobals : gmap string string :=
  <["availabilityTopic" := "none"]> {[ "deviceType" := "switch.multilevel.beams" ]}.

Definition frontDoor : Topics.contactSensor :=
  {| Topics.cs_alarmTopic := "ring/loc1/alarm"; Topics.cs_deviceId := "dev2";
     Topics.cs_locationId := "loc1"; Topics.cs_deviceType := "sensor.contact";
     Topics.cs_subCategoryIs2 := false; Topics.cs_component := None;
     Topics.className := None; Topics.sensorType := None; Topics.mdl := None;
     Topics.deviceTopic := None; Topics.stateTopic := None;
     Topics.attributesTopic := None; Topics.cs_availabilityTopic := None;
     Topics.cs_configTopic := None |}.

Definition handset : Intercom.intercomDevice :=
  {| Intercom.batteryLevel := Some 80; Intercom.has_firemware_version := false;
     Intercom.firmware_version := JUndef |}.

Definition handsetTopics : Intercom.entityTopics :=
  {| Intercom.ding_state_topic := "ring/loc1/intercom/i1/ding/state";
     Intercom.lock_state_topic := "ring/loc1/intercom/i1/lock/state";
     Intercom.info_state_topic := "ring/loc1/intercom/i1/info/state" |}.

(** The media process crashes; the supervisor is shut down while the
    restart is pending; the restarted process exits as well. *)
Definition crashThenShutdown : list MediaMTX.event :=
  [ MediaMTX.Init true;
    MediaMTX.Wake 0;      (* the configuration is written: process 0 is spawned *)
    MediaMTX.Close 0;     (* process 0 exits *)
    MediaMTX.Wake 0;      (* 1 s later: kill(9), restart in 5 s *)
    MediaMTX.Shutdown;    (* shutdown() within those 5 s *)
    MediaMTX.Wake 0;      (* the 5 s are over: init() spawns process 1 *)
    MediaMTX.Close 1;     (* process 1 exits *)
    MediaMTX.Wake 0;      (* 1 s later *)
    MediaMTX.Wake 0 ].    (* 5 s later *)

End Examples.

(** ** Further concrete inputs *)

Module Samples.
Import Mapper.

Definition panel : ringDevice := Examples.plainDevice "p1" "security-panel" None.

Definition frontDoorSensor : ringDevice :=
  Examples.plainDevice "c1" "sensor.contact" (Some (JStr "p1")).

Definition hallMotion : ringDevice := Examples.plainDevice "m1" "sensor.motion" None.

(** A doorbell camera as the vendor library hands it over. *)
Definition doorbellCamera : ringDevice :=
  {| dev_class := RingCamera; dev_id := JNum 4711; dev_deviceType := "doorbell_v3";
     dev_data := {| parentZid := None; device_id := JStr "aabbcc" |};
     dev_categoryId := JUndef; dev_tags := None |}.

Definition alarmDevices : list ringDevice :=
  [panel; frontDoorSensor; hallMotion; Examples.unknownDevice; Examples.accessCode].

(** A device whose type is the name of a member of [Object.prototype], and
    one whose type is "lock" itself. *)
Definition oddDevice : ringDevice := Examples.plainDevice "x1" "toString" None.

Definition plainLock : ringDevice := Examples.plainDevice "k0" "lock" None.

(** Two locations without hub, one device in each, right after discovery. *)
Definition garage : Republish.location :=
  {| Republish.locationId := "loc2"; Republish.hasHubs := false;
     Republish.isSubscribed := false; Republish.isConnected := false;
     Republish.onConnected := false |}.

Definition gate : Republish.wrapper :=
  {| Republish.deviceId := "d2"; Republish.deviceLocation := "loc2";
     Republish.camera := false |}.

Definition twoHomes : Republish.ringMqtt :=
  {| Republish.republishCount := 6; Republish.mqttConnected := true;
     Republish.locations := [Examples.flat; garage];
     Republish.devices := [Examples.doorbell; gate];
     Republish.tasks := []; Republish.out := [] |}.

(** A location with an alarm hub, its websocket subscribed and connected,
    with a sensor and a camera. *)
Definition villa : Republish.location :=
  {| Republish.locationId := "loc3"; Republish.hasHubs := true;
     Republish.isSubscribed := true; Republish.isConnected := true;
     Republish.onConnected := true |}.

Definition villaSensor : Republish.wrapper :=
  {| Republish.deviceId := "s3"; Republish.deviceLocation := "loc3";
     Republish.camera := false |}.

Definition villaCamera : Republish.wrapper :=
  {| Republish.deviceId := "c3"; Republish.deviceLocation := "loc3";
     Republish.camera := true |}.

Definition villaOnline : Republish.ringMqtt :=
  {| Republish.republishCount := 0; Republish.mqttConnected := true;
     Republish.locations := [villa];
     Republish.devices := [villaSensor; villaCamera; gate];
     Republish.tasks := []; Republish.out := [] |}.

(** An add-on start over a disk whose state file is unparsable, and over
    one whose state file holds a token and an empty system id. *)
Definition brokenStart : State.process :=
  State.create {[ "/data/ring-state.json" := State.Garbage ]} State.Unbound "/app".

Definition savedState : State.props :=
  [("ring_token", State.JString "t0"); ("systemId", State.JString "")].

Definition savedStart : State.process :=
  State.create {[ "/data/ring-state.json" := State.JsonText (State.JObject savedState) ]}
               State.Unbound "/app".

(** The process [savedStart] becomes by [init]. *)
Definition savedRunning : State.process :=
  fst (State.init "addon" "f00d" savedStart).

End Samples.


(** * Properties *)

(** ** Device mapping *)

Module MapperFacts.
Import Mapper.

(** *** Property lookup in the table *)

Lemma ownProperty_app tbl1 tbl2 k :
  ownProperty (tbl1 ++ tbl2) k =
  match ownProperty tbl2 k with
  | Some q => Some q
  | None => ownProperty tbl1 k
  end.
Proof.
  induction tbl1 as [|[k' p] tbl1 IH]; simpl.
  - destruct (ownProperty tbl2 k); reflexivity.
  - rewrite IH. destruct (ownProperty tbl2 k); reflexivity.
Qed.

Lemma ownProperty_None tbl k :
  ownProperty tbl k = None <-> ~ In k (List.map fst tbl).
Proof.
  induction tbl as [|[k' p] tbl IH]; simpl.
  - tauto.
  - destruct (ownProperty tbl k) eqn:E.
    + split; [discriminate|]. intros H.
      destruct (in_dec string_dec k (List.map fst tbl)) as [i|n].
      * exfalso. apply H. right. exact i.
      * apply IH in n. discriminate.
    + destruct (String.eqb_spec k' k) as [->|Hne].
      * split; [discriminate|]. intros H. exfalso. apply H. now left.
      * split; [|reflexivity]. intros _ [H|H]; [congruence|].
        apply (proj1 IH); [reflexivity|exact H].
Qed.

(** When every entry of a table holds the same value, a key of the table
    reads that value, whichever of its entries is the last one. *)
Lemma ownProperty_const tbl v k :
  Forall (fun e => snd e = v) tbl ->
  In k (List.map fst tbl) ->
  ownProperty tbl k = Some v.
Proof.
  induction tbl as [|[k' p] tbl IH]; simpl; intros Hall Hin; [contradiction|].
  apply Forall_cons_1 in Hall as [Hp Hrest]. simpl in Hp. subst p.
  destruct (in_dec string_dec k (List.map fst tbl)) as [i|n].
  - rewrite (IH Hrest i). reflexivity.
  - apply ownProperty_None in n. rewrite n.
    destruct Hin as [->|Hin].
    + rewrite String.eqb_refl. reflexivity.
    + apply ownProperty_None in n. contradiction.
Qed.

(** *** The creators table *)

Section Table.

Variable T : RingDeviceType.t.

Lemma creators_ignored_last :
  exists front,
    creators T = front ++ List.map (fun k => (k, Value ReturnIgnore)) (ignoreSet T).
Proof.
  eexists (firstn 30 (creators T)). reflexivity.
Qed.

Lemma ownProperty_ignored k :
  In k (ignoreSet T) -> ownProperty (creators T) k = Some (Value ReturnIgnore).
Proof.
  intros Hin. destruct creators_ignored_last as [front ->].
  rewrite ownProperty_app.
  rewrite (ownProperty_const _ (Value ReturnIgnore)).
  - reflexivity.
  - apply List.Forall_forall. intros [k' p] Hk.
    apply in_map_iff in Hk as [k'' [Heq _]]. inversion Heq. reflexivity.
  - rewrite List.map_map. simpl. exact Hin.
Qed.

(** The accessor [lock] is what [creators.lock] reads, unless the one enum
    member written after it in the literal is itself spelled "lock". *)
Lemma ownProperty_lock :
  RingDeviceType.BeamsSwitch T <> "lock" ->
  ownProperty (creators T) "lock" = Some LockGetter.
Proof.
  intros Hne. apply String.eqb_neq in Hne.
  unfold creators. cbn [ownProperty]. rewrite Hne. reflexivity.
Qed.

End Table.

(** *** What the mapper returns *)

Lemma mapDevice_RingDevice T device allDevices events :
  dev_class device = RingDevice ->
  mapDevice T device allDevices events =
  mapByDeviceType T device (buildDeviceInfo device allDevices) allDevices.
Proof. intros H. unfold mapDevice. rewrite H. reflexivity. Qed.

(** A temperature sensor that names a parent which is not in the device
    list makes the mapper throw, whatever the enum's tags are: the table
    entry calls [handleTemperatureSensor], which reads a property of
    [undefined]. *)
Lemma dangling_parent_throws T device allDevices events z :
  dev_class device = RingDevice ->
  ownProperty (creators T) (dev_deviceType device) = Some (Value HandleTemperatureSensor) ->
  parentZid (dev_data device) = Some z ->
  List.find (fun d => strictEq (dev_id d) z) allDevices = None ->
  mapDevice T device allDevices events =
  Throw (TypeError "Cannot read properties of undefined (reading 'deviceType')").
Proof.
  intros Hc Hp Hz Hf. rewrite mapDevice_RingDevice by exact Hc.
  unfold mapByDeviceType, getProperty. rewrite Hp. simpl.
  unfold handleTemperatureSensor, buildDeviceInfo. simpl. rewrite Hz, Hf. reflexivity.
Qed.

(** C1 (the code departs from the claim). The mapper is claimed never to
    throw, also for a temperature sensor whose [parentZid] names no device of
    the list. On that input [buildDeviceInfo] stores the key [parentDevice]
    with the value [undefined], [handleTemperatureSensor] reads its
    [deviceType], and [mapDevice] ends with a [TypeError] instead of a
    wrapper, Ignore or Unsupported. *)
Theorem C1_orphan_temperature_sensor_throws :
  Mapper.mapDevice ringClientApi Examples.orphanSensor [Examples.orphanSensor] [] =
  Throw (TypeError "Cannot read properties of undefined (reading 'deviceType')").
Proof.
  apply (dangling_parent_throws ringClientApi Examples.orphanSensor
           [Examples.orphanSensor] [] (JStr "gone")); reflexivity.
Qed.

(** C8. A device whose type is in the explicit ignore set is mapped to
    Ignore: the table yields ['ignore'] for it, a value that is neither
    Unsupported nor a wrapper instance, and so does [mapDevice] for every
    device that reaches the table. *)
Theorem C8_ignore_set_yields_ignore T device info allDevices events :
  In (dev_deviceType device) (ignoreSet T) ->
  mapByDeviceType T device info allDevices = Normal Ignore /\
  (dev_class device = RingDevice ->
   mapDevice T device allDevices events = Normal Ignore) /\
  Ignore <> NotSupported /\ isInstance Ignore = false.
Proof.
  intros Hin.
  assert (Hmap : forall i, mapByDeviceType T device i allDevices = Normal Ignore).
  { intros i. unfold mapByDeviceType, getProperty.
    rewrite (ownProperty_ignored T _ Hin). reflexivity. }
  split; [apply Hmap|]. split.
  - intros Hc. rewrite mapDevice_RingDevice by exact Hc. apply Hmap.
  - split; [discriminate|reflexivity].
Qed.

Lemma C8_ignore_set_witness :
  In (dev_deviceType Examples.accessCode) (ignoreSet ringClientApi) /\
  mapDevice ringClientApi Examples.accessCode [Examples.accessCode] [] = Normal Ignore.
Proof.
  split.
  - simpl. tauto.
  - apply (C8_ignore_set_yields_ignore ringClientApi Examples.accessCode
             (buildDeviceInfo Examples.accessCode [Examples.accessCode])
             [Examples.accessCode] []).
    + simpl. tauto.
    + reflexivity.
Defined.

(** The lookup finds an inherited member as well, and the mapper calls
    it. *)
Example inherited_member_is_no_miss :
  hasProperty ringClientApi "toString" = true /\
  mapDevice ringClientApi (Examples.plainDevice "x1" "toString" None) [] [] =
    Normal (Str "[object Undefined]").
Proof. split; reflexivity. Qed.

(** The lookup of a type that is neither a key of the constructor table nor
    a member name of [Object.prototype] ends in the [lock] accessor, also
    when the type is "lock" itself. *)
Lemma lock_fallback T device info allDevices :
  RingDeviceType.BeamsSwitch T <> "lock" ->
  constructorKey T (dev_deviceType device) = false ->
  inObjectPrototype (dev_deviceType device) = false ->
  mapByDeviceType T device info allDevices =
    Normal (if lockType (dev_deviceType device) then Instance Lock info None else NotSupported).
Proof.
  intros Hlock Hkey Hproto. unfold constructorKey in Hkey.
  unfold mapByDeviceType, getProperty, lockType.
  destruct (ownProperty (creators T) (dev_deviceType device)) as [[f|]|] eqn:Hown;
    [discriminate| |].
  - (* the accessor itself: the type is "lock" *)
    destruct (startsWith (dev_deviceType device) "lock." ||
              String.eqb (dev_deviceType device) "lock") eqn:Hl; [reflexivity|].
    rewrite (ownProperty_lock T Hlock). reflexivity.
  - rewrite Hproto, (ownProperty_lock T Hlock).
    destruct (startsWith (dev_deviceType device) "lock." ||
              String.eqb (dev_deviceType device) "lock"); reflexivity.
Qed.

(** C6. The claim fails on the device types that are member names of
    [Object.prototype]. Such a type is no key of the constructor table and
    does not start with "lock.", yet the lookup [creators[deviceType]] finds
    the inherited member, the [lock] fallback is skipped and the member is
    called: for "toString" the mapper returns the string
    "[object Undefined]", which is neither Unsupported nor a wrapper, and for
    none of the twelve names it returns Unsupported or a Lock wrapper. For
    every other type that is no key of the constructor table the claim holds:
    the result is a Lock wrapper exactly when the type starts with "lock." or
    is "lock", and Unsupported otherwise; the same holds of [mapDevice] for
    every device that reaches the table. This is so for every assignment of
    the enum's tags in which [BeamsSwitch], the one member written after the
    accessor, is not itself spelled "lock". *)
Theorem C6_inherited_name_is_neither_lock_nor_unsupported :
  (constructorKey ringClientApi (dev_deviceType Samples.oddDevice) = false /\
   lockType (dev_deviceType Samples.oddDevice) = false /\
   mapDevice ringClientApi Samples.oddDevice [Samples.oddDevice] [] =
     Normal (Str "[object Undefined]") /\
   Str "[object Undefined]" <> NotSupported /\
   isInstance (Str "[object Undefined]") = false) /\
  Forall (fun k =>
            constructorKey ringClientApi k = false /\ lockType k = false /\
            mapDevice ringClientApi (Examples.plainDevice "x1" k None) [] [] <>
              Normal NotSupported /\
            forall c i e, mapDevice ringClientApi (Examples.plainDevice "x1" k None) [] [] <>
                          Normal (Instance c i e))
         objectPrototypeMembers /\
  (forall T device info allDevices events,
     RingDeviceType.BeamsSwitch T <> "lock" ->
     constructorKey T (dev_deviceType device) = false ->
     inObjectPrototype (dev_deviceType device) = false ->
     mapByDeviceType T device info allDevices =
       Normal (if lockType (dev_deviceType device)
               then Instance Lock info None else NotSupported) /\
     (forall c i e, mapByDeviceType T device info allDevices = Normal (Instance c i e) <->
                    lockType (dev_deviceType device) = true /\ c = Lock /\ i = info /\ e = None) /\
     (dev_class device = RingDevice ->
      mapDevice T device allDevices events =
        Normal (if lockType (dev_deviceType device)
                then Instance Lock (buildDeviceInfo device allDevices) None
                else NotSupported))).
Proof.
  split; [repeat split; discriminate|]. split.
  { repeat constructor; try discriminate; intros c i e; discriminate. }
  intros T device info allDevices events Hlock Hkey Hproto.
  split; [apply lock_fallback; assumption|]. split.
  - intros c i e. rewrite (lock_fallback T device info allDevices Hlock Hkey Hproto).
    destruct (lockType (dev_deviceType device)).
    + split.
      * intros H. inversion H. auto.
      * intros (_ & -> & -> & ->). reflexivity.
    + split; [discriminate|]. intros [H _]. discriminate.
  - intros Hc. rewrite mapDevice_RingDevice by exact Hc. apply lock_fallback; assumption.
Qed.

Lemma C6_lock_fallback_witness :
  mapDevice ringClientApi Examples.smartLock [Examples.smartLock] [] =
    Normal (Instance Lock (buildDeviceInfo Examples.smartLock [Examples.smartLock]) None) /\
  mapDevice ringClientApi Samples.plainLock [Samples.plainLock] [] =
    Normal (Instance Lock (buildDeviceInfo Samples.plainLock [Samples.plainLock]) None) /\
  mapDevice ringClientApi Examples.unknownDevice [Examples.unknownDevice] [] =
    Normal NotSupported.
Proof.
  destruct C6_inherited_name_is_neither_lock_nor_unsupported as (_ & _ & H).
  split; [|split].
  - apply (H ringClientApi Examples.smartLock
             (buildDeviceInfo Examples.smartLock [Examples.smartLock])
             [Examples.smartLock] []);
      [discriminate | reflexivity | reflexivity | reflexivity].
  - apply (H ringClientApi Samples.plainLock
             (buildDeviceInfo Samples.plainLock [Samples.plainLock])
             [Samples.plainLock] []);
      [discriminate | reflexivity | reflexivity | reflexivity].
  - apply (H ringClientApi Examples.unknownDevice
             (buildDeviceInfo Examples.unknownDevice [Examples.unknownDevice])
             [Examples.unknownDevice] []);
      [discriminate | reflexivity | reflexivity | reflexivity].
Defined.

(** *** Parent and child linkage *)

Lemma callCreator_keeps_links T f device info allDevices c i e :
  callCreator T f device info allDevices = Normal (Instance c i e) ->
  di_device i = di_device info /\
  di_childDevices i = di_childDevices info /\
  di_parentDevice i = di_parentDevice info.
Proof.
  destruct f; cbn [callCreator].
  - intros H. inversion H; subst; auto.
  - unfold createSecurityDevice. intros H. inversion H; subst; auto.
  - intros H. inversion H; subst; auto.
  - unfold handleTemperatureSensor.
    destruct (di_parentDevice info) as [[parent|]|] eqn:E.
    + destruct (String.eqb (dev_deviceType parent) (RingDeviceType.Thermostat T));
        unfold Ignore; intros H; inversion H; subst; auto.
    + discriminate.
    + intros H; inversion H; subst; auto.
  - destruct (strictEq (dev_categoryId device) (JNum 17)); intros H; inversion H; subst; auto.
  - destruct (dev_tags device) as [tags|].
    + destruct (existsb (String.eqb "hidden") tags);
        unfold Ignore; intros H; inversion H; subst; auto.
    + intros H; inversion H; subst; auto.
  - discriminate.
Qed.

Lemma callInherited_no_instance name c i e :
  callInherited name <> Normal (Instance c i e).
Proof.
  unfold callInherited.
  repeat match goal with
         | |- context [if ?b then _ else _] => destruct b
         end; discriminate.
Qed.

Lemma mapByDeviceType_keeps_links T device info allDevices c i e :
  mapByDeviceType T device info allDevices = Normal (Instance c i e) ->
  di_device i = di_device info /\
  di_childDevices i = di_childDevices info /\
  di_parentDevice i = di_parentDevice info.
Proof.
  unfold mapByDeviceType.
  destruct (getProperty T device (dev_deviceType device)) as [f|name|].
  - apply callCreator_keeps_links.
  - intros H. exfalso. exact (callInherited_no_instance _ _ _ _ H).
  - destruct (getProperty T device "lock") as [f|name|].
    + apply callCreator_keeps_links.
    + intros H. exfalso. exact (callInherited_no_instance _ _ _ _ H).
    + discriminate.
Qed.

(** A wrapper returned by [mapDevice] was built from the device info of the
    device, up to the fields the table closures add. *)
Lemma mapDevice_keeps_links T device allDevices events c i e :
  mapDevice T device allDevices events = Normal (Instance c i e) ->
  di_device i = device /\
  di_childDevices i = di_childDevices (buildDeviceInfo device allDevices) /\
  di_parentDevice i = di_parentDevice (buildDeviceInfo device allDevices).
Proof.
  unfold mapDevice. destruct (dev_class device).
  - destruct (filterDeviceEvents device events); simpl; [|discriminate].
    intros H. inversion H. auto.
  - intros H. inversion H. auto.
  - intros H. inversion H. auto.
  - intros H. apply mapByDeviceType_keeps_links in H. exact H.
Qed.

Lemma find_unique {A} (f : A -> bool) (l : list A) (a : A) :
  In a l -> f a = true ->
  (forall d, In d l -> f d = true -> d = a) ->
  List.find f l = Some a.
Proof.
  induction l as [|x l IH]; simpl; [contradiction|].
  intros Hin Hfa Huniq. destruct (f x) eqn:Hfx.
  - f_equal. apply Huniq; auto.
  - destruct Hin as [->|Hin]; [congruence|]. apply IH; auto.
Qed.

Lemma strictEq_true a b : strictEq a b = true <-> a = b.
Proof. unfold strictEq. apply bool_decide_eq_true. Qed.

Lemma strictEq_refl a : strictEq a a = true.
Proof. apply strictEq_true. reflexivity. Qed.

(** C7 (amended). Let A and B be devices of one list with
    [B.data.parentZid] equal to [A.id], A being the only device of the list
    with that id. The device info built for B has [parentDevice] = A; the one
    built for A has [childDevices] = the devices whose parent reference is
    A's id, B among them; and whenever mapping B, or A, yields a wrapper, the
    wrapper carries that field. *)
Theorem C7_parent_and_children_linked T A B allDevices events :
  In A allDevices -> In B allDevices ->
  parentZid (dev_data B) = Some (dev_id A) ->
  (forall d, In d allDevices -> dev_id d = dev_id A -> d = A) ->
  di_parentDevice (buildDeviceInfo B allDevices) = Some (Some A) /\
  di_childDevices (buildDeviceInfo A allDevices) = Some (childrenOf A allDevices) /\
  In B (childrenOf A allDevices) /\
  (forall d, In d (childrenOf A allDevices) <->
             In d allDevices /\ get_parentZid d = dev_id A) /\
  (forall c i e, mapDevice T B allDevices events = Normal (Instance c i e) ->
                 di_device i = B /\ di_parentDevice i = Some (Some A)) /\
  (forall c i e, mapDevice T A allDevices events = Normal (Instance c i e) ->
                 di_device i = A /\ di_childDevices i = Some (childrenOf A allDevices)).
Proof.
  intros HA HB Hparent Huniq.
  assert (Hp : di_parentDevice (buildDeviceInfo B allDevices) = Some (Some A)).
  { unfold buildDeviceInfo. simpl. rewrite Hparent. do 2 f_equal.
    apply find_unique; [exact HA | apply strictEq_refl |].
    intros d Hd Heq. apply strictEq_true in Heq. auto. }
  assert (HBchild : strictEq (get_parentZid B) (dev_id A) = true).
  { unfold get_parentZid. rewrite Hparent. apply strictEq_refl. }
  assert (Hc : di_childDevices (buildDeviceInfo A allDevices) = Some (childrenOf A allDevices)).
  { unfold buildDeviceInfo, hasChildDevices. simpl.
    replace (existsb (fun d => strictEq (get_parentZid d) (dev_id A)) allDevices) with true.
    - reflexivity.
    - symmetry. apply existsb_exists. exists B. auto. }
  split; [exact Hp|]. split; [exact Hc|].
  split; [unfold childrenOf; apply filter_In; auto|].
  split; [intros d; unfold childrenOf; rewrite filter_In, strictEq_true; tauto|].
  split; intros c i e H; apply mapDevice_keeps_links in H as (H1 & H2 & H3);
    (split; [exact H1 | congruence]).
Qed.

Lemma C7_parent_and_children_witness :
  mapDevice ringClientApi Examples.light [Examples.bridge; Examples.light] [] =
    Normal (Instance Beam (buildDeviceInfo Examples.light [Examples.bridge; Examples.light]) None) /\
  di_parentDevice (buildDeviceInfo Examples.light [Examples.bridge; Examples.light]) =
    Some (Some Examples.bridge) /\
  In Examples.light (childrenOf Examples.bridge [Examples.bridge; Examples.light]).
Proof.
  split; [reflexivity|].
  assert (H := C7_parent_and_children_linked ringClientApi Examples.bridge Examples.light
                 [Examples.bridge; Examples.light] []).
  destruct H as (Hp & _ & Hin & _).
  - simpl. tauto.
  - simpl. tauto.
  - reflexivity.
  - intros d [<-|[<-|[]]]; [reflexivity | discriminate].
  - split; [exact Hp | exact Hin].
Defined.

(** C7 as stated fails: a temperature sensor inside a thermostat has its
    parent in the list, yet mapping it yields Ignore and no wrapper at all. *)
Lemma C7_counterexample_sensor_of_thermostat :
  In Examples.thermostat [Examples.thermostat; Examples.thermostatSensor] /\
  In Examples.thermostatSensor [Examples.thermostat; Examples.thermostatSensor] /\
  parentZid (dev_data Examples.thermostatSensor) = Some (dev_id Examples.thermostat) /\
  mapDevice ringClientApi Examples.thermostatSensor
            [Examples.thermostat; Examples.thermostatSensor] [] = Normal Ignore /\
  ~ (exists c i e, mapDevice ringClientApi Examples.thermostatSensor
                     [Examples.thermostat; Examples.thermostatSensor] [] =
                   Normal (Instance c i e)).
Proof.
  repeat split; try (simpl; tauto).
  intros (c & i & e & H). discriminate H.
Qed.

(** *** The device registry *)

Lemma instanceIds_app r1 r2 :
  instanceIds (r1 ++ r2) = instanceIds r1 ++ instanceIds r2.
Proof. unfold instanceIds. rewrite List.filter_app, List.map_app. reflexivity. Qed.

Lemma find_none_not_instance_id id registry :
  List.find (fun d => strictEq (deviceId d) id) registry = None ->
  ~ In id (instanceIds registry).
Proof.
  intros Hfind Hin. unfold instanceIds in Hin.
  apply in_map_iff in Hin as (m & Hid & Hm). apply filter_In in Hm as [Hm _].
  apply (List.find_none _ _ Hfind) in Hm. simpl in Hm.
  rewrite Hid, strictEq_refl in Hm. discriminate.
Qed.

Lemma NoDup_instanceIds_snoc registry m :
  NoDup (instanceIds registry) ->
  (isInstance m = true -> ~ In (deviceId m) (instanceIds registry)) ->
  NoDup (instanceIds (registry ++ [m])).
Proof.
  intros Hnd Hfresh. rewrite instanceIds_app.
  unfold instanceIds at 2. simpl. destruct (isInstance m); simpl.
  - apply NoDup_app. split; [exact Hnd|]. split.
    + intros x Hx Hin. apply list_elem_of_singleton in Hin. subst x.
      apply list_elem_of_In in Hx. exact (Hfresh eq_refl Hx).
    + apply NoDup_singleton.
  - rewrite app_nil_r. exact Hnd.
Qed.

(** The loop body on a device whose identifier is in the registry: the
    registry stays as it is and the mapper is not called. *)
Lemma processDevice_existing T allDevices events st device existing :
  List.find (fun d => strictEq (deviceId d) (getDeviceId device)) (devices st) = Some existing ->
  processDevice T allDevices events st device =
  ({| devices := devices st;
      unsupportedDevices := unsupportedDevices st;
      log := log st ++ [ExistingDevice existing] |}, None).
Proof. intros H. unfold processDevice. rewrite H. reflexivity. Qed.

(** The loop body extends the registry by at most one entry and keeps the
    identifiers of its wrapper instances distinct. *)
Lemma processDevice_registry T allDevices events st device :
  NoDup (instanceIds (devices st)) ->
  (exists added, devices (fst (processDevice T allDevices events st device)) = devices st ++ added) /\
  NoDup (instanceIds (devices (fst (processDevice T allDevices events st device)))).
Proof.
  intros Hnd. unfold processDevice.
  destruct (List.find _ (devices st)) as [existing|] eqn:Hfind.
  - simpl. split; [exists []; rewrite app_nil_r; reflexivity | exact Hnd].
  - destruct (mapDevice T device allDevices events) as [m|err] eqn:Hmap.
    + destruct (isStr m "not-supported").
      * simpl. split; [exists []; rewrite app_nil_r; reflexivity | exact Hnd].
      * destruct (truthy m && negb (isStr m "ignore")).
        -- simpl. split; [exists [m]; reflexivity|].
           apply NoDup_instanceIds_snoc; [exact Hnd|].
           intros Hinst Hin. destruct m as [c i e| | |]; try discriminate.
           apply mapDevice_keeps_links in Hmap as (Hdev & _).
           simpl in Hin. rewrite Hdev in Hin.
           exact (find_none_not_instance_id _ _ Hfind Hin).
        -- simpl. split; [exists []; rewrite app_nil_r; reflexivity | exact Hnd].
    + simpl. split; [exists []; rewrite app_nil_r; reflexivity | exact Hnd].
Qed.

Lemma processLoop_registry T allDevices events pending :
  forall st,
    NoDup (instanceIds (devices st)) ->
    (exists added, devices (fst (processLoop T allDevices events pending st)) = devices st ++ added) /\
    NoDup (instanceIds (devices (fst (processLoop T allDevices events pending st)))).
Proof.
  induction pending as [|device rest IH]; intros st Hnd; simpl.
  - split; [exists []; rewrite app_nil_r; reflexivity | exact Hnd].
  - destruct (processDevice_registry T allDevices events st device Hnd) as [[added1 Hadd1] Hnd1].
    destruct (processDevice T allDevices events st device) as [st1 [err|]]; simpl in *.
    + split; [exists added1; exact Hadd1 | exact Hnd1].
    + destruct (IH st1 Hnd1) as [[added2 Hadd2] Hnd2].
      split; [|exact Hnd2].
      exists (added1 ++ added2). rewrite Hadd2, Hadd1, app_assoc. reflexivity.
Qed.

(** C9. The registry holds at most one wrapper per device identifier: a
    run of [processDevices] only appends to the registry and keeps the
    identifiers of its wrappers distinct, and when the loop meets a device
    whose identifier is already registered it leaves the registry as it is
    without calling the mapper. *)
Theorem C9_one_wrapper_per_device_identifier
        T enable_modes loc devs cameras chimes intercoms events registry :
  NoDup (instanceIds registry) ->
  (exists added,
     devices (fst (processDevices T enable_modes loc devs cameras chimes intercoms events registry))
     = registry ++ added) /\
  NoDup (instanceIds
           (devices (fst (processDevices T enable_modes loc devs cameras chimes intercoms
                                         events registry)))) /\
  (forall allDevices st device existing,
     List.find (fun d => strictEq (deviceId d) (getDeviceId device)) (devices st) = Some existing ->
     processDevice T allDevices events st device =
     ({| devices := devices st;
         unsupportedDevices := unsupportedDevices st;
         log := log st ++ [ExistingDevice existing] |}, None)).
Proof.
  intros Hnd. unfold processDevices.
  match goal with
  | |- context [processLoop T ?all events ?all ?st0] =>
      destruct (processLoop_registry T all events all st0 Hnd) as [Hadd Hnd'];
      destruct (processLoop T all events all st0) as [st [err|]]
  end; simpl in *.
  - split; [exact Hadd|]. split; [exact Hnd'|]. intros. apply processDevice_existing. assumption.
  - split; [exact Hadd|]. split; [exact Hnd'|]. intros. apply processDevice_existing. assumption.
Qed.

Lemma C9_one_wrapper_witness :
  NoDup (instanceIds []) /\
  devices (fst (processDevices ringClientApi false Examples.home
                  [Examples.bridge; Examples.light; Examples.bridge] [] [] [] [] []))
  = [ Instance Bridge (buildDeviceInfo Examples.bridge
                         [Examples.bridge; Examples.light; Examples.bridge]) None;
      Instance Beam (buildDeviceInfo Examples.light
                       [Examples.bridge; Examples.light; Examples.bridge]) None ] /\
  NoDup (instanceIds
           (devices (fst (processDevices ringClientApi false Examples.home
                            [Examples.bridge; Examples.light; Examples.bridge] [] [] [] [] [])))).
Proof.
  split; [constructor|]. split; [reflexivity|].
  apply (C9_one_wrapper_per_device_identifier ringClientApi false Examples.home
           [Examples.bridge; Examples.light; Examples.bridge] [] [] [] [] []).
  constructor.
Defined.

End MapperFacts.

(** ** The republish cycle *)

Module RepublishFacts.
Import Republish.

Example firstCycle_state :
  republishCount Examples.firstCycle = 6 /\
  tasks Examples.firstCycle = [PublishDevicesSleep "loc1" []] /\
  out Examples.firstCycle = [DevicePublish "d1" false].
Proof. repeat split. Qed.

(** *** What the helpers leave untouched *)

Lemma sameCounter_refl st : sameCounter st st.
Proof. repeat split. Qed.

Lemma sameCounter_trans a b c : sameCounter a b -> sameCounter b c -> sameCounter a c.
Proof. unfold sameCounter. intros (?&?&?) (?&?&?). repeat split; congruence. Qed.

Lemma quiet_refl st : quiet st st.
Proof. repeat split. Qed.

Lemma quiet_trans a b c : quiet a b -> quiet b c -> quiet a c.
Proof.
  unfold quiet. intros (H1&?&?) (H2&?&?).
  split; [exact (sameCounter_trans _ _ _ H1 H2)|]. split; congruence.
Qed.

Lemma updateLocation_quiet st loc f : quiet st (updateLocation st loc f).
Proof. repeat split. Qed.

Lemma cycles_suspend t st :
  cycles (suspend t st) = cycles st ++ (if isCycle t then [t] else []).
Proof.
  unfold cycles, suspend. simpl. rewrite List.filter_app. simpl.
  destruct (isCycle t); reflexivity.
Qed.

Lemma publishDevices_Some st loc rest :
  0 < republishCount st -> mqttConnected st = true ->
  publishDevices st loc rest =
  Some (suspend (PublishDevicesSleep loc rest) (emit st (cyclePublishes st loc))).
Proof.
  intros Hc Hm. unfold publishDevices. rewrite Hm.
  apply Z.ltb_lt in Hc. rewrite Hc. reflexivity.
Qed.

Lemma publishDevices_None st loc rest :
  republishCount st <= 0 \/ mqttConnected st = false ->
  publishDevices st loc rest = None.
Proof.
  intros H. unfold publishDevices.
  destruct (0 <? republishCount st) eqn:Hc; [|reflexivity].
  destruct (mqttConnected st) eqn:Hm; [|reflexivity].
  apply Z.ltb_lt in Hc. destruct H; [lia|discriminate].
Qed.

Lemma publishDevices_sameCounter st loc rest st' :
  publishDevices st loc rest = Some st' -> sameCounter st st'.
Proof.
  unfold publishDevices.
  destruct ((0 <? republishCount st) && mqttConnected st); [|discriminate].
  intros H. inversion H. repeat split.
Qed.

Lemma onConnectedCallback_sameCounter st loc connected :
  sameCounter st (onConnectedCallback st loc connected).
Proof.
  unfold onConnectedCallback. destruct (getLocation st loc) as [l|]; [|apply sameCounter_refl].
  destruct (connected && negb (isConnected l)).
  - match goal with
    | |- context [publishDevices ?s ?a ?b] => destruct (publishDevices s a b) eqn:E
    end.
    + apply publishDevices_sameCounter in E.
      eapply sameCounter_trans; [|exact E]. repeat split.
    + repeat split.
  - destruct (negb connected); repeat split.
Qed.

Lemma onConnectedCallback_quiet st loc connected :
  republishCount st <= 0 \/ mqttConnected st = false ->
  quiet st (onConnectedCallback st loc connected).
Proof.
  intros Hq. unfold onConnectedCallback.
  destruct (getLocation st loc) as [l|]; [|apply quiet_refl].
  destruct (connected && negb (isConnected l)).
  - rewrite publishDevices_None by exact Hq. repeat split.
  - destruct (negb connected); [|apply quiet_refl].
    split; [repeat split|]. split; [|reflexivity].
    rewrite cycles_suspend. simpl. apply app_nil_r.
Qed.

Lemma subscribeToLocationWebsocket_sameCounter st loc :
  sameCounter st (subscribeToLocationWebsocket st loc).
Proof.
  unfold subscribeToLocationWebsocket.
  eapply sameCounter_trans; [|apply onConnectedCallback_sameCounter]. repeat split.
Qed.

Lemma subscribeToLocationWebsocket_quiet st loc :
  republishCount st <= 0 \/ mqttConnected st = false ->
  quiet st (subscribeToLocationWebsocket st loc).
Proof.
  intros Hq. unfold subscribeToLocationWebsocket.
  eapply quiet_trans; [apply (updateLocation_quiet st loc)|].
  apply onConnectedCallback_quiet. exact Hq.
Qed.

Lemma publishLocations_sameCounter pending :
  forall st, sameCounter st (publishLocations st pending).
Proof.
  induction pending as [|loc rest IH]; intros st; simpl; [apply sameCounter_refl|].
  destruct (getLocation st loc) as [l|]; [|apply IH].
  destruct (locationDevices st loc) eqn:Hd; [apply IH|].
  destruct (hasHubs l && negb (isSubscribed l)).
  - eapply sameCounter_trans; [apply (subscribeToLocationWebsocket_sameCounter st loc)|apply IH].
  - destruct (publishDevices st loc rest) eqn:E; [|apply IH].
    apply publishDevices_sameCounter in E. exact E.
Qed.

(** Once the counter is used up, or while MQTT is down, [publishLocations]
    starts no cycle and publishes nothing. *)
Lemma publishLocations_quiet pending :
  forall st,
    republishCount st <= 0 \/ mqttConnected st = false ->
    quiet st (publishLocations st pending).
Proof.
  induction pending as [|loc rest IH]; intros st Hq; simpl; [apply quiet_refl|].
  destruct (getLocation st loc) as [l|]; [|apply IH; exact Hq].
  destruct (locationDevices st loc) eqn:Hd; [apply IH; exact Hq|].
  destruct (hasHubs l && negb (isSubscribed l)).
  - pose proof (subscribeToLocationWebsocket_quiet st loc Hq) as Hs.
    eapply quiet_trans; [exact Hs|]. apply IH.
    destruct Hs as ((Hc & Hm & _) & _). rewrite Hc, Hm. exact Hq.
  - rewrite publishDevices_None by exact Hq. apply IH. exact Hq.
Qed.

(** *** One republish loop *)

Lemma resume_cycle_count st loc rest :
  republishCount (resume (PublishDevicesSleep loc rest) st) = republishCount st - 1.
Proof.
  unfold resume.
  match goal with
  | |- context [publishDevices ?s ?a ?b] => destruct (publishDevices s a b) eqn:E
  end.
  - apply publishDevices_sameCounter in E as (E & _). rewrite E. reflexivity.
  - match goal with
    | |- context [publishLocations ?s ?r] =>
        destruct (publishLocations_sameCounter r s) as (E' & _)
    end.
    rewrite E'. reflexivity.
Qed.

Lemma resume_cycle_continues st loc rest :
  1 < republishCount st -> mqttConnected st = true ->
  resume (PublishDevicesSleep loc rest) st =
  suspend (PublishDevicesSleep loc rest)
          (emit (set_republishCount st (republishCount st - 1)) (cyclePublishes st loc)).
Proof.
  intros Hc Hm. unfold resume.
  rewrite publishDevices_Some; [reflexivity | simpl; lia | exact Hm].
Qed.

Lemma resume_cycle_stops st loc rest :
  republishCount st <= 1 ->
  cycles (resume (PublishDevicesSleep loc rest) st) = cycles st /\
  out (resume (PublishDevicesSleep loc rest) st) = out st.
Proof.
  intros Hc. unfold resume.
  rewrite publishDevices_None by (left; simpl; lia).
  match goal with
  | |- context [publishLocations ?s ?r] =>
      destruct (publishLocations_quiet r s) as (_ & Hcy & Hout); [left; simpl; lia|]
  end.
  rewrite Hcy, Hout. split; reflexivity.
Qed.

Lemma step_wake_only_task st t :
  tasks st = [t] -> t <> InitRingData ->
  step st (Wake 0) = resume t (set_tasks st []).
Proof.
  intros Ht Hne. unfold step. rewrite Ht. simpl.
  destruct t; try reflexivity. contradiction.
Qed.

(** A loop that is alone, started with the counter at [n + 1] and never
    losing the connection, goes through [n] further cycles and ends with the
    counter at 0. *)
Lemma cycle_runs_out n :
  forall st loc rest,
    tasks st = [PublishDevicesSleep loc rest] ->
    republishCount st = Z.of_nat (S n) ->
    mqttConnected st = true ->
    republishCount (run st (repeat (Wake 0%nat) (S n))) = 0 /\
    cycles (run st (repeat (Wake 0%nat) (S n))) = [] /\
    out (run st (repeat (Wake 0%nat) (S n))) =
      out st ++ concat (repeat (cyclePublishes st loc) n).
Proof.
  induction n as [|n IH]; intros st loc rest Ht Hc Hm.
  - change (run st (repeat (Wake 0%nat) 1)) with (step st (Wake 0%nat)).
    rewrite (step_wake_only_task st _ Ht) by discriminate.
    rewrite resume_cycle_count.
    destruct (resume_cycle_stops (set_tasks st []) loc rest) as (Hcy & Hout);
      [simpl; lia|].
    rewrite Hcy, Hout. simpl. rewrite app_nil_r.
    repeat split. lia.
  - change (run st (repeat (Wake 0%nat) (S (S n))))
      with (run (step st (Wake 0%nat)) (repeat (Wake 0%nat) (S n))).
    rewrite (step_wake_only_task st _ Ht) by discriminate.
    rewrite resume_cycle_continues; [| simpl; lia | exact Hm].
    match goal with
    | |- context [run ?s _] =>
        destruct (IH s loc rest) as (H1 & H2 & H3);
          [reflexivity | simpl; lia | exact Hm |]
    end.
    rewrite H1, H2, H3. repeat split.
    simpl. rewrite <- app_assoc. reflexivity.
Qed.

Lemma resume_restart_starts_cycle st l ls d ds :
  locations st = l :: ls ->
  locationDevices st (locationId l) = d :: ds ->
  hasHubs l && negb (isSubscribed l) = false ->
  mqttConnected st = true ->
  resume RestartSleep st =
  suspend (PublishDevicesSleep (locationId l) (List.map locationId ls))
          (emit (set_republishCount st 6) (cyclePublishes st (locationId l))).
Proof.
  intros Hl Hd Hh Hm. unfold resume, allLocations. simpl. rewrite Hl. simpl.
  unfold getLocation. simpl. rewrite Hl. simpl. rewrite String.eqb_refl.
  change (locationDevices (set_republishCount st 6) (locationId l))
    with (locationDevices st (locationId l)).
  rewrite Hd, Hh.
  rewrite publishDevices_Some; [reflexivity | simpl; lia | exact Hm].
Qed.

(** C3. The republish counter starts at 6. Waking a republish loop from its
    30-second sleep decrements the counter by 1; with MQTT connected the loop
    goes on with another cycle while the counter stays positive, and it ends,
    starting no cycle and publishing nothing, when the counter reaches 0: a
    loop entered with the counter at [n + 1] runs out after [n] further
    cycles. A Home Assistant "online" message while the counter is positive
    only sets the counter to 6 (the suspended activations, and so the loops in
    flight, stay as they are); while the counter is 0 it suspends the handler
    for 15 seconds, after which the counter is 6 and a cycle of the first
    publishable location starts. *)
Theorem C3_republish_counter_cycle :
  republishCount initial = 6 /\
  (forall st loc rest,
     republishCount (resume (PublishDevicesSleep loc rest) st) = republishCount st - 1) /\
  (forall st loc rest,
     1 < republishCount st -> mqttConnected st = true ->
     resume (PublishDevicesSleep loc rest) st =
     suspend (PublishDevicesSleep loc rest)
             (emit (set_republishCount st (republishCount st - 1)) (cyclePublishes st loc))) /\
  (forall st loc rest,
     republishCount st <= 1 ->
     cycles (resume (PublishDevicesSleep loc rest) st) = cycles st /\
     out (resume (PublishDevicesSleep loc rest) st) = out st) /\
  (forall n st loc rest,
     tasks st = [PublishDevicesSleep loc rest] ->
     republishCount st = Z.of_nat (S n) ->
     mqttConnected st = true ->
     republishCount (run st (repeat (Wake 0%nat) (S n))) = 0 /\
     cycles (run st (repeat (Wake 0%nat) (S n))) = [] /\
     out (run st (repeat (Wake 0%nat) (S n))) =
       out st ++ concat (repeat (cyclePublishes st loc) n)) /\
  (forall st,
     0 < republishCount st ->
     step st (HaStatus "online") = set_republishCount st 6 /\
     tasks (step st (HaStatus "online")) = tasks st) /\
  (forall st,
     republishCount st <= 0 ->
     step st (HaStatus "online") = suspend RestartSleep st) /\
  sleepSeconds RestartSleep = Some 15 /\
  (forall st l ls d ds,
     locations st = l :: ls ->
     locationDevices st (locationId l) = d :: ds ->
     hasHubs l && negb (isSubscribed l) = false ->
     mqttConnected st = true ->
     resume RestartSleep st =
     suspend (PublishDevicesSleep (locationId l) (List.map locationId ls))
             (emit (set_republishCount st 6) (cyclePublishes st (locationId l)))).
Proof.
  split; [reflexivity|].
  split; [exact resume_cycle_count|].
  split; [exact resume_cycle_continues|].
  split; [exact resume_cycle_stops|].
  split; [intros n; exact (cycle_runs_out n)|].
  split.
  { intros st Hc. unfold step, handleHomeAssistantRestart. simpl.
    apply Z.ltb_lt in Hc. rewrite Hc. split; reflexivity. }
  split.
  { intros st Hc. unfold step, handleHomeAssistantRestart. simpl.
    apply Z.ltb_ge in Hc. rewrite Hc. reflexivity. }
  split; [reflexivity|].
  exact resume_restart_starts_cycle.
Qed.

Lemma C3_republish_counter_witness :
  tasks Examples.firstCycle = [PublishDevicesSleep "loc1" []] /\
  republishCount Examples.firstCycle = Z.of_nat 6 /\
  mqttConnected Examples.firstCycle = true /\
  republishCount (run Examples.firstCycle (repeat (Wake 0%nat) 6)) = 0 /\
  cycles (run Examples.firstCycle (repeat (Wake 0%nat) 6)) = [].
Proof.
  destruct C3_republish_counter_cycle as (_ & _ & _ & _ & Hrun & _).
  destruct (Hrun 5%nat Examples.firstCycle "loc1" [] eq_refl eq_refl eq_refl) as (H1 & H2 & _).
  repeat split; assumption.
Defined.

End RepublishFacts.

(** ** The intercom wrapper *)

Module IntercomFacts.
Import Intercom.

Lemma differs_same s : differs s (Some s) = false.
Proof. simpl. rewrite String.eqb_refl. reflexivity. Qed.

(** *** Publishing on change *)

Lemma publishDingState_forced w :
  publishDingState w true =
  set_ding (mqttPublish w (ding_state_topic (entity w)) (Text (ding_state (ding w))) false)
           {| ding_state := ding_state (ding w);
              ding_publishedState := Some (ding_state (ding w));
              ding_timeout := ding_timeout (ding w) |}.
Proof. unfold publishDingState. rewrite orb_true_r. reflexivity. Qed.

Lemma publishLockState_forced w :
  publishLockState w true =
  set_lock (mqttPublish w (lock_state_topic (entity w)) (Text (lock_state (lock w))) false)
           {| lock_state := lock_state (lock w);
              lock_publishedState := Some (lock_state (lock w));
              unlockTimeout := unlockTimeout (lock w) |}.
Proof. unfold publishLockState. rewrite orb_true_r. reflexivity. Qed.

(** After a change-detecting publish the cache of an entity holds its
    state, and the state itself is as before. *)
Lemma publishDingState_cache w isPublish :
  ding_publishedState (ding (publishDingState w isPublish)) = Some (ding_state (ding w)) /\
  ding_state (ding (publishDingState w isPublish)) = ding_state (ding w) /\
  lock (publishDingState w isPublish) = lock w /\
  entity (publishDingState w isPublish) = entity w.
Proof.
  unfold publishDingState.
  destruct (ding_publishedState (ding w)) as [p|] eqn:Hp; simpl.
  - destruct (String.eqb_spec (ding_state (ding w)) p) as [Heq|Hne]; simpl.
    + destruct isPublish; simpl; repeat split; congruence.
    + auto.
  - auto.
Qed.

Lemma publishLockState_cache w isPublish :
  lock_publishedState (lock (publishLockState w isPublish)) = Some (lock_state (lock w)) /\
  lock_state (lock (publishLockState w isPublish)) = lock_state (lock w) /\
  ding (publishLockState w isPublish) = ding w /\
  entity (publishLockState w isPublish) = entity w.
Proof.
  unfold publishLockState.
  destruct (lock_publishedState (lock w)) as [p|] eqn:Hp; simpl.
  - destruct (String.eqb_spec (lock_state (lock w)) p) as [Heq|Hne]; simpl.
    + destruct isPublish; simpl; repeat split; congruence.
    + auto.
  - auto.
Qed.

Lemma publishDingState_cached w :
  ding_publishedState (ding w) = Some (ding_state (ding w)) ->
  publishDingState w false = w.
Proof. intros H. unfold publishDingState. rewrite H, differs_same. reflexivity. Qed.

Lemma publishLockState_cached w :
  lock_publishedState (lock w) = Some (lock_state (lock w)) ->
  publishLockState w false = w.
Proof. intros H. unfold publishLockState. rewrite H, differs_same. reflexivity. Qed.

(** C2. With the entity data unchanged, a second change-detecting
    [publishState] right after a first one publishes nothing, the first
    having set the cache of the ding and of the lock entity to their states;
    a forced [publishState] publishes the ding state, the lock state and the
    info attributes whatever the caches hold, and sets both caches. *)
Theorem C2_publish_state_idempotent_unless_forced w data1 data2 now1 now2 now :
  let w1 := publishState w (Some data1) now1 in
  let w2 := publishState w1 (Some data2) now2 in
  let forced := publishState w None now in
  (ding_state (ding w1) = ding_state (ding w) /\
   lock_state (lock w1) = lock_state (lock w) /\
   ding_publishedState (ding w1) = Some (ding_state (ding w)) /\
   lock_publishedState (lock w1) = Some (lock_state (lock w))) /\
  w2 = w1 /\
  out w2 = out w1 /\
  (exists a,
     out forced = out w ++
       [ MqttPublish (ding_state_topic (entity w)) (Text (ding_state (ding w))) false;
         MqttPublish (lock_state_topic (entity w)) (Text (lock_state (lock w))) false;
         MqttPublish (info_state_topic (entity w)) (Json a) true;
         PublishAttributeEntities a ]) /\
  ding_publishedState (ding forced) = Some (ding_state (ding w)) /\
  lock_publishedState (lock forced) = Some (lock_state (lock w)).
Proof.
  intros w1 w2 forced.
  destruct (publishDingState_cache w false) as (Hd1 & Hd2 & Hd3 & Hd4).
  destruct (publishLockState_cache (publishDingState w false) false) as (Hl1 & Hl2 & Hl3 & Hl4).
  assert (Hcache : (ding_state (ding w1) = ding_state (ding w) /\
                    lock_state (lock w1) = lock_state (lock w) /\
                    ding_publishedState (ding w1) = Some (ding_state (ding w)) /\
                    lock_publishedState (lock w1) = Some (lock_state (lock w)))).
  { subst w1. unfold publishState. rewrite Hl3, Hd2, Hd1, Hl2, Hl1, Hd3. auto. }
  assert (Hsame : w2 = w1).
  { subst w2. unfold publishState at 1. destruct Hcache as (Ha & Hb & Hc & Hd).
    rewrite publishDingState_cached by congruence.
    rewrite publishLockState_cached by congruence. reflexivity. }
  split; [exact Hcache|]. split; [exact Hsame|]. split; [rewrite Hsame; reflexivity|].
  subst forced. unfold publishState.
  rewrite publishDingState_forced, publishLockState_forced.
  split; [|split; reflexivity].
  eexists. unfold publishAttributes, emit, mqttPublish, emit. simpl.
  rewrite <- !app_assoc. reflexivity.
Qed.

(** *** Timers *)

Lemma frame_refl w : frame w w.
Proof. repeat split. Qed.

Lemma frame_trans a b c : frame a b -> frame b c -> frame a c.
Proof.
  unfold frame. intros (?&?&?&?&?&?) (?&?&?&?&?&?). repeat split; congruence.
Qed.

Lemma frame_emit w o : frame w (emit w o).
Proof. repeat split. Qed.

Lemma frame_publishDingState w b : frame w (publishDingState w b).
Proof.
  unfold publishDingState.
  destruct (differs (ding_state (ding w)) (ding_publishedState (ding w)) || b); repeat split.
Qed.

Lemma frame_publishLockState w b : frame w (publishLockState w b).
Proof.
  unfold publishLockState.
  destruct (differs (lock_state (lock w)) (lock_publishedState (lock w)) || b); repeat split.
Qed.

Lemma frame_publishState w data now : frame w (publishState w data now).
Proof.
  unfold publishState. destruct data; cbv zeta.
  - eapply frame_trans; [apply (frame_publishDingState w)|].
    apply frame_publishLockState.
  - eapply frame_trans; [apply (frame_publishDingState w)|].
    eapply frame_trans; [apply frame_publishLockState|].
    repeat split.
Qed.

Lemma handleOf_frame w w' cb :
  frame w w' -> handleOf w' cb = handleOf w cb.
Proof. intros (_&_&Hl&Hd&_). destruct cb; simpl; assumption. Qed.

Lemma timersOwned_frame w w' :
  frame w w' -> timersOwned w -> timersOwned w'.
Proof.
  intros Hf [H1 H2]. pose proof Hf as (Ht&Hn&_). split.
  - intros h t Hh. rewrite Ht in Hh. rewrite Hn, (handleOf_frame _ _ _ Hf). auto.
  - intros cb h Hh. rewrite (handleOf_frame _ _ _ Hf) in Hh. rewrite Ht. auto.
Qed.

Lemma timersOwned_onePending w : timersOwned w -> onePendingPerEntity w.
Proof.
  intros [H1 _] h1 h2 t1 t2 Ht1 Ht2 Ha.
  apply H1 in Ht1 as [_ Ht1]. apply H1 in Ht2 as [_ Ht2].
  rewrite Ha in Ht1. congruence.
Qed.

Lemma timersOwned_create dev topics : timersOwned (create dev topics).
Proof.
  split.
  - intros h t Hh. simpl in Hh. rewrite lookup_empty in Hh. discriminate.
  - intros [] h Hh; discriminate.
Qed.

(** Dropping the pending timeout of an entity and arming a new one. The
    three functions that do it ([setDoorUnlocked], [processDing], and the
    expiry of a timeout) are instances of [rearm] and [disarm] up to [frame]. *)
Lemma timersOwned_rearm w w' cb :
  timersOwned w ->
  nextTimer w' = S (nextTimer w) ->
  timers w' = <[nextTimer w := timerOf cb]>
                (match handleOf w cb with
                 | Some h => delete h (timers w)
                 | None => timers w
                 end) ->
  handleOf w' cb = Some (nextTimer w) ->
  (forall cb', cb' <> cb -> handleOf w' cb' = handleOf w cb') ->
  timersOwned w'.
Proof.
  intros [H1 H2] Hn Ht Hh Hother.
  assert (Hold : forall h t,
             match handleOf w cb with
             | Some h0 => delete h0 (timers w)
             | None => timers w
             end !! h = Some t ->
             timers w !! h = Some t /\ action t <> cb).
  { intros h t Hl. destruct (handleOf w cb) as [h0|] eqn:E.
    - apply lookup_delete_Some in Hl as [Hne Hl]. split; [exact Hl|].
      intros Ha. apply H1 in Hl as [_ Hl]. rewrite Ha in Hl. congruence.
    - split; [exact Hl|]. intros Ha. apply H1 in Hl as [_ Hl]. rewrite Ha in Hl. congruence. }
  split.
  - intros h t Hl. rewrite Ht in Hl. rewrite Hn.
    apply lookup_insert_Some in Hl as [[<- <-]|[Hne Hl]].
    + split; [lia|]. destruct cb; exact Hh.
    + apply Hold in Hl as [Hl Ha]. rewrite (Hother _ Ha).
      apply H1 in Hl as [Hlt Hl]. split; [lia | exact Hl].
  - intros cb' h Hh'. rewrite Ht. destruct (decide (cb' = cb)) as [->|Hne].
    + rewrite Hh in Hh'. inversion Hh'. apply lookup_insert_eq.
    + rewrite (Hother _ Hne) in Hh'. pose proof (H2 _ _ Hh') as Hl.
      pose proof (H1 _ _ Hl) as [Hlt _].
      rewrite lookup_insert_ne by lia.
      destruct (handleOf w cb) as [h0|] eqn:E; [|exact Hl].
      rewrite lookup_delete_ne; [exact Hl|].
      intros <-. pose proof (H2 _ _ E) as Hl0. rewrite Hl in Hl0.
      destruct cb, cb'; try discriminate; contradiction.
Qed.

Lemma timersOwned_disarm w w' h t :
  timersOwned w ->
  timers w !! h = Some t ->
  nextTimer w' = nextTimer w ->
  timers w' = delete h (timers w) ->
  handleOf w' (action t) = None ->
  (forall cb', cb' <> action t -> handleOf w' cb' = handleOf w cb') ->
  timersOwned w'.
Proof.
  intros [H1 H2] Hl Hn Ht Hh Hother.
  pose proof (H1 _ _ Hl) as [_ Hown].
  split.
  - intros h' t' Hl'. rewrite Ht in Hl'. apply lookup_delete_Some in Hl' as [Hne Hl'].
    rewrite Hn. pose proof (H1 _ _ Hl') as [Hlt Hown'].
    split; [exact Hlt|].
    rewrite Hother; [exact Hown'|]. intros Ha. rewrite Ha in Hown'. congruence.
  - intros cb' h' Hh'. destruct (decide (cb' = action t)) as [->|Hne]; [congruence|].
    rewrite (Hother _ Hne) in Hh'. pose proof (H2 _ _ Hh') as Hl'.
    rewrite Ht, lookup_delete_ne; [exact Hl'|].
    intros <-. rewrite Hl in Hl'. inversion Hl'. subst t.
    destruct cb'; simpl in Hne; contradiction.
Qed.

(** *** The functions that arm and disarm *)

Lemma setDoorUnlocked_fields w :
  nextTimer (setDoorUnlocked w) = S (nextTimer w) /\
  timers (setDoorUnlocked w) =
    <[nextTimer w := lockTimer]>
      (match unlockTimeout (lock w) with
       | Some h => delete h (timers w)
       | None => timers w
       end) /\
  unlockTimeout (lock (setDoorUnlocked w)) = Some (nextTimer w) /\
  lock_state (lock (setDoorUnlocked w)) = "UNLOCKED" /\
  lock_publishedState (lock (setDoorUnlocked w)) = Some "UNLOCKED" /\
  ding (setDoorUnlocked w) = ding w /\
  entity (setDoorUnlocked w) = entity w.
Proof.
  unfold setDoorUnlocked.
  destruct (unlockTimeout (lock w)) as [h|];
    match goal with
    | |- context [publishLockState ?x false] =>
        pose proof (publishLockState_cache x false) as (Hc1 & Hc2 & Hc3 & Hc4);
        pose proof (frame_publishLockState x false) as (Ht & Hn & _);
        generalize dependent (publishLockState x false)
    end;
    intros w3 Hc1 Hc2 Hc3 Hc4 Ht Hn; simpl in *;
    rewrite Hc1, Hc3, Hc4, Ht, Hn; repeat split; assumption.
Qed.

Lemma processDing_fields w :
  nextTimer (processDing w) = S (nextTimer w) /\
  timers (processDing w) =
    <[nextTimer w := dingTimer]>
      (match ding_timeout (ding w) with
       | Some h => delete h (timers w)
       | None => timers w
       end) /\
  ding_timeout (ding (processDing w)) = Some (nextTimer w) /\
  ding_state (ding (processDing w)) = "ON" /\
  ding_publishedState (ding (processDing w)) = Some "ON" /\
  lock (processDing w) = lock w /\
  entity (processDing w) = entity w.
Proof.
  unfold processDing.
  destruct (ding_timeout (ding w)) as [h|];
    match goal with
    | |- context [publishDingState ?x false] =>
        pose proof (publishDingState_cache x false) as (Hc1 & Hc2 & Hc3 & Hc4);
        pose proof (frame_publishDingState x false) as (Ht & Hn & _);
        generalize dependent (publishDingState x false)
    end;
    intros w3 Hc1 Hc2 Hc3 Hc4 Ht Hn; simpl in *;
    rewrite Hc1, Hc3, Hc4, Ht, Hn; repeat split; assumption.
Qed.

Lemma fire_lock_fields w h t :
  timers w !! h = Some t -> action t = RevertLock ->
  nextTimer (fire w h) = nextTimer w /\
  timers (fire w h) = delete h (timers w) /\
  unlockTimeout (lock (fire w h)) = None /\
  lock_state (lock (fire w h)) = "LOCKED" /\
  ding (fire w h) = ding w /\
  out (fire w h) =
    out w ++ (if differs "LOCKED" (lock_publishedState (lock w))
              then [MqttPublish (lock_state_topic (entity w)) (Text "LOCKED") false]
              else []).
Proof.
  intros Hl Ha. unfold fire. rewrite Hl, Ha. unfold runCallback, publishLockState. simpl.
  rewrite orb_false_r.
  destruct (differs "LOCKED" (lock_publishedState (lock w))); simpl; repeat split.
  rewrite app_nil_r. reflexivity.
Qed.

Lemma fire_ding_fields w h t :
  timers w !! h = Some t -> action t = RevertDing ->
  nextTimer (fire w h) = nextTimer w /\
  timers (fire w h) = delete h (timers w) /\
  ding_timeout (ding (fire w h)) = None /\
  ding_state (ding (fire w h)) = "OFF" /\
  lock (fire w h) = lock w /\
  out (fire w h) =
    out w ++ (if differs "OFF" (ding_publishedState (ding w))
              then [MqttPublish (ding_state_topic (entity w)) (Text "OFF") false]
              else []).
Proof.
  intros Hl Ha. unfold fire. rewrite Hl, Ha. unfold runCallback, publishDingState. simpl.
  rewrite orb_false_r.
  destruct (differs "OFF" (ding_publishedState (ding w))); simpl; repeat split.
  rewrite app_nil_r. reflexivity.
Qed.

Lemma timersOwned_setDoorUnlocked w : timersOwned w -> timersOwned (setDoorUnlocked w).
Proof.
  intros H. destruct (setDoorUnlocked_fields w) as (Hn & Ht & Hh & _ & _ & Hd & _).
  apply (timersOwned_rearm w _ RevertLock H Hn Ht Hh).
  intros [] Hne; [unfold handleOf; rewrite Hd; reflexivity | contradiction].
Qed.

Lemma timersOwned_processDing w : timersOwned w -> timersOwned (processDing w).
Proof.
  intros H. destruct (processDing_fields w) as (Hn & Ht & Hh & _ & _ & Hl & _).
  apply (timersOwned_rearm w _ RevertDing H Hn Ht Hh).
  intros [] Hne; [contradiction | unfold handleOf; rewrite Hl; reflexivity].
Qed.

Lemma timersOwned_fire w h : timersOwned w -> timersOwned (fire w h).
Proof.
  intros H. destruct (timers w !! h) as [t|] eqn:Hl.
  - destruct (action t) eqn:Ha.
    + destruct (fire_ding_fields w h t Hl Ha) as (Hn & Ht & Hh & _ & Hlock & _).
      apply (timersOwned_disarm w _ h t H Hl Hn Ht); rewrite Ha; [exact Hh|].
      intros [] Hne; [contradiction | unfold handleOf; rewrite Hlock; reflexivity].
    + destruct (fire_lock_fields w h t Hl Ha) as (Hn & Ht & Hh & _ & Hding & _).
      apply (timersOwned_disarm w _ h t H Hl Hn Ht); rewrite Ha; [exact Hh|].
      intros [] Hne; [unfold handleOf; rewrite Hding; reflexivity | contradiction].
  - unfold fire. rewrite Hl. exact H.
Qed.

Section Runs.

Variable toLowerCase : string -> string.

(** A command is an unlock, or it leaves timers, handles and states alone. *)
Lemma processCommand_cases w command message unlocked :
  (String.eqb command "lock/command" && String.eqb (toLowerCase message) "unlock" && unlocked = true /\
   exists w0, frame w w0 /\ lock w0 = lock w /\ ding w0 = ding w /\
              processCommand toLowerCase w command message unlocked = setDoorUnlocked w0) \/
  (String.eqb command "lock/command" && String.eqb (toLowerCase message) "unlock" && unlocked = false /\
   frame w (processCommand toLowerCase w command message unlocked) /\
   (lock_publishedState (lock w) = Some (lock_state (lock w)) ->
    lock_publishedState (lock (processCommand toLowerCase w command message unlocked))
    = Some (lock_state (lock w)))).
Proof.
  unfold processCommand, setLockState.
  destruct (String.eqb command "lock/command"); simpl; [|right; repeat split; auto].
  destruct (String.eqb_spec (toLowerCase message) "lock") as [Heq|Hne].
  - right. rewrite Heq. simpl.
    destruct (String.eqb (lock_state (lock w)) "UNLOCKED").
    + split; [reflexivity|]. split.
      * eapply frame_trans; [apply (frame_emit w)|apply frame_publishLockState].
      * intros Hp. match goal with
                   | |- context [publishLockState ?x false] =>
                       destruct (publishLockState_cache x false) as (H1 & _)
                   end.
        rewrite H1. reflexivity.
    + repeat split; auto.
  - destruct (String.eqb (toLowerCase message) "unlock"); simpl; [|right; repeat split; auto].
    destruct unlocked; [left|right; repeat split; auto].
    split; [reflexivity|].
    exists (emit (emit w (Debug "Received unlock door command, sending unlock command to intercom"))
                 (Debug "Request to unlock door was successful")).
    repeat split.
Qed.

Lemma timersOwned_step w e : timersOwned w -> timersOwned (step toLowerCase w e).
Proof.
  intros H. destruct e as [| |data now|command message unlocked|h]; simpl.
  - apply timersOwned_setDoorUnlocked. exact H.
  - apply timersOwned_processDing. exact H.
  - exact (timersOwned_frame _ _ (frame_publishState w data now) H).
  - destruct (processCommand_cases w command message unlocked)
      as [(_ & w0 & Hf & _ & _ & ->)|(_ & Hf & _)].
    + apply timersOwned_setDoorUnlocked. exact (timersOwned_frame _ _ Hf H).
    + exact (timersOwned_frame _ _ Hf H).
  - apply timersOwned_fire. exact H.
Qed.

Lemma timersOwned_run es : forall w, timersOwned w -> timersOwned (run toLowerCase w es).
Proof.
  induction es as [|e es IH]; intros w H; simpl; [exact H|].
  apply IH, timersOwned_step, H.
Qed.

End Runs.

(** *** The pending unlock *)

Lemma publishState_lock_cache w data now :
  lock_publishedState (lock (publishState w data now)) = Some (lock_state (lock w)).
Proof.
  unfold publishState.
  destruct (publishDingState_cache w (match data with None => true | Some _ => false end))
    as (_ & _ & Hl & _).
  match goal with
  | |- context [publishLockState ?x ?b] =>
      destruct (publishLockState_cache x b) as (Hc & _)
  end.
  destruct data; cbv zeta.
  - rewrite Hc, Hl. reflexivity.
  - unfold publishAttributes. simpl. rewrite Hc, Hl. reflexivity.
Qed.

Section AutoRevert.

Variable toLowerCase : string -> string.

Lemma unlockedPending_step h w e :
  unlockedPending h w ->
  keepsUnlock toLowerCase h e = true ->
  unlockedPending h (step toLowerCase w e).
Proof.
  intros (Hown & Hh & Hs & Hp) Hk. unfold unlockedPending.
  split; [apply timersOwned_step; exact Hown|].
  destruct e as [| |data now|command message unlocked|h']; cbn [step keepsUnlock] in *.
  - discriminate.
  - destruct (processDing_fields w) as (_ & _ & _ & _ & _ & Hl & _).
    rewrite Hl. auto.
  - destruct (frame_publishState w data now) as (_ & _ & Hu & _ & Hls & _).
    rewrite Hu, Hls, publishState_lock_cache, Hs. auto.
  - destruct (processCommand_cases toLowerCase w command message unlocked)
      as [(Hc & _)|(_ & Hf & Hcache)].
    + rewrite Hc in Hk. discriminate.
    + destruct Hf as (_ & _ & Hu & _ & Hls & _).
      rewrite Hu, Hls, Hcache by congruence. rewrite Hs. auto.
  - apply negb_true_iff, Nat.eqb_neq in Hk.
    destruct (timers w !! h') as [t|] eqn:Hl.
    + destruct (action t) eqn:Ha.
      * destruct (fire_ding_fields w h' t Hl Ha) as (_ & _ & _ & _ & Hlock & _).
        rewrite Hlock. auto.
      * exfalso. destruct Hown as [H1 _]. apply H1 in Hl as [_ Hl].
        rewrite Ha in Hl. simpl in Hl. congruence.
    + unfold fire. rewrite Hl. auto.
Qed.

Lemma unlockedPending_run h es :
  forall w,
    unlockedPending h w ->
    Forall (fun e => keepsUnlock toLowerCase h e = true) es ->
    unlockedPending h (run toLowerCase w es).
Proof.
  induction es as [|e es IH]; intros w Hw Hall; simpl; [exact Hw|].
  apply Forall_cons_1 in Hall as [He Hes].
  apply IH; [apply unlockedPending_step; assumption | exact Hes].
Qed.

Lemma unlockedPending_setDoorUnlocked w :
  timersOwned w -> unlockedPending (nextTimer w) (setDoorUnlocked w).
Proof.
  intros H. destruct (setDoorUnlocked_fields w) as (_ & _ & Hh & Hs & Hp & _).
  split; [apply timersOwned_setDoorUnlocked; exact H|]. auto.
Qed.

(** C4. In every state the wrapper reaches, at most one timeout is pending
    per entity, each under the handle its entity holds. An unlock sets the
    lock to UNLOCKED, drops the timeout the lock held, if any, and arms one
    5-second timeout; a ding does the same for the ding entity, with ON and
    15 seconds. As long as no further unlock arrives, the lock stays UNLOCKED
    with that timeout pending, and when it expires the lock is LOCKED again,
    LOCKED is published and no timeout is left for the lock. *)
Theorem C4_unlock_auto_reverts_with_one_timer :
  (forall dev topics es,
     timersOwned (run toLowerCase (create dev topics) es) /\
     onePendingPerEntity (run toLowerCase (create dev topics) es)) /\
  (forall w,
     lock_state (lock (setDoorUnlocked w)) = "UNLOCKED" /\
     unlockTimeout (lock (setDoorUnlocked w)) = Some (nextTimer w) /\
     timers (setDoorUnlocked w) =
       <[nextTimer w := lockTimer]>
         (match unlockTimeout (lock w) with
          | Some h => delete h (timers w)
          | None => timers w
          end)) /\
  (forall w,
     ding_state (ding (processDing w)) = "ON" /\
     ding_timeout (ding (processDing w)) = Some (nextTimer w) /\
     timers (processDing w) =
       <[nextTimer w := dingTimer]>
         (match ding_timeout (ding w) with
          | Some h => delete h (timers w)
          | None => timers w
          end)) /\
  (forall w es,
     timersOwned w ->
     Forall (fun e => keepsUnlock toLowerCase (nextTimer w) e = true) es ->
     let w1 := run toLowerCase (setDoorUnlocked w) es in
     let w2 := fire w1 (nextTimer w) in
     lock_state (lock w1) = "UNLOCKED" /\
     timers w1 !! nextTimer w = Some lockTimer /\
     (forall h t, timers w1 !! h = Some t -> action t = RevertLock -> h = nextTimer w) /\
     lock_state (lock w2) = "LOCKED" /\
     unlockTimeout (lock w2) = None /\
     (forall h t, timers w2 !! h = Some t -> action t <> RevertLock) /\
     out w2 = out w1 ++ [MqttPublish (lock_state_topic (entity w1)) (Text "LOCKED") false]) /\
  (forall w,
     timersOwned w ->
     ding_state (ding (fire (processDing w) (nextTimer w))) = "OFF" /\
     ding_timeout (ding (fire (processDing w) (nextTimer w))) = None).
Proof.
  split.
  { intros dev topics es.
    pose proof (timersOwned_run toLowerCase es _ (timersOwned_create dev topics)) as H.
    split; [exact H | apply timersOwned_onePending; exact H]. }
  split.
  { intros w. destruct (setDoorUnlocked_fields w) as (_ & Ht & Hh & Hs & _). auto. }
  split.
  { intros w. destruct (processDing_fields w) as (_ & Ht & Hh & Hs & _). auto. }
  split.
  { intros w es Hown Hall w1 w2.
    pose proof (unlockedPending_run _ es _ (unlockedPending_setDoorUnlocked w Hown) Hall)
      as (Hown1 & Hh1 & Hs1 & Hp1).
    fold w1 in Hown1, Hh1, Hs1, Hp1.
    pose proof (proj2 Hown1 RevertLock _ Hh1) as Hl1. cbn [timerOf] in Hl1.
    destruct (fire_lock_fields w1 _ _ Hl1 eq_refl) as (_ & Ht2 & Hh2 & Hs2 & _ & Ho2).
    fold w2 in Ht2, Hh2, Hs2, Ho2.
    split; [exact Hs1|]. split; [exact Hl1|]. split.
    { intros h t Hl Ha. apply (proj1 Hown1) in Hl as [_ Hl]. rewrite Ha in Hl.
      simpl in Hl. congruence. }
    split; [exact Hs2|]. split; [exact Hh2|]. split.
    { intros h t Hl Ha. rewrite Ht2 in Hl. apply lookup_delete_Some in Hl as [Hne Hl].
      apply (proj1 Hown1) in Hl as [_ Hl]. rewrite Ha in Hl. simpl in Hl. congruence. }
    rewrite Ho2, Hp1. reflexivity. }
  intros w Hown.
  destruct (processDing_fields w) as (_ & _ & Hh & _).
  pose proof (timersOwned_processDing w Hown) as Hown1.
  pose proof (proj2 Hown1 RevertDing _ Hh) as Hl1. cbn [timerOf] in Hl1.
  destruct (fire_ding_fields _ _ _ Hl1 eq_refl) as (_ & _ & Hh2 & Hs2 & _).
  auto.
Qed.

End AutoRevert.

Lemma C4_unlock_auto_reverts_witness :
  timersOwned (create Examples.handset Examples.handsetTopics) /\
  lock_state
    (lock (run asciiLowerCase
               (setDoorUnlocked (create Examples.handset Examples.handsetTopics))
               [OnDing; PublishState None 0; Command "lock/command" "LOCK" true]))
  = "UNLOCKED" /\
  lock_state
    (lock (fire (run asciiLowerCase
                     (setDoorUnlocked (create Examples.handset Examples.handsetTopics))
                     [OnDing; PublishState None 0; Command "lock/command" "LOCK" true])
                0%nat))
  = "LOCKED".
Proof.
  split; [apply timersOwned_create|].
  destruct (C4_unlock_auto_reverts_with_one_timer asciiLowerCase) as (_ & _ & _ & H & _).
  destruct (H (create Examples.handset Examples.handsetTopics)
              [OnDing; PublishState None 0; Command "lock/command" "LOCK" true]
              (timersOwned_create _ _)) as (H1 & _ & _ & H2 & _).
  - repeat constructor.
  - split; [exact H1 | exact H2].
Defined.

End IntercomFacts.

(** ** Topic construction *)

Module TopicsFacts.
Import Topics.

Lemma append_cancel_l (s a b : string) : s +:+ a = s +:+ b -> a = b.
Proof.
  induction s as [|c s IH]; simpl; intros H; [exact H|].
  inversion H. auto.
Qed.

(** The contact sensor builds its topics by the scheme. *)
Lemma contactSensor_topics_on_scheme c :
  let c' := contactSensorInit c in
  let entity := if String.eqb (cs_deviceType c) "sensor.zone" then "zone" else "contact" in
  cs_configTopic c' =
    Some (configTopicScheme "binary_sensor" (cs_locationId c) (cs_deviceId c)) /\
  stateTopic c' =
    Some (stateTopicScheme (cs_alarmTopic c) "binary_sensor" (cs_deviceId c) entity) /\
  attributesTopic c' =
    Some (attributesTopicScheme (cs_alarmTopic c) "binary_sensor" (cs_deviceId c)) /\
  cs_availabilityTopic c' =
    Some (statusTopicScheme (cs_alarmTopic c) "binary_sensor" (cs_deviceId c)).
Proof. repeat split. Qed.

(** Without a global named [availabilityTopic], [Beam.init] stops at its
    first statement; without one named [deviceType], at its first comparison.
    Either way no topic is assigned. *)
Lemma beam_init_throws g b :
  g !! "availabilityTopic" = None \/ g !! "deviceType" = None ->
  (exists name, error (init g b) = Some (ReferenceError (name +:+ " is not defined"))) /\
  stateTopic_motion (this (init g b)) = stateTopic_motion b /\
  stateTopic_light (this (init g b)) = stateTopic_light b /\
  configTopic (this (init g b)) = configTopic b.
Proof.
  intros Hg. unfold init.
  destruct (g !! "availabilityTopic") as [a|] eqn:Ha.
  - destruct Hg as [Hg|Hg]; [discriminate|].
    rewrite lookup_insert_ne by discriminate. rewrite Hg.
    split; [exists "deviceType"; reflexivity | repeat split].
  - split; [exists "availabilityTopic"; reflexivity | repeat split].
Qed.

(** Where both globals exist, the motion entity is on the scheme, the
    light entity's state topic is not: it lacks the separator before the
    entity name. The availability topic goes to the global variable. *)
Lemma beam_init_topics g b a deviceType :
  g !! "availabilityTopic" = Some a ->
  g !! "deviceType" = Some deviceType ->
  (deviceType <> "switch.transformer.beams" ->
   stateTopic_motion (this (init g b)) =
     Some (stateTopicScheme (alarmTopic b) "binary_sensor" (deviceId b) "motion") /\
   attributesTopic_motion (this (init g b)) =
     Some (attributesTopicScheme (alarmTopic b) "binary_sensor" (deviceId b)) /\
   configTopic_motion (this (init g b)) =
     Some (configTopicScheme "binary_sensor" (locationId b) (deviceId b))) /\
  (deviceType <> "motion-sensor.beams" ->
   stateTopic_light (this (init g b)) =
     Some (deviceTopicScheme (alarmTopic b) "light" (deviceId b) +:+ "switch_state") /\
   stateTopic_light (this (init g b)) <>
     Some (stateTopicScheme (alarmTopic b) "light" (deviceId b) "switch") /\
   configTopic_light (this (init g b)) =
     Some (configTopicScheme "light" (locationId b) (deviceId b))) /\
  availabilityTopic (this (init g b)) = availabilityTopic b /\
  globals (init g b) !! "availabilityTopic" =
    Some (alarmTopic b +:+ "/beam/" +:+ deviceId b +:+ "/status").
Proof.
  intros Ha Hg. unfold init. rewrite Ha.
  rewrite lookup_insert_ne by discriminate. rewrite Hg. cbn [this globals].
  split; [|split; [|split]].
  - intros Hne. apply String.eqb_neq in Hne. cbn [stateTopic_motion attributesTopic_motion
      configTopic_motion]. rewrite Hne. repeat split.
  - intros Hne. apply String.eqb_neq in Hne. cbn [stateTopic_light configTopic_light].
    rewrite Hne. cbn [negb str]. split; [reflexivity|]. split; [|reflexivity].
    intros H. inversion H as [H'].
    apply (append_cancel_l (deviceTopicScheme (alarmTopic b) "light" (deviceId b))) in H'.
    discriminate H'.
  - reflexivity.
  - apply lookup_insert_eq.
Qed.

(** C5 (the code departs from the claim). Every entity is claimed to have
    its topics on the scheme, the light entity of the Beam wrapper included.
    For a dimmable light, [Beam.init] throws a [ReferenceError] at its first
    statement, the assignment to the undeclared name [availabilityTopic], and
    assigns no topic at all; and were that name and [deviceType] bound, the
    light entity's state topic would come out as
    ".../light/dev1switch_state" instead of ".../light/dev1/switch_state",
    while the availability topic ".../beam/dev1/status" is stored in the
    global variable and not in the wrapper. *)
Theorem C5_beam_light_topics_off_scheme :
  error (init Examples.noGlobals Examples.dimmer) =
    Some (ReferenceError "availabilityTopic is not defined") /\
  stateTopic_light (this (init Examples.noGlobals Examples.dimmer)) = None /\
  configTopic_light (this (init Examples.noGlobals Examples.dimmer)) = None /\
  error (init Examples.boundGlobals Examples.dimmer) = None /\
  stateTopic_light (this (init Examples.boundGlobals Examples.dimmer)) =
    Some "ring/loc1/alarm/light/dev1switch_state" /\
  stateTopicScheme "ring/loc1/alarm" "light" "dev1" "switch" =
    "ring/loc1/alarm/light/dev1/switch_state" /\
  availabilityTopic (this (init Examples.boundGlobals Examples.dimmer)) = None /\
  globals (init Examples.boundGlobals Examples.dimmer) !! "availabilityTopic" =
    Some "ring/loc1/alarm/beam/dev1/status" /\
  statusTopicScheme "ring/loc1/alarm" "light" "dev1" = "ring/loc1/alarm/light/dev1/status".
Proof. repeat split; vm_compute; reflexivity. Qed.

End TopicsFacts.

(** ** The media bridge supervisor *)

Module MediaMTXFacts.
Import MediaMTX.

(** A close handler that wakes up with the flag at ['shutdown'] does nothing. *)
Lemma close_after_shutdown_is_ignored m :
  started m = StartedShutdown -> resume CloseSleep m = m.
Proof. intros H. unfold resume. rewrite H. reflexivity. Qed.

(** A close handler that wakes up with the flag not at ['shutdown'] kills
    the current process with signal 9 and waits to restart; the restart
    spawns one new process and sets the flag to [true], whatever it was. *)
Lemma close_before_shutdown_restarts m p :
  started m <> StartedShutdown -> mediamtxProcess m = Some p ->
  resume CloseSleep m = suspend RestartSleep (emit (Kill p (Some 9)) (emit Unexpected m)) /\
  out (resume RestartSleep m) = out m ++ [Spawn (spawned m)] /\
  started (resume RestartSleep m) = StartedTrue.
Proof.
  intros Hs Hp. unfold resume. destruct (decide (started m = StartedShutdown)); [contradiction|].
  simpl. rewrite Hp. repeat split.
Qed.

(** C10 (the code departs from the claim). After [shutdown()] no close
    event is to cause a restart. When the process exits and [shutdown()] is
    called during the 5 seconds the close handler waits before restarting,
    the handler goes on to call [init()], which spawns process 1 and writes
    [true] over the ['shutdown'] flag; the later exit of process 1 then
    passes the handler's check and process 2 is spawned. *)
Theorem C10_restart_after_shutdown :
  started (run initial (firstn 5 Examples.crashThenShutdown)) = StartedShutdown /\
  out (run initial (firstn 5 Examples.crashThenShutdown)) =
    [ConfigWritten; Spawn 0; Unexpected; Kill 0 (Some 9); Kill 0 None] /\
  started (run initial (firstn 6 Examples.crashThenShutdown)) = StartedTrue /\
  out (run initial Examples.crashThenShutdown) =
    [ ConfigWritten; Spawn 0; Unexpected; Kill 0 (Some 9); Kill 0 None;
      Spawn 1; Unexpected; Kill 1 (Some 9); Spawn 2 ] /\
  started (run initial Examples.crashThenShutdown) = StartedTrue /\
  mediamtxProcess (run initial Examples.crashThenShutdown) = Some 2%nat.
Proof. repeat split; vm_compute; reflexivity. Qed.

End MediaMTXFacts.

(** ** Further properties of the device mapper *)

Module MapperMore.
Import Mapper MapperTerms MapperFacts.

Lemma callCreator_verdict T f device info allDevices m :
  callCreator T f device info allDevices = Normal m -> isInstance m = true \/ m = Ignore.
Proof.
  destruct f; cbn [callCreator].
  - intros H. inversion H. auto.
  - unfold createSecurityDevice. intros H. inversion H. auto.
  - intros H. inversion H. auto.
  - unfold handleTemperatureSensor.
    destruct (di_parentDevice info) as [[parent|]|].
    + destruct (String.eqb (dev_deviceType parent) (RingDeviceType.Thermostat T));
        intros H; inversion H; auto.
    + discriminate.
    + intros H; inversion H; auto.
  - destruct (strictEq (dev_categoryId device) (JNum 17)); intros H; inversion H; auto.
  - destruct (dev_tags device) as [tags|].
    + destruct (existsb (String.eqb "hidden") tags); intros H; inversion H; auto.
    + intros H; inversion H; auto.
  - intros H. inversion H. auto.
Qed.

Lemma callCreator_throws T f device info allDevices e :
  callCreator T f device info allDevices = Throw e ->
  f = HandleTemperatureSensor /\ di_parentDevice info = Some None.
Proof.
  destruct f; cbn [callCreator]; try discriminate.
  - unfold handleTemperatureSensor.
    destruct (di_parentDevice info) as [[parent|]|]; [|auto|discriminate].
    destruct (String.eqb (dev_deviceType parent) (RingDeviceType.Thermostat T)); discriminate.
  - destruct (strictEq (dev_categoryId device) (JNum 17)); discriminate.
  - destruct (dev_tags device) as [tags|]; [|discriminate].
    destruct (existsb (String.eqb "hidden") tags); discriminate.
Qed.

(** ["lock"] is always an own key of the table. *)
Lemma ownProperty_lock_defined T : ownProperty (creators T) "lock" <> None.
Proof.
  intros H. apply ownProperty_None in H. apply H. unfold creators. simpl. tauto.
Qed.

(** A property read under a name that [Object.prototype] does not have
    yields a table closure or [undefined]. *)
Lemma getProperty_plain T device k :
  inObjectPrototype k = false \/ ownProperty (creators T) k <> None ->
  (exists f, getProperty T device k = Closure f) \/ getProperty T device k = Undefined.
Proof.
  intros H. unfold getProperty.
  destruct (ownProperty (creators T) k) as [[f|]|].
  - left. eauto.
  - destruct (startsWith (dev_deviceType device) "lock." || String.eqb (dev_deviceType device) "lock");
      [left; eauto | right; reflexivity].
  - destruct H as [H|H]; [rewrite H; right; reflexivity | contradiction].
Qed.

(** The closure [mapByDeviceType] ends up calling, if any. *)
Lemma mapByDeviceType_plain T device info allDevices :
  inObjectPrototype (dev_deviceType device) = false ->
  (exists f, mapByDeviceType T device info allDevices = callCreator T f device info allDevices) \/
  mapByDeviceType T device info allDevices = Normal NotSupported.
Proof.
  intros Hplain. unfold mapByDeviceType.
  destruct (getProperty_plain T device (dev_deviceType device) (or_introl Hplain)) as [[f ->]| ->].
  - left. eauto.
  - destruct (getProperty_plain T device "lock" (or_intror (ownProperty_lock_defined T)))
      as [[f ->]| ->]; [left; eauto | right; reflexivity].
Qed.

Lemma buildDeviceInfo_parent device allDevices :
  di_parentDevice (buildDeviceInfo device allDevices) = Some None <->
  exists z, parentZid (dev_data device) = Some z /\
            List.find (fun d => strictEq (dev_id d) z) allDevices = None.
Proof.
  unfold buildDeviceInfo. simpl. destruct (parentZid (dev_data device)) as [z|].
  - split.
    + intros H. exists z. inversion H. auto.
    + intros (z' & Hz & Hf). inversion Hz. subst. rewrite Hf. reflexivity.
  - split; [discriminate|]. intros (z & Hz & _). discriminate.
Qed.

(** X1. [mapDevice] returns normally, with a wrapper, Ignore or
    Unsupported, for every chime and intercom, for every camera that has an
    id or no event to filter, and for every other device whose type is no
    member name of [Object.prototype] and whose parent reference, if it has
    one, names a device of the list. *)
Theorem mapDevice_returns_a_verdict T device allDevices events :
  (dev_class device = RingCamera -> dev_id device <> JUndef \/ events = []) ->
  (dev_class device = RingDevice ->
   inObjectPrototype (dev_deviceType device) = false /\
   forall z, parentZid (dev_data device) = Some z ->
             List.find (fun d => strictEq (dev_id d) z) allDevices <> None) ->
  exists m, mapDevice T device allDevices events = Normal m /\ verdict m.
Proof.
  intros Hcam Hdev. unfold mapDevice, verdict. destruct (dev_class device).
  - unfold filterDeviceEvents. destruct events as [|ev events].
    + eexists. split; [reflexivity | auto].
    + destruct (Hcam eq_refl) as [Hid|Hnil]; [|discriminate].
      destruct (dev_id device) as [|s|n]; [contradiction| |]; simpl;
        eexists; (split; [reflexivity | auto]).
  - eexists. split; [reflexivity | auto].
  - eexists. split; [reflexivity | auto].
  - destruct (Hdev eq_refl) as [Hplain Hparent].
    destruct (mapByDeviceType_plain T device (buildDeviceInfo device allDevices) allDevices Hplain)
      as [[f Hf]|Hf]; rewrite Hf; [|eauto].
    destruct (callCreator T f device (buildDeviceInfo device allDevices) allDevices) as [m|e] eqn:Hc.
    + exists m. split; [reflexivity|]. apply callCreator_verdict in Hc. tauto.
    + exfalso. apply callCreator_throws in Hc as [_ Hc].
      apply buildDeviceInfo_parent in Hc as (z & Hz & Hfind).
      exact (Hparent z Hz Hfind).
Qed.

Lemma mapDevice_returns_a_verdict_witness :
  exists m, mapDevice ringClientApi Examples.thermostatSensor
              [Examples.thermostat; Examples.thermostatSensor] [] = Normal m /\ verdict m.
Proof.
  apply mapDevice_returns_a_verdict.
  - discriminate.
  - intros _. split; [reflexivity|].
    intros z Hz. inversion Hz. subst. discriminate.
Defined.

(** X2. A device whose type the table maps through
    [handleTemperatureSensor] and whose parent is in the list is ignored
    exactly when that parent is a thermostat; otherwise, and when it names no
    parent at all, it gets a TemperatureSensor wrapper built from its device
    info. *)
Theorem temperature_sensor_follows_its_parent T device allDevices events :
  dev_class device = RingDevice ->
  ownProperty (creators T) (dev_deviceType device) = Some (Value HandleTemperatureSensor) ->
  (forall z parent,
     parentZid (dev_data device) = Some z ->
     List.find (fun d => strictEq (dev_id d) z) allDevices = Some parent ->
     mapDevice T device allDevices events =
     Normal (if String.eqb (dev_deviceType parent) (RingDeviceType.Thermostat T)
             then Ignore
             else Instance TemperatureSensor (buildDeviceInfo device allDevices) None)) /\
  (parentZid (dev_data device) = None ->
   mapDevice T device allDevices events =
   Normal (Instance TemperatureSensor (buildDeviceInfo device allDevices) None)).
Proof.
  intros Hc Hp.
  assert (Hmap : mapDevice T device allDevices events =
                 handleTemperatureSensor T (buildDeviceInfo device allDevices)).
  { rewrite mapDevice_RingDevice by exact Hc.
    unfold mapByDeviceType, getProperty. rewrite Hp. reflexivity. }
  rewrite Hmap. unfold handleTemperatureSensor.
  assert (Hinfo : di_parentDevice (buildDeviceInfo device allDevices) =
                  match parentZid (dev_data device) with
                  | Some z => Some (List.find (fun d => strictEq (dev_id d) z) allDevices)
                  | None => None
                  end) by reflexivity.
  rewrite Hinfo. split.
  - intros z parent Hz Hf. rewrite Hz, Hf.
    destruct (String.eqb (dev_deviceType parent) (RingDeviceType.Thermostat T)); reflexivity.
  - intros Hz. rewrite Hz. reflexivity.
Qed.

Lemma temperature_sensor_follows_its_parent_witness :
  mapDevice ringClientApi Examples.thermostatSensor
            [Examples.thermostat; Examples.thermostatSensor] [] = Normal Ignore.
Proof.
  destruct (temperature_sensor_follows_its_parent ringClientApi Examples.thermostatSensor
              [Examples.thermostat; Examples.thermostatSensor] [] eq_refl eq_refl) as [H _].
  exact (H (JStr "th1") Examples.thermostat eq_refl eq_refl).
Defined.

(** X3. The security panel and its sensors are linked both ways. Where the
    panel's tag and the five bypass-capable tags resolve to their table
    entries, the first panel of the list gets a SecurityPanel wrapper whose
    bypass list holds the devices of the list with one of the five tags, and
    each device of that bypass list gets a BinarySensor wrapper that carries
    this panel. *)
Theorem security_panel_and_sensors_linked T panel allDevices events :
  ownProperty (creators T) (RingDeviceType.SecurityPanel T) = Some (Value NewSecurityPanel) ->
  Forall (fun k => ownProperty (creators T) k = Some (Value CreateSecurityDevice))
         (bypassableTypes T) ->
  dev_class panel = RingDevice ->
  dev_deviceType panel = RingDeviceType.SecurityPanel T ->
  List.find (fun d => String.eqb (dev_deviceType d) (RingDeviceType.SecurityPanel T))
            allDevices = Some panel ->
  mapDevice T panel allDevices events =
    Normal (Instance SecurityPanel
              (set_bypassCapableDevices (buildDeviceInfo panel allDevices)
                                        (getBypassCapableDevices T allDevices)) None) /\
  (forall d, In d (getBypassCapableDevices T allDevices) <->
             In d allDevices /\ In (dev_deviceType d) (bypassableTypes T)) /\
  (forall d, In d (getBypassCapableDevices T allDevices) ->
             dev_class d = RingDevice ->
             mapDevice T d allDevices events =
             Normal (Instance BinarySensor
                       (set_securityPanel (buildDeviceInfo d allDevices) (Some panel)) None)).
Proof.
  intros Hpanel Hsensors Hclass Htype Hfirst.
  assert (Hmem : forall d, In d (getBypassCapableDevices T allDevices) <->
                           In d allDevices /\ In (dev_deviceType d) (bypassableTypes T)).
  { intros d. unfold getBypassCapableDevices. rewrite filter_In, existsb_exists.
    fold (bypassableTypes T). split.
    - intros [Hd (k & Hk & Heq)]. apply String.eqb_eq in Heq. subst k. auto.
    - intros [Hd Hk]. split; [exact Hd|]. exists (dev_deviceType d).
      split; [exact Hk | apply String.eqb_refl]. }
  split; [|split; [exact Hmem|]].
  - rewrite mapDevice_RingDevice by exact Hclass.
    unfold mapByDeviceType, getProperty. rewrite Htype, Hpanel. reflexivity.
  - intros d Hd Hdclass. apply Hmem in Hd as [_ Hk].
    rewrite List.Forall_forall in Hsensors. specialize (Hsensors _ Hk).
    rewrite mapDevice_RingDevice by exact Hdclass.
    unfold mapByDeviceType, getProperty. rewrite Hsensors. cbn [callCreator].
    unfold createSecurityDevice. rewrite Hfirst. reflexivity.
Qed.

Lemma security_panel_and_sensors_witness :
  In Samples.frontDoorSensor (getBypassCapableDevices ringClientApi Samples.alarmDevices) /\
  mapDevice ringClientApi Samples.frontDoorSensor Samples.alarmDevices [] =
    Normal (Instance BinarySensor
              (set_securityPanel (buildDeviceInfo Samples.frontDoorSensor Samples.alarmDevices)
                                 (Some Samples.panel)) None).
Proof.
  destruct (security_panel_and_sensors_linked ringClientApi Samples.panel Samples.alarmDevices [])
    as (_ & Hmem & Hmap); try reflexivity.
  - repeat constructor.
  - assert (Hin : In Samples.frontDoorSensor
                     (getBypassCapableDevices ringClientApi Samples.alarmDevices)).
    { apply Hmem. split; simpl; tauto. }
    split; [exact Hin | exact (Hmap _ Hin eq_refl)].
Defined.

(** *** Discovery runs *)

Lemma find_app {A} (f : A -> bool) (l1 l2 : list A) :
  List.find f (l1 ++ l2) =
  match List.find f l1 with Some x => Some x | None => List.find f l2 end.
Proof.
  induction l1 as [|x l1 IH]; simpl; [reflexivity|].
  destruct (f x); [reflexivity | exact IH].
Qed.

Lemma settled_grows T allDevices events registry added d :
  settled T allDevices events registry d ->
  settled T allDevices events (registry ++ added) d.
Proof.
  intros [[e He]|Hm]; [left | right; exact Hm].
  exists e. rewrite find_app, He. reflexivity.
Qed.

(** A mapping result that is registered is a wrapper instance, for a device
    of plain type. *)
Lemma registers_instance T d allDevices events m :
  plainType d ->
  mapDevice T d allDevices events = Normal m ->
  registers m = true ->
  isInstance m = true.
Proof.
  intros Hplain Hmap Hreg.
  assert (Hv : verdict m).
  { unfold mapDevice in Hmap. destruct (dev_class d) eqn:Hc.
    - destruct (filterDeviceEvents d events); simpl in Hmap; [|discriminate].
      inversion Hmap. left. reflexivity.
    - inversion Hmap. left. reflexivity.
    - inversion Hmap. left. reflexivity.
    - destruct (mapByDeviceType_plain T d (buildDeviceInfo d allDevices) allDevices
                  (Hplain Hc)) as [[f Hf]|Hf]; rewrite Hf in Hmap.
      + apply callCreator_verdict in Hmap. unfold verdict. tauto.
      + inversion Hmap. right. right. reflexivity. }
  destruct Hv as [Hv|[->| ->]]; [exact Hv | discriminate Hreg | discriminate Hreg].
Qed.

(** What the loop body does, by the verdict of the mapper. *)
Lemma processDevice_cases T allDevices events st d :
  (exists e,
     List.find (fun r => strictEq (deviceId r) (getDeviceId d)) (devices st) = Some e /\
     devices (fst (processDevice T allDevices events st d)) = devices st /\
     snd (processDevice T allDevices events st d) = None) \/
  (List.find (fun r => strictEq (deviceId r) (getDeviceId d)) (devices st) = None /\
   ((exists e, mapDevice T d allDevices events = Throw e /\
               devices (fst (processDevice T allDevices events st d)) = devices st /\
               snd (processDevice T allDevices events st d) = Some e) \/
    (exists m, mapDevice T d allDevices events = Normal m /\
               devices (fst (processDevice T allDevices events st d)) =
                 devices st ++ (if registers m then [m] else []) /\
               snd (processDevice T allDevices events st d) = None))).
Proof.
  unfold processDevice, registers.
  destruct (List.find _ (devices st)) as [e|] eqn:Hfind.
  - left. exists e. auto.
  - right. split; [reflexivity|].
    destruct (mapDevice T d allDevices events) as [m|e].
    + right. exists m. split; [reflexivity|].
      destruct (isStr m "not-supported"); simpl.
      * rewrite app_nil_r. auto.
      * destruct (truthy m && negb (isStr m "ignore")); simpl; [auto|].
        rewrite app_nil_r. auto.
    + left. exists e. auto.
Qed.

Lemma find_exists {A} (f : A -> bool) (l : list A) (x : A) :
  In x l -> f x = true -> exists y, List.find f l = Some y.
Proof.
  intros Hin Hf. destruct (List.find f l) as [y|] eqn:E; [eauto|].
  apply (List.find_none _ _ E) in Hin. congruence.
Qed.

(** After a run that ends normally, every device it went through is settled. *)
Lemma processLoop_settles T allDevices events pending :
  forall st st',
    Forall plainType pending ->
    processLoop T allDevices events pending st = (st', None) ->
    (exists added, devices st' = devices st ++ added) /\
    Forall (settled T allDevices events (devices st')) pending.
Proof.
  induction pending as [|d rest IH]; intros st st' Hplain Hrun; simpl in Hrun.
  - inversion Hrun. subst. split; [exists []; rewrite app_nil_r; reflexivity | constructor].
  - apply Forall_cons_1 in Hplain as [Hd Hrest].
    destruct (processDevice T allDevices events st d) as [st1 [err|]] eqn:Hstep;
      [discriminate|].
    destruct (IH st1 st' Hrest Hrun) as [[added Hadd] Hsettled].
    pose proof (processDevice_cases T allDevices events st d) as Hcases.
    rewrite Hstep in Hcases. simpl in Hcases.
    destruct Hcases as [(e & Hfind & Hdev & _)|(Hfind & [(e & _ & _ & He)|(m & Hmap & Hdev & _)])];
      [| discriminate |].
    + split; [exists added; rewrite Hadd, Hdev; reflexivity|].
      constructor; [|exact Hsettled].
      rewrite Hadd, Hdev. apply settled_grows. left. eauto.
    + split; [eexists; rewrite Hadd, Hdev, <- app_assoc; reflexivity|].
      constructor; [|exact Hsettled].
      rewrite Hadd. apply settled_grows. rewrite Hdev.
      destruct (registers m) eqn:Hreg.
      * left. pose proof (registers_instance T d allDevices events m Hd Hmap Hreg) as Hinst.
        destruct m as [c i evs| | |]; try discriminate.
        apply mapDevice_keeps_links in Hmap as (Hdevice & _).
        apply (find_exists _ _ (Instance c i evs)).
        -- apply in_or_app. right. simpl. auto.
        -- simpl. rewrite Hdevice. apply strictEq_refl.
      * right. exists m. auto.
Qed.

(** On devices that are settled, a run changes nothing and ends normally. *)
Lemma processLoop_settled T allDevices events pending :
  forall st,
    Forall (settled T allDevices events (devices st)) pending ->
    devices (fst (processLoop T allDevices events pending st)) = devices st /\
    snd (processLoop T allDevices events pending st) = None.
Proof.
  induction pending as [|d rest IH]; intros st Hsettled; simpl; [auto|].
  apply Forall_cons_1 in Hsettled as [Hd Hrest].
  pose proof (processDevice_cases T allDevices events st d) as Hcases.
  destruct (processDevice T allDevices events st d) as [st1 err] eqn:Hstep.
  simpl in Hcases.
  assert (Hsame : devices st1 = devices st /\ err = None).
  { destruct Hcases as [(e & _ & Hdev & He)|(Hfind & Hmap)]; [auto|].
    destruct Hd as [[e He]|(m & Hm & Hreg)]; [congruence|].
    destruct Hmap as [(e & Hthrow & _)|(m' & Hm' & Hdev & He)]; [congruence|].
    rewrite Hm in Hm'. inversion Hm'. subst m'. rewrite Hreg, app_nil_r in Hdev. auto. }
  destruct Hsame as [Hdev ->]. rewrite <- Hdev in Hrest.
  destruct (IH st1 Hrest) as [H1 H2]. rewrite H1, H2. auto.
Qed.

Lemma processDevices_loop T enable_modes loc devs cameras chimes intercoms events registry :
  devices (fst (processDevices T enable_modes loc devs cameras chimes intercoms events registry)) =
    devices (fst (processLoop T (allDevicesOf enable_modes loc devs cameras chimes intercoms)
                    events (allDevicesOf enable_modes loc devs cameras chimes intercoms)
                    {| devices := registry; unsupportedDevices := []; log := [] |})) /\
  snd (processDevices T enable_modes loc devs cameras chimes intercoms events registry) =
    snd (processLoop T (allDevicesOf enable_modes loc devs cameras chimes intercoms)
           events (allDevicesOf enable_modes loc devs cameras chimes intercoms)
           {| devices := registry; unsupportedDevices := []; log := [] |}).
Proof.
  unfold processDevices, allDevicesOf.
  match goal with
  | |- context [processLoop T ?all events ?all ?st0] =>
      destruct (processLoop T all events all st0) as [st [err|]]
  end; auto.
Qed.

Lemma plainType_allDevices enable_modes loc devs cameras chimes intercoms :
  Forall plainType (devs ++ cameras ++ chimes ++ intercoms) ->
  Forall plainType (allDevicesOf enable_modes loc devs cameras chimes intercoms).
Proof.
  intros H. unfold allDevicesOf. apply Forall_app. split; [exact H|].
  destruct (enable_modes && supportsLocationModeSwitching loc); repeat constructor.
Qed.

(** X4. Discovery is idempotent. When a run of [processDevices] over
    devices of plain type ends normally, a second run over the same input on
    the registry it produced leaves that registry as it is and ends normally
    too. *)
Theorem rediscovery_changes_nothing
        T enable_modes loc devs cameras chimes intercoms events registry :
  Forall plainType (devs ++ cameras ++ chimes ++ intercoms) ->
  snd (processDevices T enable_modes loc devs cameras chimes intercoms events registry) = None ->
  let registry1 :=
    devices (fst (processDevices T enable_modes loc devs cameras chimes intercoms
                                 events registry)) in
  devices (fst (processDevices T enable_modes loc devs cameras chimes intercoms
                               events registry1)) = registry1 /\
  snd (processDevices T enable_modes loc devs cameras chimes intercoms events registry1) = None.
Proof.
  intros Hplain Hok registry1.
  apply (plainType_allDevices enable_modes loc) in Hplain.
  destruct (processDevices_loop T enable_modes loc devs cameras chimes intercoms events registry)
    as [Hdev1 Herr1].
  destruct (processDevices_loop T enable_modes loc devs cameras chimes intercoms events registry1)
    as [Hdev2 Herr2].
  rewrite Herr1 in Hok. rewrite Hdev2, Herr2.
  destruct (processLoop T _ events _ {| devices := registry; unsupportedDevices := []; log := [] |})
    as [st1 err1] eqn:Hrun. simpl in Hok, Hdev1. subst err1.
  destruct (processLoop_settles _ _ _ _ _ _ Hplain Hrun) as [_ Hsettled].
  fold registry1 in Hdev1. rewrite <- Hdev1 in Hsettled.
  apply (processLoop_settled T _ events _
           {| devices := registry1; unsupportedDevices := []; log := [] |} Hsettled).
Qed.

Lemma rediscovery_changes_nothing_witness :
  let registry1 :=
    devices (fst (processDevices ringClientApi true Examples.home Samples.alarmDevices
                    [Samples.doorbellCamera] [] [] [] [])) in
  length registry1 = 4%nat /\
  devices (fst (processDevices ringClientApi true Examples.home Samples.alarmDevices
                  [Samples.doorbellCamera] [] [] [] registry1)) = registry1.
Proof.
  split; [reflexivity|].
  apply (rediscovery_changes_nothing ringClientApi true Examples.home Samples.alarmDevices
           [Samples.doorbellCamera] [] [] [] []).
  - repeat constructor.
  - reflexivity.
Defined.

(** The entries a run appends are wrappers the mapper built for devices of
    the run. *)
Lemma processLoop_appends_wrappers T allDevices events pending :
  forall st,
    Forall plainType pending ->
    exists added,
      devices (fst (processLoop T allDevices events pending st)) = devices st ++ added /\
      Forall (fun m => exists d c i e,
                  In d pending /\ m = Instance c i e /\ di_device i = d /\
                  mapDevice T d allDevices events = Normal m) added.
Proof.
  induction pending as [|d rest IH]; intros st Hplain; simpl.
  - exists []. rewrite app_nil_r. split; [reflexivity | constructor].
  - apply Forall_cons_1 in Hplain as [Hd Hrest].
    pose proof (processDevice_cases T allDevices events st d) as Hcases.
    destruct (processDevice T allDevices events st d) as [st1 err] eqn:Hstep.
    simpl in Hcases.
    assert (Hone : exists added1,
               devices st1 = devices st ++ added1 /\
               Forall (fun m => exists c i e,
                           m = Instance c i e /\ di_device i = d /\
                           mapDevice T d allDevices events = Normal m) added1).
    { destruct Hcases as [(e & _ & Hdev & _)|(_ & [(e & _ & Hdev & _)|(m & Hmap & Hdev & _)])].
      - exists []. rewrite app_nil_r. split; [exact Hdev | constructor].
      - exists []. rewrite app_nil_r. split; [exact Hdev | constructor].
      - destruct (registers m) eqn:Hreg.
        + exists [m]. split; [exact Hdev|]. constructor; [|constructor].
          pose proof (registers_instance T d allDevices events m Hd Hmap Hreg) as Hinst.
          destruct m as [c i e| | |]; try discriminate.
          exists c, i, e. split; [reflexivity|]. split; [|exact Hmap].
          apply mapDevice_keeps_links in Hmap. tauto.
        + exists []. split; [exact Hdev | constructor]. }
    destruct Hone as (added1 & Hadd1 & Hall1).
    assert (Hall1' : Forall (fun m => exists d0 c i e,
                          In d0 (d :: rest) /\ m = Instance c i e /\ di_device i = d0 /\
                          mapDevice T d0 allDevices events = Normal m) added1).
    { eapply List.Forall_impl; [|exact Hall1].
      intros m (c & i & e & H1 & H2 & H3). exists d, c, i, e. simpl. auto. }
    destruct err as [err|]; simpl.
    + exists added1. auto.
    + destruct (IH st1 Hrest) as (added2 & Hadd2 & Hall2).
      exists (added1 ++ added2). split.
      * rewrite Hadd2, Hadd1, app_assoc. reflexivity.
      * apply Forall_app. split; [exact Hall1'|].
        eapply List.Forall_impl; [|exact Hall2].
        intros m (d0 & c & i & e & H0 & H1 & H2 & H3). exists d0, c, i, e. simpl. auto.
Qed.

(** X5. When no device of a run has a type that is a member name of
    [Object.prototype], the run only appends to the registry, and what it
    appends are wrapper instances: each is the mapper's result for one of the
    devices of the run and wraps that device. Ignore and Unsupported verdicts
    are never registered. *)
Theorem discovery_registers_only_wrappers
        T enable_modes loc devs cameras chimes intercoms events registry :
  Forall plainType (devs ++ cameras ++ chimes ++ intercoms) ->
  exists added,
    devices (fst (processDevices T enable_modes loc devs cameras chimes intercoms events registry))
      = registry ++ added /\
    Forall (fun m =>
              m <> Ignore /\ m <> NotSupported /\
              exists d c i e,
                In d (allDevicesOf enable_modes loc devs cameras chimes intercoms) /\
                m = Instance c i e /\ di_device i = d /\
                mapDevice T d (allDevicesOf enable_modes loc devs cameras chimes intercoms)
                          events = Normal m) added.
Proof.
  intros Hplain. apply (plainType_allDevices enable_modes loc) in Hplain.
  destruct (processDevices_loop T enable_modes loc devs cameras chimes intercoms events registry)
    as [Hdev _].
  destruct (processLoop_appends_wrappers T
              (allDevicesOf enable_modes loc devs cameras chimes intercoms) events _
              {| devices := registry; unsupportedDevices := []; log := [] |} Hplain)
    as (added & Hadd & Hall).
  exists added. split; [rewrite Hdev; exact Hadd|].
  eapply List.Forall_impl; [|exact Hall].
  intros m (d & c & i & e & Hin & -> & Hd & Hmap).
  split; [discriminate|]. split; [discriminate|]. exists d, c, i, e. auto.
Qed.

Lemma discovery_registers_only_wrappers_witness :
  exists added,
    devices (fst (processDevices ringClientApi false Examples.home Samples.alarmDevices
                    [] [] [] [] [])) = [] ++ added /\
    Forall (fun m => m <> Ignore /\ m <> NotSupported) added.
Proof.
  destruct (discovery_registers_only_wrappers ringClientApi false Examples.home
              Samples.alarmDevices [] [] [] [] []) as (added & Hadd & Hall).
  - repeat constructor.
  - exists added. split; [exact Hadd|].
    eapply List.Forall_impl; [|exact Hall]. intros m (H1 & H2 & _). auto.
Defined.


(** *** The camera event history *)

Lemma deviceId_stripEvents m : deviceId (stripEvents m) = deviceId m.
Proof. destruct m; reflexivity. Qed.

Lemma find_stripEvents id l l' :
  List.map stripEvents l = List.map stripEvents l' ->
  (List.find (fun d => strictEq (deviceId d) id) l = None <->
   List.find (fun d => strictEq (deviceId d) id) l' = None).
Proof.
  revert l'. induction l as [|m l IH]; intros [|m' l'] H; try discriminate; [tauto|].
  simpl in H. injection H as Hm Hl. simpl.
  rewrite <- (deviceId_stripEvents m), <- (deviceId_stripEvents m'), Hm.
  destruct (strictEq (deviceId (stripEvents m')) id); [split; discriminate|].
  apply IH. exact Hl.
Qed.

Lemma mapDevice_stripEvents T d allDevices events events' :
  (dev_class d = RingCamera -> dev_id d <> JUndef) ->
  match mapDevice T d allDevices events, mapDevice T d allDevices events' with
  | Normal m, Normal m' =>
      stripEvents m = stripEvents m' /\ (dev_class d <> RingCamera -> m = m')
  | Throw e, Throw e' => e = e'
  | _, _ => False
  end.
Proof.
  intros Hid. unfold mapDevice. destruct (dev_class d) eqn:Hc.
  - specialize (Hid eq_refl). unfold filterDeviceEvents.
    destruct (dev_id d) as [|s|n]; [congruence| |];
      destruct events, events'; cbn; split; try reflexivity; intros H; congruence.
  - split; reflexivity.
  - split; reflexivity.
  - destruct (mapByDeviceType T d (buildDeviceInfo d allDevices) allDevices);
      [split|]; reflexivity.
Qed.

Lemma processDevice_alike T allDevices events events' st st' d :
  (dev_class d = RingCamera -> dev_id d <> JUndef) ->
  alike st st' ->
  alike (fst (processDevice T allDevices events st d))
        (fst (processDevice T allDevices events' st' d)) /\
  snd (processDevice T allDevices events st d) =
  snd (processDevice T allDevices events' st' d).
Proof.
  intros Hid [Hd Hu]. unfold processDevice.
  pose proof (find_stripEvents (getDeviceId d) _ _ Hd) as Hfind.
  destruct (List.find _ (devices st)) as [e|] eqn:E1;
    destruct (List.find _ (devices st')) as [e'|] eqn:E2.
  - split; [split; assumption | reflexivity].
  - exfalso. assert (Some e = None) by (apply Hfind; reflexivity). discriminate.
  - exfalso. assert (Some e' = None) by (apply Hfind; reflexivity). discriminate.
  - pose proof (mapDevice_stripEvents T d allDevices events events' Hid) as Hm.
    destruct (mapDevice T d allDevices events) as [m|err];
      destruct (mapDevice T d allDevices events') as [m'|err']; try contradiction.
    + destruct Hm as [Hm _].
      assert (Hs : isStr m "not-supported" = isStr m' "not-supported")
        by (destruct m, m'; try discriminate; try reflexivity; cbn in Hm; congruence).
      assert (Hi : isStr m "ignore" = isStr m' "ignore")
        by (destruct m, m'; try discriminate; try reflexivity; cbn in Hm; congruence).
      assert (Ht : truthy m = truthy m')
        by (destruct m, m'; try discriminate; try reflexivity; cbn in Hm; congruence).
      rewrite Hs, Hi, Ht.
      destruct (isStr m' "not-supported"); cbn [fst snd devices unsupportedDevices].
      * split; [split; [exact Hd | rewrite Hu; reflexivity] | reflexivity].
      * destruct (truthy m' && negb (isStr m' "ignore")); cbn [fst snd devices unsupportedDevices].
        -- split; [split; [|exact Hu] | reflexivity].
           cbn [devices]. rewrite !List.map_app, Hd. cbn [List.map]. rewrite Hm. reflexivity.
        -- split; [split; assumption | reflexivity].
    + subst err'. split; [split; assumption | reflexivity].
Qed.

Lemma processLoop_alike T allDevices events events' pending :
  camerasHaveId pending ->
  forall st st',
    alike st st' ->
    alike (fst (processLoop T allDevices events pending st))
          (fst (processLoop T allDevices events' pending st')) /\
    snd (processLoop T allDevices events pending st) =
    snd (processLoop T allDevices events' pending st').
Proof.
  induction pending as [|d rest IH]; intros Hc st st' Ha; [split; [exact Ha | reflexivity]|].
  apply Forall_cons_1 in Hc as [Hd Hrest]. cbn [processLoop].
  destruct (processDevice_alike T allDevices events events' st st' d Hd Ha) as [Ha1 He1].
  destruct (processDevice T allDevices events st d) as [s1 [e1|]];
    destruct (processDevice T allDevices events' st' d) as [s2 [e2|]];
    cbn [fst snd] in *; try discriminate.
  - split; assumption.
  - apply IH; assumption.
Qed.

(** X6. The camera event history reaches nothing but the camera
    wrappers. When every camera of a run has an [id], two discovery runs that
    differ in the history alone end the same way, register wrappers for the
    same devices in the same order with the same classes and device
    information, and report the same unsupported types. *)
Theorem history_only_reaches_camera_wrappers
        T enable_modes loc devs cameras chimes intercoms events events' registry :
  camerasHaveId (allDevicesOf enable_modes loc devs cameras chimes intercoms) ->
  let r := processDevices T enable_modes loc devs cameras chimes intercoms events registry in
  let r' := processDevices T enable_modes loc devs cameras chimes intercoms events' registry in
  snd r = snd r' /\
  List.map stripEvents (devices (fst r)) = List.map stripEvents (devices (fst r')) /\
  unsupportedDevices (fst r) = unsupportedDevices (fst r').
Proof.
  intros Hc r r'. subst r r'. unfold processDevices.
  fold (allDevicesOf enable_modes loc devs cameras chimes intercoms).
  destruct (processLoop_alike T (allDevicesOf enable_modes loc devs cameras chimes intercoms)
              events events' _ Hc
              {| devices := registry; unsupportedDevices := []; log := [] |}
              {| devices := registry; unsupportedDevices := []; log := [] |})
    as [[Hd Hu] He]; [split; reflexivity|].
  destruct (processLoop T _ events _ _) as [s1 [e1|]];
    destruct (processLoop T _ events' _ _) as [s2 [e2|]];
    cbn [fst snd devices unsupportedDevices] in *; try discriminate; auto.
Qed.

Lemma history_only_reaches_camera_wrappers_witness :
  let r := processDevices ringClientApi false Examples.home Samples.alarmDevices
             [Samples.doorbellCamera] [] [] [] [] in
  let r' := processDevices ringClientApi false Examples.home Samples.alarmDevices
              [Samples.doorbellCamera] [] [] [ {| source_id := JStr "4711" |} ] [] in
  snd r = snd r' /\
  List.map stripEvents (devices (fst r)) = List.map stripEvents (devices (fst r')) /\
  unsupportedDevices (fst r) = unsupportedDevices (fst r').
Proof.
  apply (history_only_reaches_camera_wrappers ringClientApi false Examples.home
           Samples.alarmDevices [Samples.doorbellCamera] [] [] []
           [ {| source_id := JStr "4711" |} ] []).
  repeat constructor; discriminate.
Defined.

End MapperMore.

(** ** Further properties of the republish cycle *)

Module RepublishMore.
Import Republish RepublishTerms RepublishFacts.

Lemma calm_refl st : calm st st.
Proof.
  repeat split. exists []. rewrite app_nil_r. split; [reflexivity | constructor].
Qed.

Lemma calm_trans a b c : calm a b -> calm b c -> calm a c.
Proof.
  intros (H1 & H2 & H3 & H4 & w1 & Hw1 & Hf1) (G1 & G2 & G3 & G4 & w2 & Hw2 & Hf2).
  repeat split; try congruence.
  exists (w1 ++ w2). split.
  - rewrite Hw2, Hw1, app_assoc. reflexivity.
  - apply Forall_app. auto.
Qed.

Lemma updateLocation_calm st loc f : calm st (updateLocation st loc f).
Proof.
  repeat split. exists []. simpl. rewrite app_nil_r. split; [reflexivity | constructor].
Qed.

Lemma suspend_wait_calm st loc : calm st (suspend (DisconnectSleep loc) st).
Proof.
  repeat split. exists [DisconnectSleep loc]. split; [reflexivity|].
  constructor; [eauto | constructor].
Qed.

Lemma onConnectedCallback_calm st loc connected :
  republishCount st <= 0 \/ mqttConnected st = false ->
  calm st (onConnectedCallback st loc connected).
Proof.
  intros Hq. unfold onConnectedCallback.
  destruct (getLocation st loc) as [l|]; [|apply calm_refl].
  destruct (connected && negb (isConnected l)).
  - rewrite publishDevices_None by exact Hq. apply updateLocation_calm.
  - destruct (negb connected); [apply suspend_wait_calm | apply calm_refl].
Qed.

Lemma subscribeToLocationWebsocket_calm st loc :
  republishCount st <= 0 \/ mqttConnected st = false ->
  calm st (subscribeToLocationWebsocket st loc).
Proof.
  intros Hq. unfold subscribeToLocationWebsocket.
  eapply calm_trans; [apply (updateLocation_calm st loc)|].
  apply onConnectedCallback_calm. exact Hq.
Qed.

Lemma publishLocations_calm pending :
  forall st,
    republishCount st <= 0 \/ mqttConnected st = false ->
    calm st (publishLocations st pending).
Proof.
  induction pending as [|loc rest IH]; intros st Hq; simpl; [apply calm_refl|].
  destruct (getLocation st loc) as [l|]; [|apply IH; exact Hq].
  destruct (locationDevices st loc) eqn:Hd; [apply IH; exact Hq|].
  destruct (hasHubs l && negb (isSubscribed l)).
  - pose proof (subscribeToLocationWebsocket_calm st loc Hq) as Hs.
    eapply calm_trans; [exact Hs|]. apply IH.
    destruct Hs as (Hc & Hm & _). rewrite Hc, Hm. exact Hq.
  - rewrite publishDevices_None by exact Hq. apply IH. exact Hq.
Qed.

Lemma devicePublishes_offline st offs :
  Forall (fun o => isDevicePublish o = false) offs ->
  devicePublishes (emit st offs) = devicePublishes st.
Proof.
  intros H. unfold devicePublishes, emit. simpl. rewrite List.filter_app.
  replace (List.filter isDevicePublish offs) with (@nil output); [apply app_nil_r|].
  induction H as [|o offs Ho _ IH]; simpl; [reflexivity|]. rewrite Ho. exact IH.
Qed.

Lemma exhausted_calm st st' :
  republishCount st <= 0 ->
  Forall (fun t => t <> RestartSleep) (tasks st) ->
  calm st st' ->
  exhausted st' /\ devicePublishes st' = devicePublishes st.
Proof.
  intros Hc Ht (H1 & _ & _ & H4 & waits & Hw & Hf). split.
  - split; [rewrite H1; exact Hc|]. rewrite Hw. apply Forall_app. split; [exact Ht|].
    eapply List.Forall_impl; [|exact Hf]. intros t [loc ->]. discriminate.
  - unfold devicePublishes. rewrite H4. reflexivity.
Qed.

(** One event that is not an "online" message, on an exhausted controller. *)
Lemma exhausted_step st e :
  exhausted st -> notOnline e = true ->
  exhausted (step st e) /\ devicePublishes (step st e) = devicePublishes st.
Proof.
  intros [Hc Ht] He.
  destruct e as [state|message|loc connected|i locs devs|i]; cbn [step notOnline] in *.
  - (* mqtt_state *)
    destruct (String.eqb state "connected" && negb (mqttConnected st)).
    + unfold handleMqttConnection.
      destruct (locations (set_mqttConnected st (String.eqb state "connected"))) eqn:Hl.
      * split; [split; [exact Hc|]|reflexivity].
        simpl. apply Forall_app. split; [exact Ht|]. repeat constructor. discriminate.
      * apply (exhausted_calm (set_mqttConnected st (String.eqb state "connected")));
          [exact Hc | exact Ht |].
        apply publishLocations_calm. left. exact Hc.
    + split; [split; assumption | reflexivity].
  - (* ha_status, not online *)
    apply negb_true_iff in He. rewrite He. split; [split; assumption | reflexivity].
  - (* the websocket of a location *)
    set (st1 := updateLocation st loc _).
    destruct (getLocation st1 loc) as [l|]; [|split; [split; assumption | reflexivity]].
    destruct (isSubscribed l); [|split; [split; assumption | reflexivity]].
    apply (exhausted_calm st1); [exact Hc | exact Ht |].
    apply onConnectedCallback_calm. left. exact Hc.
  - (* discovery has finished *)
    destruct (tasks st !! i) as [[| | |]|] eqn:Hi; try (split; [split; assumption | reflexivity]).
    match goal with
    | |- context [publishLocations ?s ?p] =>
        apply (exhausted_calm s); [exact Hc | | apply publishLocations_calm; left; exact Hc]
    end.
    simpl. apply Forall_delete. exact Ht.
  - (* a wait is over *)
    destruct (tasks st !! i) as [t|] eqn:Hi; [|split; [split; assumption | reflexivity]].
    assert (Hdel : Forall (fun t => t <> RestartSleep) (delete i (tasks st)))
      by (apply Forall_delete; exact Ht).
    destruct t as [|loc rest| |loc].
    + split; [split; assumption | reflexivity].
    + unfold resume. rewrite publishDevices_None by (left; simpl; lia).
      match goal with
      | |- context [publishLocations ?s ?p] =>
          apply (exhausted_calm s); [simpl; lia | exact Hdel |
                                     apply publishLocations_calm; left; simpl; lia]
      end.
    + exfalso. rewrite Forall_lookup in Ht. exact (Ht _ _ Hi eq_refl).
    + unfold resume.
      destruct (negb (onConnectedValue (set_tasks st (delete i (tasks st))) loc)).
      * unfold handleLocationDisconnect. rewrite devicePublishes_offline.
        -- split; [split; [exact Hc | exact Hdel] | reflexivity].
        -- apply List.Forall_forall. intros o Ho. apply in_map_iff in Ho as (d & <- & _).
           reflexivity.
      * split; [split; [exact Hc | exact Hdel] | reflexivity].
Qed.

(** X7. Once the republish counter is used up, nothing makes the controller
    publish a device again but a Home Assistant "online" message: over any
    sequence of other events (MQTT disconnects and reconnects, websocket
    changes, finished discovery, expired waits) not one [device.publish] is
    added and the counter stays used up. *)
Theorem exhausted_counter_stays_silent st es :
  exhausted st ->
  Forall (fun e => notOnline e = true) es ->
  exhausted (run st es) /\ devicePublishes (run st es) = devicePublishes st.
Proof.
  revert st. induction es as [|e es IH]; intros st Hex Hall; simpl; [auto|].
  apply Forall_cons_1 in Hall as [He Hes].
  destruct (exhausted_step st e Hex He) as [Hex1 Hpub1].
  destruct (IH _ Hex1 Hes) as [Hex2 Hpub2].
  split; [exact Hex2 | congruence].
Qed.

Lemma exhausted_counter_witness :
  exhausted (run Examples.firstCycle (repeat (Wake 0%nat) 6)) /\
  devicePublishes
    (run (run Examples.firstCycle (repeat (Wake 0%nat) 6))
         [MqttState "disconnected"; MqttState "connected"; WebsocketState "loc1" true;
          HaStatus "offline"])
  = devicePublishes (run Examples.firstCycle (repeat (Wake 0%nat) 6)).
Proof.
  assert (Hex : exhausted (run Examples.firstCycle (repeat (Wake 0%nat) 6))).
  { split; [vm_compute; discriminate | vm_compute; constructor]. }
  split; [exact Hex|].
  apply (exhausted_counter_stays_silent _ _ Hex). repeat constructor.
Defined.

Lemma publishLocations_first st l ls d ds :
  locations st = l :: ls ->
  locationDevices st (locationId l) = d :: ds ->
  hasHubs l && negb (isSubscribed l) = false ->
  0 < republishCount st -> mqttConnected st = true ->
  publishLocations st (allLocations st) =
  suspend (PublishDevicesSleep (locationId l) (List.map locationId ls))
          (emit st (cyclePublishes st (locationId l))).
Proof.
  intros Hl Hd Hh Hc Hm. unfold allLocations. rewrite Hl. simpl.
  unfold getLocation. rewrite Hl. simpl. rewrite String.eqb_refl, Hd, Hh.
  rewrite publishDevices_Some by assumption. reflexivity.
Qed.

(** While the counter allows it, each wake of a loop that is alone makes
    one more cycle and puts the loop to sleep again. *)
Lemma cycle_progress k :
  forall st loc rest,
    tasks st = [PublishDevicesSleep loc rest] ->
    Z.of_nat k < republishCount st ->
    mqttConnected st = true ->
    tasks (run st (repeat (Wake 0%nat) k)) = [PublishDevicesSleep loc rest] /\
    republishCount (run st (repeat (Wake 0%nat) k)) = republishCount st - Z.of_nat k /\
    out (run st (repeat (Wake 0%nat) k)) =
      out st ++ concat (repeat (cyclePublishes st loc) k).
Proof.
  induction k as [|k IH]; intros st loc rest Ht Hc Hm.
  - cbn [repeat run fold_left concat]. rewrite app_nil_r. repeat split; [exact Ht | lia].
  - change (run st (repeat (Wake 0%nat) (S k)))
      with (run (step st (Wake 0%nat)) (repeat (Wake 0%nat) k)).
    rewrite (step_wake_only_task st _ Ht) by discriminate.
    rewrite resume_cycle_continues; [| simpl; lia | exact Hm].
    match goal with
    | |- context [run ?s _] =>
        destruct (IH s loc rest) as (H1 & H2 & H3);
          [reflexivity | simpl; lia | exact Hm |]
    end.
    rewrite H1, H2, H3. split; [reflexivity|]. split; [simpl; lia|].
    simpl. rewrite <- app_assoc. reflexivity.
Qed.

(** X8. One run of [publishLocations] serves a single location. With MQTT
    connected, no other activation in flight, and the counter at [n + 1],
    the first location, one that has devices and needs no websocket
    subscription, takes every cycle the counter allows: each cycle publishes
    the devices of that location once and then sleeps 30 seconds, so after
    [k <= n] of these sleeps [k + 1] cycles were made and the loop is asleep
    again. When the loop ends the counter is 0 and no loop is left, so the
    locations after the first get no cycle: all that was published are the
    devices of the first location, once per cycle. *)
Theorem publishLocations_serves_first_location_only n st l ls d ds :
  tasks st = [] ->
  mqttConnected st = true ->
  republishCount st = Z.of_nat (S n) ->
  locations st = l :: ls ->
  locationDevices st (locationId l) = d :: ds ->
  hasHubs l && negb (isSubscribed l) = false ->
  let started := publishLocations st (allLocations st) in
  let final := run started (repeat (Wake 0%nat) (S n)) in
  (forall k, (k <= n)%nat ->
     tasks (run started (repeat (Wake 0%nat) k)) =
       [PublishDevicesSleep (locationId l) (List.map locationId ls)] /\
     out (run started (repeat (Wake 0%nat) k)) =
       out st ++ concat (repeat (cyclePublishes st (locationId l)) (S k))) /\
  sleepSeconds (PublishDevicesSleep (locationId l) (List.map locationId ls)) = Some 30 /\
  republishCount final = 0 /\
  cycles final = [] /\
  out final = out st ++ concat (repeat (cyclePublishes st (locationId l)) (S n)) /\
  (forall o, In o (out final) ->
             In o (out st) \/
             exists w, In w (devices st) /\ deviceLocation w = locationId l /\
                       o = DevicePublish (deviceId w) (onConnectedValue st (locationId l))).
Proof.
  intros Ht Hm Hc Hl Hd Hh started final.
  assert (Hfirst := publishLocations_first st l ls d ds Hl Hd Hh ltac:(lia) Hm).
  subst final started. rewrite Hfirst.
  set (s0 := suspend (PublishDevicesSleep (locationId l) (List.map locationId ls))
                     (emit st (cyclePublishes st (locationId l)))).
  assert (Ht0 : tasks s0 = [PublishDevicesSleep (locationId l) (List.map locationId ls)])
    by (unfold s0; simpl; rewrite Ht; reflexivity).
  destruct (cycle_runs_out n s0 (locationId l) (List.map locationId ls) Ht0 Hc Hm)
    as (H1 & H2 & H3).
  assert (Hout : out (run s0 (repeat (Wake 0%nat) (S n)))
                 = out st ++ concat (repeat (cyclePublishes st (locationId l)) (S n))).
  { rewrite H3. unfold s0. simpl. rewrite <- app_assoc. reflexivity. }
  split.
  { intros k Hk.
    destruct (cycle_progress k s0 (locationId l) (List.map locationId ls) Ht0)
      as (K1 & _ & K3); [change (republishCount s0) with (republishCount st); lia | exact Hm |].
    split; [exact K1|]. rewrite K3. unfold s0. simpl. rewrite <- app_assoc. reflexivity. }
  split; [reflexivity|].
  split; [exact H1|]. split; [exact H2|]. split; [exact Hout|].
  intros o Ho. rewrite Hout in Ho. apply in_app_or in Ho as [Ho|Ho]; [left; exact Ho|].
  right. apply in_concat in Ho as (c & Hc' & Ho). apply repeat_spec in Hc'. subst c.
  unfold cyclePublishes in Ho. apply in_map_iff in Ho as (w & <- & Hw).
  unfold locationDevices in Hw. apply filter_In in Hw as [Hw Hloc].
  apply String.eqb_eq in Hloc. exists w. auto.
Qed.

Lemma publishLocations_serves_first_witness :
  out (run (publishLocations Samples.twoHomes (allLocations Samples.twoHomes))
           (repeat (Wake 0%nat) 2))
  = concat (repeat [DevicePublish "d1" false] 3) /\
  out (run (publishLocations Samples.twoHomes (allLocations Samples.twoHomes))
           (repeat (Wake 0%nat) 6))
  = concat (repeat [DevicePublish "d1" false] 6).
Proof.
  destruct (publishLocations_serves_first_location_only 5 Samples.twoHomes
              Examples.flat [Samples.garage] Examples.doorbell [])
    as (Hmid & _ & _ & _ & H & _); [reflexivity .. |].
  split; [|exact H].
  destruct (Hmid 2%nat) as [_ H2]; [lia | exact H2].
Defined.

(** *** Websocket drops *)

Lemma getLocation_updateLocation st loc f :
  (forall l, locationId (f l) = locationId l) ->
  getLocation (updateLocation st loc f) loc =
  match getLocation st loc with Some l => Some (f l) | None => None end.
Proof.
  intros Hf. unfold getLocation, updateLocation. simpl.
  induction (locations st) as [|x ls IH]; simpl; [reflexivity|].
  destruct (String.eqb (locationId x) loc) eqn:E.
  - rewrite Hf, E. reflexivity.
  - rewrite E. exact IH.
Qed.

Lemma offlineCalls_targets st loc o :
  In o (offlineCalls st loc) ->
  exists w, In w (devices st) /\ o = DeviceOffline (deviceId w) /\
            deviceLocation w = loc /\ camera w = false.
Proof.
  unfold offlineCalls. intros H. apply in_map_iff in H as (w & <- & Hw).
  apply filter_In in Hw as [Hw Hc]. apply andb_true_iff in Hc as [Hl Hc].
  apply String.eqb_eq in Hl. apply negb_true_iff in Hc. exists w. auto.
Qed.

Lemma wake_disconnect st s loc :
  tasks s = tasks st ++ [DisconnectSleep loc] ->
  step s (Wake (length (tasks st))) = resume (DisconnectSleep loc) (set_tasks s (tasks st)).
Proof.
  intros H. cbn [step]. rewrite H, list_lookup_middle by reflexivity.
  rewrite delete_middle, app_nil_r. reflexivity.
Qed.

(** X9. A websocket drop is acted on only after the 30-second grace
    period. For a subscribed, connected location: if the websocket is back
    when the wait is over, no wrapper was called at all; if it is still down,
    [offline()] is called on the devices of that location that are not
    cameras, and on nothing else. *)
Theorem websocket_drop_has_a_grace_period st loc l :
  getLocation st loc = Some l ->
  isSubscribed l = true ->
  isConnected l = true ->
  out (run st [WebsocketState loc false; WebsocketState loc true; Wake (length (tasks st))])
    = out st /\
  out (run st [WebsocketState loc false; Wake (length (tasks st))])
    = out st ++ offlineCalls st loc /\
  sleepSeconds (DisconnectSleep loc) = Some 30 /\
  (forall o, In o (offlineCalls st loc) ->
             exists w, In w (devices st) /\ o = DeviceOffline (deviceId w) /\
                       deviceLocation w = loc /\ camera w = false).
Proof.
  intros Hl Hsub Hcon.
  set (down := updateLocation st loc (fun l0 =>
                 {| locationId := locationId l0; hasHubs := hasHubs l0;
                    isSubscribed := isSubscribed l0; isConnected := isConnected l0;
                    onConnected := false |})).
  assert (Hdown : getLocation down loc = Some (setOnConnected false l)).
  { unfold down. rewrite getLocation_updateLocation by reflexivity. rewrite Hl. reflexivity. }
  assert (Hstep1 : step st (WebsocketState loc false) = suspend (DisconnectSleep loc) down).
  { cbn [step]. fold down. rewrite Hdown. cbn [isSubscribed setOnConnected]. rewrite Hsub.
    unfold onConnectedCallback. rewrite Hdown. reflexivity. }
  split; [|split; [|split; [reflexivity | apply offlineCalls_targets]]].
  - (* back within the grace period *)
    cbn [run fold_left]. rewrite Hstep1.
    set (s1 := suspend (DisconnectSleep loc) down).
    set (up := updateLocation s1 loc (fun l0 =>
                 {| locationId := locationId l0; hasHubs := hasHubs l0;
                    isSubscribed := isSubscribed l0; isConnected := isConnected l0;
                    onConnected := true |})).
    assert (Hup : getLocation up loc = Some (setOnConnected true (setOnConnected false l))).
    { unfold up. rewrite getLocation_updateLocation by reflexivity.
      change (getLocation s1 loc) with (getLocation down loc). rewrite Hdown. reflexivity. }
    assert (Hstep2 : step s1 (WebsocketState loc true) = up).
    { cbn [step]. fold up. rewrite Hup. cbn [isSubscribed setOnConnected]. rewrite Hsub.
      unfold onConnectedCallback. rewrite Hup. cbn [isConnected setOnConnected].
      rewrite Hcon. reflexivity. }
    rewrite Hstep2. rewrite (wake_disconnect st up loc) by reflexivity.
    unfold resume, onConnectedValue.
    change (getLocation (set_tasks up (tasks st)) loc) with (getLocation up loc).
    rewrite Hup. reflexivity.
  - (* still down when the wait is over *)
    cbn [run fold_left]. rewrite Hstep1.
    rewrite (wake_disconnect st _ loc) by reflexivity.
    unfold resume, onConnectedValue.
    change (getLocation (set_tasks (suspend (DisconnectSleep loc) down) (tasks st)) loc)
      with (getLocation down loc).
    rewrite Hdown. reflexivity.
Qed.

Lemma websocket_drop_witness :
  out (run Samples.villaOnline [WebsocketState "loc3" false; WebsocketState "loc3" true; Wake 0])
    = [] /\
  out (run Samples.villaOnline [WebsocketState "loc3" false; Wake 0]) = [DeviceOffline "s3"].
Proof.
  destruct (websocket_drop_has_a_grace_period Samples.villaOnline "loc3" Samples.villa
              eq_refl eq_refl eq_refl) as (H1 & H2 & _).
  split; [exact H1 | exact H2].
Defined.

End RepublishMore.

(** ** More on the intercom wrapper *)

Module IntercomMore.
Import Intercom IntercomTerms IntercomFacts.

Lemma lastOn_app topic a b :
  lastOn topic (a ++ b) =
  match lastOn topic b with Some m => Some m | None => lastOn topic a end.
Proof.
  induction a as [|x a IH]; simpl.
  - destruct (lastOn topic b); reflexivity.
  - rewrite IH. destruct (lastOn topic b); reflexivity.
Qed.

Lemma lastOn_snoc topic o x :
  lastOn topic (o ++ [x]) =
  match x with
  | MqttPublish t m _ => if String.eqb t topic then Some m else lastOn topic o
  | _ => lastOn topic o
  end.
Proof.
  rewrite lastOn_app. cbn [lastOn]. destruct x as [t m a| |]; try reflexivity.
  destruct (String.eqb t topic); reflexivity.
Qed.

Lemma differs_false s p : differs s p = false -> p = Some s.
Proof.
  destruct p as [p|]; simpl; [|discriminate].
  intros H. apply negb_false_iff, String.eqb_eq in H. congruence.
Qed.

Lemma eqb_neq (a b : string) : a <> b -> String.eqb a b = false.
Proof. intros H. apply String.eqb_neq. exact H. Qed.

Ltac topics :=
  repeat match goal with
         | H : distinctTopics _ |- _ => destruct H as (? & ? & ?)
         end;
  cbn [entity lock ding out lock_state lock_publishedState unlockTimeout
       ding_state ding_publishedState ding_timeout
       lock_state_topic ding_state_topic info_state_topic] in *;
  rewrite ?lastOn_snoc, ?String.eqb_refl;
  repeat match goal with
         | H : ?a <> ?b |- context [String.eqb ?a ?b] => rewrite (eqb_neq a b H)
         | H : ?a <> ?b |- context [String.eqb ?b ?a] =>
             rewrite (eqb_neq b a (fun E => H (eq_sym E)))
         end.

Lemma synced_publishLockState w b :
  distinctTopics (entity w) -> synced w -> synced (publishLockState w b).
Proof.
  intros Hd [Hl Hg]. unfold publishLockState.
  destruct (differs (lock_state (lock w)) (lock_publishedState (lock w))) eqn:E;
    [|destruct b]; cbn [orb]; try (split; assumption).
  all: unfold synced, mqttPublish, set_lock, emit; topics; split; auto.
Qed.


Lemma synced_publishDingState w b :
  distinctTopics (entity w) -> synced w -> synced (publishDingState w b).
Proof.
  intros Hd [Hl Hg]. unfold publishDingState.
  destruct (differs (ding_state (ding w)) (ding_publishedState (ding w))) eqn:E;
    [|destruct b]; cbn [orb]; try (split; assumption).
  all: unfold synced, mqttPublish, set_ding, emit; topics; split; auto.
Qed.

Lemma synced_sameView w w' : sameView w w' -> synced w -> synced w'.
Proof.
  intros (He & Hl & Hd & Ho) [H1 H2]. unfold synced. rewrite He, Hl, Hd, Ho. split; assumption.
Qed.

Lemma synced_emit_debug w line : synced w -> synced (emit w (Debug line)).
Proof.
  intros [H1 H2]. unfold synced, emit. cbn [entity lock ding out].
  rewrite !lastOn_snoc. split; assumption.
Qed.

Lemma synced_publishAttributes w now :
  distinctTopics (entity w) -> synced w -> synced (publishAttributes w now).
Proof.
  intros Hd [H1 H2]. unfold synced, publishAttributes, mqttPublish, emit. topics.
  split; assumption.
Qed.

Lemma synced_setDoorUnlocked w :
  distinctTopics (entity w) -> synced w -> synced (setDoorUnlocked w).
Proof.
  intros Hd Hs. unfold setDoorUnlocked.
  destruct (unlockTimeout (lock w)) as [h|];
    match goal with
    | |- context [publishLockState ?x false] =>
        assert (S3 : synced (publishLockState x false))
          by (apply synced_publishLockState; [exact Hd | destruct Hs; split; assumption]);
        generalize dependent (publishLockState x false)
    end;
    intros w3 [H1 H2]; split; assumption.
Qed.

Lemma synced_processDing w :
  distinctTopics (entity w) -> synced w -> synced (processDing w).
Proof.
  intros Hd Hs. unfold processDing.
  destruct (ding_timeout (ding w)) as [h|];
    match goal with
    | |- context [publishDingState ?x false] =>
        assert (S3 : synced (publishDingState x false))
          by (apply synced_publishDingState; [exact Hd | destruct Hs; split; assumption]);
        generalize dependent (publishDingState x false)
    end;
    intros w3 [H1 H2]; split; assumption.
Qed.

Lemma synced_fire w h :
  distinctTopics (entity w) -> synced w -> synced (fire w h).
Proof.
  intros Hd Hs. unfold fire. destruct (timers w !! h) as [t|]; [|exact Hs].
  unfold runCallback. destruct (action t).
  - match goal with
    | |- context [publishDingState ?x false] =>
        assert (S3 : synced (publishDingState x false))
          by (apply synced_publishDingState; [exact Hd | destruct Hs; split; assumption]);
        generalize dependent (publishDingState x false)
    end.
    intros w3 [H1 H2]; split; assumption.
  - match goal with
    | |- context [publishLockState ?x false] =>
        assert (S3 : synced (publishLockState x false))
          by (apply synced_publishLockState; [exact Hd | destruct Hs; split; assumption]);
        generalize dependent (publishLockState x false)
    end.
    intros w3 [H1 H2]; split; assumption.
Qed.

Lemma entity_publishState w data now : entity (publishState w data now) = entity w.
Proof.
  unfold publishState.
  destruct (publishDingState_cache w (match data with None => true | Some _ => false end))
    as (_ & _ & _ & He1).
  destruct (publishLockState_cache
              (publishDingState w (match data with None => true | Some _ => false end))
              (match data with None => true | Some _ => false end)) as (_ & _ & _ & He2).
  destruct data; cbv zeta; cbn [publishAttributes emit mqttPublish entity]; congruence.
Qed.

Lemma synced_publishState w data now :
  distinctTopics (entity w) -> synced w -> synced (publishState w data now).
Proof.
  intros Hd Hs. unfold publishState. cbv zeta.
  set (b := match data with None => true | Some _ => false end).
  assert (S1 : synced (publishDingState w b)) by (apply synced_publishDingState; assumption).
  assert (E1 : entity (publishDingState w b) = entity w) by apply publishDingState_cache.
  assert (S2 : synced (publishLockState (publishDingState w b) b)).
  { apply synced_publishLockState; [rewrite E1; exact Hd | exact S1]. }
  assert (E2 : entity (publishLockState (publishDingState w b) b) = entity w).
  { rewrite <- E1. apply publishLockState_cache. }
  destruct b; [|exact S2].
  apply synced_publishAttributes; [rewrite E2; exact Hd | exact S2].
Qed.

Lemma publishState_ding_cache w data now :
  ding_publishedState (ding (publishState w data now)) = Some (ding_state (ding w)).
Proof.
  unfold publishState. cbv zeta.
  set (b := match data with None => true | Some _ => false end).
  destruct (publishDingState_cache w b) as (H1 & _).
  destruct (publishLockState_cache (publishDingState w b) b) as (_ & _ & H2 & _).
  destruct b; cbn [publishAttributes emit mqttPublish ding]; rewrite H2; exact H1.
Qed.

Section Reachable.

Variable toLowerCase : string -> string.

(** Unless a command reaches [setDoorUnlocked], it only writes debug lines. *)
Lemma command_only_logs w command message unlocked :
  lockSettled w ->
  opensDoor toLowerCase command message unlocked = false ->
  exists lines,
    processCommand toLowerCase w command message unlocked =
    {| device := device w; entity := entity w; lock := lock w; ding := ding w;
       timers := timers w; nextTimer := nextTimer w;
       out := out w ++ List.map Debug lines |}.
Proof.
  intros Hs Hc. unfold opensDoor in Hc. unfold processCommand, setLockState.
  destruct (String.eqb command "lock/command"); cbn [andb] in Hc;
    [|eexists [_]; reflexivity].
  destruct (String.eqb_spec (toLowerCase message) "lock") as [Heq|Hne].
  - destruct (String.eqb_spec (lock_state (lock w)) "UNLOCKED") as [Hu|Hu];
      [|eexists [_]; reflexivity].
    rewrite publishLockState_cached.
    + eexists [_]; reflexivity.
    + cbn [emit lock]. unfold lockSettled in Hs.
      destruct (unlockTimeout (lock w)); destruct Hs as [Hs1 Hs2]; congruence.
  - destruct (String.eqb (toLowerCase message) "unlock"); cbn [andb] in Hc;
      [|eexists [_]; reflexivity].
    rewrite Hc. eexists [_; _]. unfold emit. cbn [device entity lock ding timers nextTimer out].
    rewrite <- app_assoc. reflexivity.
Qed.

Lemma command_opens w command message unlocked :
  opensDoor toLowerCase command message unlocked = true ->
  processCommand toLowerCase w command message unlocked =
  setDoorUnlocked
    (emit (emit w (Debug "Received unlock door command, sending unlock command to intercom"))
          (Debug "Request to unlock door was successful")).
Proof.
  unfold opensDoor. intros Hc.
  apply andb_true_iff in Hc as [Hc ->]. apply andb_true_iff in Hc as [Hc Hm].
  unfold processCommand, setLockState. rewrite Hc.
  apply String.eqb_eq in Hm. rewrite Hm. reflexivity.
Qed.

Lemma lastOn_debug topic o lines : lastOn topic (o ++ List.map Debug lines) = lastOn topic o.
Proof.
  rewrite lastOn_app.
  replace (lastOn topic (List.map Debug lines)) with (@None payload); [reflexivity|].
  induction lines as [|l lines IH]; simpl; [reflexivity|]. rewrite <- IH. reflexivity.
Qed.

Lemma lockSettled_fields w w' :
  lock w' = lock w -> lockSettled w -> lockSettled w'.
Proof. unfold lockSettled. intros ->. auto. Qed.

Lemma dingSettled_fields w w' :
  ding w' = ding w -> dingSettled w -> dingSettled w'.
Proof. unfold dingSettled. intros ->. auto. Qed.

Lemma fire_caches w h t :
  timers w !! h = Some t ->
  entity (fire w h) = entity w /\
  match action t with
  | RevertLock => lock_publishedState (lock (fire w h)) = Some "LOCKED"
  | RevertDing => ding_publishedState (ding (fire w h)) = Some "OFF"
  end.
Proof.
  intros Hl. unfold fire. rewrite Hl. unfold runCallback. destruct (action t).
  - match goal with
    | |- context [publishDingState ?x false] =>
        destruct (publishDingState_cache x false) as (H1 & _ & _ & H4)
    end.
    cbn [set_ding entity ding ding_publishedState]. rewrite H4, H1. split; reflexivity.
  - match goal with
    | |- context [publishLockState ?x false] =>
        destruct (publishLockState_cache x false) as (H1 & _ & _ & H4)
    end.
    cbn [set_lock entity lock lock_publishedState]. rewrite H4, H1. split; reflexivity.
Qed.

(** Every step keeps the topics, and keeps both entities settled. *)
Lemma settled_step w e :
  lockSettled w /\ dingSettled w ->
  entity (step toLowerCase w e) = entity w /\
  lockSettled (step toLowerCase w e) /\ dingSettled (step toLowerCase w e).
Proof.
  intros [Hl Hd]. destruct e as [| |data now|command message unlocked|h]; cbn [step].
  - destruct (setDoorUnlocked_fields w) as (_ & _ & Hh & Hs & Hp & Hg & He).
    split; [exact He|]. split; [|exact (dingSettled_fields _ _ Hg Hd)].
    unfold lockSettled. rewrite Hh, Hs, Hp. split; reflexivity.
  - destruct (processDing_fields w) as (_ & _ & Hh & Hs & Hp & Hg & He).
    split; [exact He|]. split; [exact (lockSettled_fields _ _ Hg Hl)|].
    unfold dingSettled. rewrite Hh, Hs, Hp. split; reflexivity.
  - destruct (frame_publishState w data now) as (_ & _ & Hlt & Hdt & Hls & Hds).
    pose proof (publishState_lock_cache w data now) as Hlp.
    pose proof (publishState_ding_cache w data now) as Hdp.
    split; [apply entity_publishState|]. unfold lockSettled, dingSettled in *.
    rewrite Hlt, Hdt, Hls, Hds, Hlp, Hdp.
    split.
    + destruct (unlockTimeout (lock w)); destruct Hl as [-> _]; auto.
    + destruct (ding_timeout (ding w)); destruct Hd as [-> _]; auto.
  - destruct (opensDoor toLowerCase command message unlocked) eqn:Hc.
    + rewrite (command_opens _ _ _ _ Hc).
      match goal with |- context [setDoorUnlocked ?x] => set (w0 := x) end.
      destruct (setDoorUnlocked_fields w0) as (_ & _ & Hh & Hs & Hp & Hg & He).
      split; [exact He|]. split; [|exact (dingSettled_fields w _ Hg Hd)].
      unfold lockSettled. rewrite Hh, Hs, Hp. split; reflexivity.
    + destruct (command_only_logs w command message unlocked Hl Hc) as [lines ->].
      split; [reflexivity|]. split; [exact Hl | exact Hd].
  - destruct (timers w !! h) as [t|] eqn:Ht.
    + destruct (fire_caches w h t Ht) as [He Hp]. split; [exact He|].
      destruct (action t) eqn:Ha.
      * destruct (fire_ding_fields w h t Ht Ha) as (_ & _ & Hh & Hs & Hg & _).
        split; [exact (lockSettled_fields _ _ Hg Hl)|].
        unfold dingSettled. rewrite Hh, Hs, Hp. auto.
      * destruct (fire_lock_fields w h t Ht Ha) as (_ & _ & Hh & Hs & Hg & _).
        split; [|exact (dingSettled_fields _ _ Hg Hd)].
        unfold lockSettled. rewrite Hh, Hs, Hp. auto.
    + unfold fire. rewrite Ht. auto.
Qed.

Lemma synced_step w e :
  distinctTopics (entity w) -> lockSettled w -> synced w -> synced (step toLowerCase w e).
Proof.
  intros Hd Hl Hs. destruct e as [| |data now|command message unlocked|h]; cbn [step].
  - apply synced_setDoorUnlocked; assumption.
  - apply synced_processDing; assumption.
  - apply synced_publishState; assumption.
  - destruct (opensDoor toLowerCase command message unlocked) eqn:Hc.
    + rewrite (command_opens _ _ _ _ Hc).
      apply synced_setDoorUnlocked; [exact Hd|]. apply synced_emit_debug, synced_emit_debug, Hs.
    + destruct (command_only_logs w command message unlocked Hl Hc) as [lines ->].
      destruct Hs as [H1 H2]. unfold synced. cbn [entity lock ding out].
      rewrite !lastOn_debug. split; assumption.
  - apply synced_fire; assumption.
Qed.

Lemma settled_run es :
  forall w, lockSettled w /\ dingSettled w ->
            entity (run toLowerCase w es) = entity w /\
            lockSettled (run toLowerCase w es) /\ dingSettled (run toLowerCase w es).
Proof.
  induction es as [|e es IH]; intros w H; [split; [reflexivity | exact H]|].
  destruct (settled_step w e H) as (He & H'). cbn [run fold_left].
  destruct (IH _ H') as (He' & H''). split; [|exact H''].
  unfold run in He'. rewrite He'. exact He.
Qed.

Lemma synced_run es :
  forall w, distinctTopics (entity w) -> lockSettled w /\ dingSettled w -> synced w ->
            synced (run toLowerCase w es).
Proof.
  induction es as [|e es IH]; intros w Hd H Hs; [exact Hs|].
  destruct (settled_step w e H) as (He & H'). cbn [run fold_left].
  apply IH; [rewrite He; exact Hd | exact H' | apply synced_step; tauto].
Qed.

Lemma settled_create dev topics :
  lockSettled (create dev topics) /\ dingSettled (create dev topics).
Proof. split; split; auto. Qed.

(** X10. In every state the wrapper reaches, the lock is LOCKED or UNLOCKED
    and the ding is OFF or ON; the lock is UNLOCKED exactly while a 5-second
    revert is pending in the event loop, and the ding is ON exactly while a
    15-second revert is pending. An unlocked or ringing state is therefore
    never left without the timeout that ends it. *)
Theorem unlocked_exactly_while_revert_pending dev topics es :
  let w := run toLowerCase (create dev topics) es in
  (lock_state (lock w) = "LOCKED" \/ lock_state (lock w) = "UNLOCKED") /\
  (lock_state (lock w) = "UNLOCKED" <-> exists h, timers w !! h = Some lockTimer) /\
  (ding_state (ding w) = "OFF" \/ ding_state (ding w) = "ON") /\
  (ding_state (ding w) = "ON" <-> exists h, timers w !! h = Some dingTimer).
Proof.
  intros w.
  destruct (settled_run es _ (settled_create dev topics)) as (_ & Hl & Hd).
  pose proof (timersOwned_run toLowerCase es _ (timersOwned_create dev topics)) as [Ho1 Ho2].
  fold w in Hl, Hd, Ho1, Ho2. unfold lockSettled in Hl. unfold dingSettled in Hd.
  split; [destruct (unlockTimeout (lock w)); destruct Hl as [-> _]; auto|].
  split.
  { split.
    - intros Hu. destruct (unlockTimeout (lock w)) as [h|] eqn:Hh.
      + exists h. exact (Ho2 RevertLock h Hh).
      + destruct Hl as [Hl _]. rewrite Hl in Hu. discriminate.
    - intros [h Hh]. apply Ho1 in Hh as [_ Hh]. cbn [lockTimer action handleOf] in Hh.
      rewrite Hh in Hl. apply Hl. }
  split; [destruct (ding_timeout (ding w)); destruct Hd as [-> _]; auto|].
  split.
  - intros Hu. destruct (ding_timeout (ding w)) as [h|] eqn:Hh.
    + exists h. exact (Ho2 RevertDing h Hh).
    + destruct Hd as [Hd _]. rewrite Hd in Hu. discriminate.
  - intros [h Hh]. apply Ho1 in Hh as [_ Hh]. cbn [dingTimer action handleOf] in Hh.
    rewrite Hh in Hd. apply Hd.
Qed.

(** X11. With three distinct state topics, in every state the wrapper
    reaches the last [mqttPublish] call on the lock state topic carried the
    current lock state, and the last one on the ding state topic the current
    ding state; while a topic has not been published on at all, its entity is
    still in the state the constructor gave it. *)
Theorem last_publish_carries_current_state dev topics es :
  distinctTopics topics ->
  let w := run toLowerCase (create dev topics) es in
  match lastOn (lock_state_topic topics) (out w) with
  | Some m => m = Text (lock_state (lock w))
  | None => lock_state (lock w) = "LOCKED"
  end /\
  match lastOn (ding_state_topic topics) (out w) with
  | Some m => m = Text (ding_state (ding w))
  | None => ding_state (ding w) = "OFF"
  end.
Proof.
  intros Hdist w.
  destruct (settled_run es _ (settled_create dev topics)) as (He & Hl & Hd).
  assert (Hs : synced w).
  { apply synced_run; [exact Hdist | apply settled_create | split; reflexivity]. }
  fold w in He, Hl, Hd. destruct Hs as [Hs1 Hs2]. rewrite He in Hs1, Hs2.
  cbn [create entity] in Hs1, Hs2. rewrite Hs1, Hs2.
  unfold lockSettled in Hl. unfold dingSettled in Hd. split.
  - destruct (unlockTimeout (lock w)).
    + destruct Hl as [-> ->]. reflexivity.
    + destruct Hl as [-> [-> | ->]]; reflexivity.
  - destruct (ding_timeout (ding w)).
    + destruct Hd as [-> ->]. reflexivity.
    + destruct Hd as [-> [-> | ->]]; reflexivity.
Qed.

(** X12. In every state the wrapper reaches, a command that does not end
    in a successful unlock changes nothing but the debug log: no state, no
    cache, no timeout, and nothing is published. In particular a [lock]
    command never locks an unlocked door; only the timeout does. *)
Theorem only_an_unlock_command_acts dev topics es command message unlocked :
  opensDoor toLowerCase command message unlocked = false ->
  let w := run toLowerCase (create dev topics) es in
  exists lines,
    processCommand toLowerCase w command message unlocked =
    {| device := device w; entity := entity w; lock := lock w; ding := ding w;
       timers := timers w; nextTimer := nextTimer w;
       out := out w ++ List.map Debug lines |}.
Proof.
  intros Hc w.
  destruct (settled_run es _ (settled_create dev topics)) as (_ & Hl & _).
  apply command_only_logs; assumption.
Qed.

End Reachable.

Lemma last_publish_witness :
  distinctTopics Examples.handsetTopics /\
  let w := run asciiLowerCase (create Examples.handset Examples.handsetTopics)
               [OnUnlocked; Command "lock/command" "lock" true; Fire 0%nat] in
  match lastOn (lock_state_topic Examples.handsetTopics) (out w) with
  | Some m => m = Text (lock_state (lock w))
  | None => lock_state (lock w) = "LOCKED"
  end /\
  match lastOn (ding_state_topic Examples.handsetTopics) (out w) with
  | Some m => m = Text (ding_state (ding w))
  | None => ding_state (ding w) = "OFF"
  end.
Proof.
  assert (Hd : distinctTopics Examples.handsetTopics) by (repeat split; discriminate).
  split; [exact Hd|].
  exact (last_publish_carries_current_state asciiLowerCase
           Examples.handset Examples.handsetTopics
           [OnUnlocked; Command "lock/command" "lock" true; Fire 0%nat] Hd).
Defined.

Lemma only_an_unlock_command_acts_witness :
  lock_state
    (lock (processCommand asciiLowerCase
             (run asciiLowerCase (create Examples.handset Examples.handsetTopics) [OnUnlocked])
             "lock/command" "LOCK" true))
  = "UNLOCKED".
Proof.
  destruct (only_an_unlock_command_acts asciiLowerCase
              Examples.handset Examples.handsetTopics [OnUnlocked]
              "lock/command" "LOCK" true eq_refl) as [lines ->].
  reflexivity.
Defined.

End IntercomMore.

(** ** More on the media server supervisor *)

Module MediaMTXMore.
Import MediaMTX MediaMTXTerms.

Lemma stopped_step m e :
  stopped m -> isInit e = false ->
  stopped (step m e) /\ out (step m e) = out m /\ spawned (step m e) = spawned m.
Proof.
  intros (Hs & Hp & Ht) He. destruct e as [cameras| |p|i]; [discriminate| | |].
  - cbn [step]. unfold shutdown. cbn [mediamtxProcess]. rewrite Hp.
    repeat split; assumption.
  - cbn [step]. destruct (decide (p ∈ listening m)); [|repeat split; assumption].
    repeat split; try assumption. cbn [suspend tasks].
    apply Forall_app. split; [exact Ht | repeat constructor].
  - cbn [step]. destruct (tasks m !! i) as [t|] eqn:Hi; [|repeat split; assumption].
    assert (t = CloseSleep) as ->.
    { rewrite Forall_lookup in Ht. exact (Ht i t Hi). }
    cbn [resume started]. rewrite decide_True by exact Hs.
    repeat split; try assumption. cbn [tasks]. apply Forall_delete. exact Ht.
Qed.

(** X13. Once the supervisor is shut down with no restart in flight, it
    stays shut down: whatever processes exit and whatever waits end, and
    however often [shutdown] is called again, nothing is spawned or killed
    as long as [init] is not called. Only a handler that was already past
    its check can restart the server after a shutdown. *)
Theorem shutdown_is_final_without_pending_restart m es :
  stopped m ->
  Forall (fun e => isInit e = false) es ->
  stopped (run m es) /\ out (run m es) = out m /\ spawned (run m es) = spawned m.
Proof.
  revert m. induction es as [|e es IH]; intros m Hm Hes; [repeat split; apply Hm|].
  apply Forall_cons_1 in Hes as [He Hes].
  destruct (stopped_step m e Hm He) as (Hm' & Ho & Hn).
  cbn [run fold_left]. destruct (IH _ Hm' Hes) as (H1 & H2 & H3).
  unfold run in *. rewrite H2, H3. auto.
Qed.

Lemma shutdown_is_final_witness :
  out (run (run initial [Init false; Shutdown]) [Close 0%nat; Wake 0%nat; Shutdown; Close 0%nat])
  = [Spawn 0%nat; Kill 0%nat None].
Proof.
  destruct (shutdown_is_final_without_pending_restart
              (run initial [Init false; Shutdown])
              [Close 0%nat; Wake 0%nat; Shutdown; Close 0%nat]) as (_ & H & _).
  - repeat split. constructor.
  - repeat constructor.
  - exact H.
Defined.

(** X14. An unexpected exit of the supervised process is answered by one
    restart. On the close event the handler does nothing but sleep 1 second;
    when that sleep is over it logs the exit, sends [kill(9)] to the old
    process and sleeps 5 seconds; when that sleep is over [init] spawns one
    new process, which is then supervised in the same way. *)
Theorem unexpected_exit_restarts_once m p :
  supervised m p ->
  let closed := run m [Close p] in
  let killed := run m [Close p; Wake 0%nat] in
  let m' := run m [Close p; Wake 0%nat; Wake 0%nat] in
  (tasks closed = [CloseSleep] /\ sleepSeconds CloseSleep = Some 1 /\
   out closed = out m) /\
  (tasks killed = [RestartSleep] /\ sleepSeconds RestartSleep = Some 5 /\
   out killed = out m ++ [Unexpected; Kill p (Some 9)]) /\
  out m' = out m ++ [Unexpected; Kill p (Some 9); Spawn (spawned m)] /\
  spawned m' = S (spawned m) /\
  supervised m' (spawned m).
Proof.
  intros (Hs & Hp & Hl & Ht) closed killed m'. subst closed killed m'.
  cbn [run fold_left step].
  rewrite decide_True by exact Hl. cbn [suspend tasks]. rewrite Ht.
  cbn [app lookup list_lookup delete list_delete resume started mediamtxProcess emit].
  rewrite decide_False by (rewrite Hs; discriminate).
  rewrite Hp. cbn [suspend tasks app lookup list_lookup delete list_delete resume init
                   spawnProcess started mediamtxProcess spawned listening out emit].
  split; [repeat split|]. split; [repeat split; rewrite <- !app_assoc; reflexivity|].
  split; [rewrite <- !app_assoc; reflexivity|]. split; [reflexivity|].
  repeat split. set_solver.
Qed.

Lemma unexpected_exit_witness :
  out (run (run initial [Init false]) [Close 0%nat; Wake 0%nat])
  = [Spawn 0%nat] ++ [Unexpected; Kill 0%nat (Some 9)] /\
  out (run (run initial [Init false]) [Close 0%nat; Wake 0%nat; Wake 0%nat])
  = [Spawn 0%nat] ++ [Unexpected; Kill 0%nat (Some 9); Spawn 1%nat].
Proof.
  destruct (unexpected_exit_restarts_once (run initial [Init false]) 0%nat)
    as (_ & (_ & _ & H1) & H2 & _).
  - repeat split.
  - split; [exact H1 | exact H2].
Defined.

End MediaMTXMore.

(** ** The saved-state file *)

Module StateFacts.
Import State.

Lemma getOwn_setOwn_eq k v p : getOwn k (setOwn k v p) = Some v.
Proof.
  induction p as [|[k' v'] p IH]; simpl.
  - rewrite String.eqb_refl. reflexivity.
  - destruct (String.eqb k' k) eqn:E; simpl; rewrite E; [reflexivity | exact IH].
Qed.

Lemma getOwn_setOwn_ne k k' v p : k' <> k -> getOwn k' (setOwn k v p) = getOwn k' p.
Proof.
  intros Hne. induction p as [|[k0 v0] p IH]; simpl.
  - apply String.eqb_neq in Hne. rewrite String.eqb_sym, Hne. reflexivity.
  - destruct (String.eqb k0 k) eqn:E; simpl.
    + apply String.eqb_eq in E. subst k0.
      assert (String.eqb k k' = false) as -> by (apply String.eqb_neq; congruence).
      reflexivity.
    + destruct (String.eqb k0 k'); [reflexivity | exact IH].
Qed.

Lemma requireData_unloaded path c p :
  unloaded path p ->
  requireData path c p =
  match c with
  | Garbage => None
  | JsonText j =>
      Some {| valid := valid p; data := parsed j; alias := Some path; config := config p;
              file := file p; files := files p;
              moduleCache :=
                delete path (match alias p with
                             | Some old => <[old := data p]> (moduleCache p)
                             | None => moduleCache p
                             end);
              errGlobal := errGlobal p; mainDir := mainDir p; out := out p |}
  end.
Proof.
  intros [Ha Hc]. unfold requireData.
  rewrite bool_decide_false by exact Ha. rewrite Hc. reflexivity.
Qed.

Lemma init_existing runMode fresh p c :
  files p !! stateFile runMode (mainDir p) = Some c ->
  init runMode fresh p =
  match loadTry (stateFile runMode (mainDir p)) c fresh (entered runMode p) with
  | (p2, true) => (p2, None)
  | (p2, false) => loadCatch p2
  end.
Proof. intros Hc. unfold init, loadStateData. cbn [file files]. rewrite Hc. reflexivity. Qed.

Lemma hasOwnSystemId_accepted j :
  accepted (JsonText j) = true ->
  hasOwnSystemId (parsed j) = Some (bool_decide (is_Some (getOwn "systemId" (named (parsed j))))).
Proof.
  destruct j as [| | | |els|own]; try discriminate; intros H; [reflexivity|].
  cbn in H. apply bool_decide_eq_true in H. cbn [parsed hasOwnSystemId named]. rewrite H.
  reflexivity.
Qed.

Lemma loadTry_unloaded path c fresh p :
  unloaded path p ->
  snd (loadTry path c fresh p) = accepted c /\
  (c = Garbage -> fst (loadTry path c fresh p) = p) /\
  (c <> Garbage -> valid (fst (loadTry path c fresh p)) = true) /\
  out (fst (loadTry path c fresh p)) = out p /\
  errGlobal (fst (loadTry path c fresh p)) = errGlobal p.
Proof.
  intros Hu. unfold loadTry. rewrite (requireData_unloaded _ _ _ Hu).
  assert (Hne : forall j, JsonText j <> Garbage) by discriminate.
  destruct c as [|j]; [repeat split; intros; try reflexivity; congruence|].
  destruct j as [|b|n|s|els|own]; cbn;
    try (repeat split; intros; try reflexivity; discriminate).
  destruct (getOwn "hasOwnProperty" own) eqn:E.
  - rewrite bool_decide_false by congruence.
    repeat split; intros; try reflexivity; discriminate.
  - rewrite (bool_decide_true (@None json = None)) by reflexivity.
    destruct (bool_decide (is_Some (getOwn "systemId" own)));
      repeat split; intros; try reflexivity; discriminate.
Qed.

(** X15. What [init] makes of a state file that exists and was not loaded
    before, when no global [err] is defined. The call goes through exactly
    for a JSON array and for a JSON object without an own [hasOwnProperty]
    key. For every other file it rejects with the [ReferenceError] of the
    [catch] block, which names an [err] it never declared, and the message
    that the file could not be parsed is not logged. A file that cannot be
    loaded leaves the object as it was; a file that holds [null] or a
    primitive is rejected with [valid] set. *)
Theorem unusable_state_file_rejects_init runMode fresh p c :
  errGlobal p = Unbound ->
  unloaded (stateFile runMode (mainDir p)) p ->
  files p !! stateFile runMode (mainDir p) = Some c ->
  snd (init runMode fresh p) =
    (if accepted c then None else Some (ReferenceError "err is not defined")) /\
  out (fst (init runMode fresh p)) =
    out p ++ [Debug ("Reading latest data from state file: " +:+ stateFile runMode (mainDir p))] /\
  (c = Garbage ->
   valid (fst (init runMode fresh p)) = valid p /\ data (fst (init runMode fresh p)) = data p) /\
  (c <> Garbage -> valid (fst (init runMode fresh p)) = true).
Proof.
  intros He Hu Hc. rewrite (init_existing _ _ _ _ Hc).
  destruct (loadTry_unloaded (stateFile runMode (mainDir p)) c fresh (entered runMode p) Hu)
    as (Hok & Hg & Hv & Ho & Hb).
  destruct (loadTry (stateFile runMode (mainDir p)) c fresh (entered runMode p)) as [p2 ok].
  cbn [fst snd] in *. subst ok. unfold loadCatch.
  destruct (accepted c) eqn:Ha.
  - cbn [fst snd]. split; [reflexivity|]. split; [exact Ho|]. split; [|exact Hv].
    intros ->. discriminate.
  - rewrite Hb. cbn [entered emit errGlobal]. rewrite He. cbn [fst snd].
    split; [reflexivity|]. split; [exact Ho|]. split; [|exact Hv].
    intros Hgar. rewrite (Hg Hgar). split; reflexivity.
Qed.

Lemma withSystemId_systemId fresh own :
  getOwn "systemId" (withSystemId fresh own) =
  Some (match getOwn "systemId" own with Some v => v | None => JString fresh end).
Proof.
  unfold withSystemId. destruct (getOwn "systemId" own) eqn:E; [exact E|].
  apply getOwn_setOwn_eq.
Qed.

Lemma withSystemId_other fresh own k :
  k <> "systemId" -> getOwn k (withSystemId fresh own) = getOwn k own.
Proof.
  intros Hk. unfold withSystemId. destruct (getOwn "systemId" own); [reflexivity|].
  apply getOwn_setOwn_ne. exact Hk.
Qed.

(** The process after a first load of the object [own] from [path]. *)
Lemma loadTry_object path fresh p own :
  unloaded path p -> plainObject own ->
  loadTry path (JsonText (JObject own)) fresh p =
  ({| valid := true; data := VObject (withSystemId fresh own); alias := Some path;
      config := config p; file := file p; files := files p;
      moduleCache :=
        delete path (match alias p with
                     | Some old => <[old := data p]> (moduleCache p)
                     | None => moduleCache p
                     end);
      errGlobal := errGlobal p; mainDir := mainDir p; out := out p |}, true).
Proof.
  intros Hu Hp. unfold loadTry. rewrite (requireData_unloaded _ _ _ Hu).
  cbn [parsed set_valid data hasOwnSystemId]. unfold plainObject in Hp. rewrite Hp.
  unfold withSystemId. destruct (getOwn "systemId" own) as [v|] eqn:E.
  - rewrite bool_decide_true by (eexists; reflexivity). reflexivity.
  - rewrite bool_decide_false by (intros [x Hx]; discriminate). reflexivity.
Qed.

Lemma init_object runMode fresh p own :
  plainObject own ->
  unloaded (stateFile runMode (mainDir p)) p ->
  files p !! stateFile runMode (mainDir p) = Some (JsonText (JObject own)) ->
  snd (init runMode fresh p) = None /\
  valid (fst (init runMode fresh p)) = true /\
  data (fst (init runMode fresh p)) = VObject (withSystemId fresh own) /\
  alias (fst (init runMode fresh p)) = Some (stateFile runMode (mainDir p)) /\
  mainDir (fst (init runMode fresh p)) = mainDir p.
Proof.
  intros Hp Hu Hc. rewrite (init_existing _ _ _ _ Hc).
  rewrite (loadTry_object _ _ (entered runMode p) own Hu Hp). repeat split.
Qed.

(** X16. Loading a state file that holds a JSON object: [init] returns
    normally, whatever the global [err] is, the state is valid, and the data
    is the object of the file with a [systemId]. A [systemId] the file has is
    kept as it is, also when it is empty or no string; only a missing one is
    drawn afresh. Every other property is the file's. *)
Theorem load_keeps_an_existing_system_id runMode fresh p own :
  plainObject own ->
  unloaded (stateFile runMode (mainDir p)) p ->
  files p !! stateFile runMode (mainDir p) = Some (JsonText (JObject own)) ->
  snd (init runMode fresh p) = None /\
  valid (fst (init runMode fresh p)) = true /\
  (exists own',
     data (fst (init runMode fresh p)) = VObject own' /\
     getOwn "systemId" own' =
       Some (match getOwn "systemId" own with Some v => v | None => JString fresh end) /\
     forall k, k <> "systemId" -> getOwn k own' = getOwn k own).
Proof.
  intros Hp Hu Hc. destruct (init_object runMode fresh p own Hp Hu Hc) as (He & Hv & Hd & _).
  split; [exact He|]. split; [exact Hv|].
  exists (withSystemId fresh own). split; [exact Hd|].
  split; [apply withSystemId_systemId|]. intros k Hk. apply withSystemId_other. exact Hk.
Qed.



Lemma updateToken_saved newRefreshToken oldRefreshToken p path runMode own :
  file p = Some path ->
  config p = Some runMode ->
  data p = VObject own ->
  truthy oldRefreshToken = true ->
  files (fst (updateToken newRefreshToken oldRefreshToken true p)) !! path =
  Some (JsonText (JObject (setOwn "ring_token" (JString newRefreshToken) own))).
Proof.
  intros Hf Hc Hd Ht. unfold updateToken. rewrite Ht, Hd. cbn [assign].
  unfold saveData. cbn [set_data file config]. rewrite Hf. cbn [emit set_data config].
  rewrite Hc.
  destruct (String.eqb runMode "standard"); cbn [fst emit set_data files data stringify];
    apply lookup_insert_eq.
Qed.

(** X18. Round trip of the refresh token, for a process that was
    initialised and holds a plain object as state data (no array, and no own
    key [hasOwnProperty]). After an [updateToken] call with a truthy old
    token whose write went through, a new process that starts on the same
    disk and resolves the same state file loads valid state data with that
    token; the other properties are those the writing process held, and a
    [systemId] among them is not drawn again. *)
Theorem saved_token_is_loaded_by_next_start
        newRefreshToken oldRefreshToken p path runMode own runMode' fresh e dir :
  file p = Some path ->
  config p = Some runMode ->
  data p = VObject own ->
  plainObject own ->
  truthy oldRefreshToken = true ->
  stateFile runMode' dir = path ->
  let disk := files (fst (updateToken newRefreshToken oldRefreshToken true p)) in
  let r := init runMode' fresh (create disk e dir) in
  snd r = None /\
  valid (fst r) = true /\
  (exists own',
     data (fst r) = VObject own' /\
     getOwn "ring_token" own' = Some (JString newRefreshToken) /\
     (forall k, k <> "ring_token" -> k <> "systemId" -> getOwn k own' = getOwn k own) /\
     getOwn "systemId" own' =
       Some (match getOwn "systemId" own with Some v => v | None => JString fresh end)).
Proof.
  intros Hf Hc Hd Hp Ht Hpath disk r.
  pose proof (updateToken_saved newRefreshToken oldRefreshToken p path runMode own
                Hf Hc Hd Ht) as Hdisk.
  fold disk in Hdisk.
  assert (Hp' : plainObject (setOwn "ring_token" (JString newRefreshToken) own)).
  { unfold plainObject. rewrite getOwn_setOwn_ne by discriminate. exact Hp. }
  destruct (init_object runMode' fresh (create disk e dir) _ Hp') as (He & Hv & Hdat & _).
  - split; [discriminate | reflexivity].
  - cbn [create mainDir files]. rewrite Hpath. exact Hdisk.
  - fold r in He, Hv, Hdat. split; [exact He|]. split; [exact Hv|].
    eexists. split; [exact Hdat|]. split.
    + rewrite withSystemId_other by discriminate. apply getOwn_setOwn_eq.
    + split.
      * intros k Hk1 Hk2. rewrite withSystemId_other by exact Hk2.
        apply getOwn_setOwn_ne. exact Hk1.
      * rewrite withSystemId_systemId. rewrite getOwn_setOwn_ne by discriminate. reflexivity.
Qed.

(** X19. The state file is read once per process. After [init] has loaded
    an object from the state file, a further [init] with the same run mode
    changes neither the state data nor its validity, whatever the disk holds
    by then: a changed, an unparsable or a deleted state file goes unnoticed,
    because [require] hands back the object it loaded first. *)
Theorem state_file_is_read_once_per_process runMode fresh fresh' p own disk' :
  plainObject own ->
  unloaded (stateFile runMode (mainDir p)) p ->
  files p !! stateFile runMode (mainDir p) = Some (JsonText (JObject own)) ->
  let p1 := fst (init runMode fresh p) in
  let r := init runMode fresh' (withFiles disk' p1) in
  snd r = None /\ data (fst r) = data p1 /\ valid (fst r) = true /\
  alias (fst r) = alias p1.
Proof.
  intros Hp Hu Hc p1 r.
  destruct (init_object runMode fresh p own Hp Hu Hc) as (_ & Hv & Hd & Ha & Hm).
  fold p1 in Hv, Hd, Ha, Hm. subst r.
  unfold init, loadStateData. cbn [withFiles file files mainDir]. rewrite Hm.
  destruct (disk' !! stateFile runMode (mainDir p)) as [c|]; [|repeat split; assumption].
  unfold loadTry, requireData. cbn [emit withFiles alias]. rewrite Ha.
  rewrite bool_decide_true by reflexivity.
  cbn [set_valid emit withFiles data]. rewrite Hd. cbn [hasOwnSystemId].
  assert (getOwn "hasOwnProperty" (withSystemId fresh own) = None) as ->.
  { rewrite withSystemId_other by discriminate. exact Hp. }
  rewrite bool_decide_true by (rewrite withSystemId_systemId; eexists; reflexivity).
  cbn [fst snd set_valid emit withFiles data valid alias]. repeat split; assumption.
Qed.


Lemma unusable_state_file_witness :
  snd (init "addon" "f00d" Samples.brokenStart) =
    (if accepted Garbage then None else Some (ReferenceError "err is not defined")) /\
  out (fst (init "addon" "f00d" Samples.brokenStart)) =
    out Samples.brokenStart ++
    [Debug ("Reading latest data from state file: " +:+
            stateFile "addon" (mainDir Samples.brokenStart))] /\
  (Garbage = Garbage ->
   valid (fst (init "addon" "f00d" Samples.brokenStart)) = valid Samples.brokenStart /\
   data (fst (init "addon" "f00d" Samples.brokenStart)) = data Samples.brokenStart) /\
  (Garbage <> Garbage -> valid (fst (init "addon" "f00d" Samples.brokenStart)) = true).
Proof.
  apply (unusable_state_file_rejects_init "addon" "f00d" Samples.brokenStart Garbage).
  - reflexivity.
  - split; [discriminate | apply lookup_empty].
  - vm_compute. reflexivity.
Defined.

Lemma load_keeps_system_id_witness :
  snd (init "addon" "f00d" Samples.savedStart) = None /\
  valid (fst (init "addon" "f00d" Samples.savedStart)) = true /\
  (exists own',
     data (fst (init "addon" "f00d" Samples.savedStart)) = VObject own' /\
     getOwn "systemId" own' =
       Some (match getOwn "systemId" Samples.savedState with
             | Some v => v
             | None => JString "f00d"
             end) /\
     forall k, k <> "systemId" -> getOwn k own' = getOwn k Samples.savedState).
Proof.
  apply (load_keeps_an_existing_system_id "addon" "f00d" Samples.savedStart Samples.savedState).
  - reflexivity.
  - split; [discriminate | apply lookup_empty].
  - vm_compute. reflexivity.
Defined.

Lemma savedRunning_fields :
  file Samples.savedRunning = Some "/data/ring-state.json" /\
  config Samples.savedRunning = Some "addon" /\
  data Samples.savedRunning = VObject Samples.savedState.
Proof. vm_compute. repeat split. Qed.


Lemma saved_token_witness :
  let disk := files (fst (updateToken "t1" (JStr "t0") true Samples.savedRunning)) in
  let r := init "addon" "beef" (create disk Unbound "/app") in
  snd r = None /\
  valid (fst r) = true /\
  (exists own',
     data (fst r) = VObject own' /\
     getOwn "ring_token" own' = Some (JString "t1") /\
     (forall k, k <> "ring_token" -> k <> "systemId" ->
                getOwn k own' = getOwn k Samples.savedState) /\
     getOwn "systemId" own' =
       Some (match getOwn "systemId" Samples.savedState with
             | Some v => v
             | None => JString "beef"
             end)).
Proof.
  destruct savedRunning_fields as (Hf & Hc & Hd).
  apply (saved_token_is_loaded_by_next_start
           "t1" (JStr "t0") Samples.savedRunning "/data/ring-state.json" "addon"
           Samples.savedState "addon" "beef" Unbound "/app" Hf Hc Hd);
    reflexivity.
Defined.

Lemma read_once_witness :
  let p1 := fst (init "addon" "f00d" Samples.savedStart) in
  let r := init "addon" "beef" (withFiles (files Samples.brokenStart) p1) in
  snd r = None /\ data (fst r) = data p1 /\ valid (fst r) = true /\
  alias (fst r) = alias p1.
Proof.
  apply (state_file_is_read_once_per_process
           "addon" "f00d" "beef" Samples.savedStart Samples.savedState
           (files Samples.brokenStart)).
  - reflexivity.
  - split; [discriminate | apply lookup_empty].
  - vm_compute. reflexivity.
Defined.

(** State data that is an array is outside this round trip: the token
    becomes a named property of the array, which [JSON.stringify] leaves
    out, so the next start finds none. *)
Example array_state_data_loses_the_token :
  let p := fst (init "addon" "f00d"
                  (create {[ "/data/ring-state.json" := JsonText (JArray []) ]}
                          Unbound "/app")) in
  let saved := fst (updateToken "t1" (JStr "t0") true p) in
  getOwn "ring_token" (named (data saved)) = Some (JString "t1") /\
  files saved !! "/data/ring-state.json" = Some (JsonText (JArray [])) /\
  getOwn "ring_token"
    (named (data (fst (init "addon" "beef" (create (files saved) Unbound "/app"))))) = None.
Proof. vm_compute. repeat split. Qed.

End StateFacts.
